(** * The select planner of the query engine, and the storage table readers

    A shallow embedding of [Select], [buildAuxIterators], [buildFieldIterators],
    [buildExprIterator], the three transform builders and the binary-operator
    tables of the influxql package, and of [Close] / [Statistics] of the
    generated storage tables (table.gen.go.tmpl).

    Conventions.
    - [int64] is a [Z] kept in range by [wrap64]; [float64] is the primitive
      binary64 [float].
    - A Go pointer that may be nil is an [option].
    - A call that returns [(T, error)] and may also panic yields an
      [Outcome]; code with effects (creating, closing and starting iterators)
      threads a [World] that logs every call made to a collaborator.
    - Iterator constructors that live outside these files are recorded as
      nodes of the iterator tree; whether one of them fails, and the data type
      of what it returns, is asked of a [Helpers] record. *)

From Stdlib Require Import ZArith List String Ascii Bool Lia Floats Sorted Permutation.
Import ListNotations.

Local Open Scope string_scope.
Local Open Scope Z_scope.

Set Warnings "-register-all".

(* ================================================================== *)
(** ** Scalars *)

(** DataType of the influxql package. *)
Inductive DataType := Unknown | Float | Integer | String | Boolean.

(** The operator tokens.  The ten first ones are those the operator tables
    switch on; [AND] and [OR] are the other binary operators of the language
    and fall through to the [return nil] of the tables. *)
Inductive Token := ADD | SUB | MUL | DIV | EQ | NEQ | LT | LTE | GT | GTE | AND | OR.

Definition int64 := Z.
Definition float64 := float.

Definition int64_min : Z := - 2 ^ 63.
Definition int64_max : Z := 2 ^ 63 - 1.

(** Two's-complement wrap-around of Go's int64 arithmetic. *)
Definition wrap64 (z : Z) : int64 := (z + 2 ^ 63) mod 2 ^ 64 - 2 ^ 63.

Definition in_int64 (z : Z) : Prop := int64_min <= z <= int64_max.

(** The conversion [float64(x)] of an int64: round to nearest, ties to even. *)
Definition float64_of_int64 (x : int64) : float64 :=
  SF2Prim (binary_normalize prec emax x 0 false).

(** [float64(0)] *)
Definition float64_zero : float64 := 0%float.

(* ================================================================== *)
(** ** The operator tables: floatBinaryExprFunc, integerBinaryExprFunc,
       binaryExprFunc *)

(** The dynamic type of the [interface{}] the tables return: one constructor
    per function type the callers switch on, and [FnNil] for [nil]. *)
Inductive BinaryFn :=
| FnFloatFloat (fn : float64 -> float64 -> float64)
| FnFloatBool (fn : float64 -> float64 -> bool)
| FnIntegerFloat (fn : int64 -> int64 -> float64)
| FnIntegerInteger (fn : int64 -> int64 -> int64)
| FnIntegerBool (fn : int64 -> int64 -> bool)
| FnNil.

Module FloatOp.
Definition add (lhs rhs : float64) : float64 := (lhs + rhs)%float.
Definition sub (lhs rhs : float64) : float64 := (lhs - rhs)%float.
Definition mul (lhs rhs : float64) : float64 := (lhs * rhs)%float.
Definition div (lhs rhs : float64) : float64 :=
  if (rhs =? 0)%float then float64_zero else (lhs / rhs)%float.
Definition eq (lhs rhs : float64) : bool := (lhs =? rhs)%float.
Definition neq (lhs rhs : float64) : bool := negb (lhs =? rhs)%float.
Definition lt (lhs rhs : float64) : bool := (lhs <? rhs)%float.
Definition lte (lhs rhs : float64) : bool := (lhs <=? rhs)%float.
Definition gt (lhs rhs : float64) : bool := (rhs <? lhs)%float.
Definition gte (lhs rhs : float64) : bool := (rhs <=? lhs)%float.
End FloatOp.

Module IntegerOp.
Definition add (lhs rhs : int64) : int64 := wrap64 (lhs + rhs).
Definition sub (lhs rhs : int64) : int64 := wrap64 (lhs - rhs).
Definition mul (lhs rhs : int64) : int64 := wrap64 (lhs * rhs).
Definition div (lhs rhs : int64) : float64 :=
  if rhs =? 0 then float64_zero
  else (float64_of_int64 lhs / float64_of_int64 rhs)%float.
Definition eq (lhs rhs : int64) : bool := lhs =? rhs.
Definition neq (lhs rhs : int64) : bool := negb (lhs =? rhs).
Definition lt (lhs rhs : int64) : bool := lhs <? rhs.
Definition lte (lhs rhs : int64) : bool := lhs <=? rhs.
Definition gt (lhs rhs : int64) : bool := lhs >? rhs.
Definition gte (lhs rhs : int64) : bool := lhs >=? rhs.
End IntegerOp.

Definition floatBinaryExprFunc (op : Token) : BinaryFn :=
  match op with
  | ADD => FnFloatFloat FloatOp.add
  | SUB => FnFloatFloat FloatOp.sub
  | MUL => FnFloatFloat FloatOp.mul
  | DIV => FnFloatFloat FloatOp.div
  | EQ => FnFloatBool FloatOp.eq
  | NEQ => FnFloatBool FloatOp.neq
  | LT => FnFloatBool FloatOp.lt
  | LTE => FnFloatBool FloatOp.lte
  | GT => FnFloatBool FloatOp.gt
  | GTE => FnFloatBool FloatOp.gte
  | _ => FnNil
  end.

Definition integerBinaryExprFunc (op : Token) : BinaryFn :=
  match op with
  | ADD => FnIntegerInteger IntegerOp.add
  | SUB => FnIntegerInteger IntegerOp.sub
  | MUL => FnIntegerInteger IntegerOp.mul
  | DIV => FnIntegerFloat IntegerOp.div
  | EQ => FnIntegerBool IntegerOp.eq
  | NEQ => FnIntegerBool IntegerOp.neq
  | LT => FnIntegerBool IntegerOp.lt
  | LTE => FnIntegerBool IntegerOp.lte
  | GT => FnIntegerBool IntegerOp.gt
  | GTE => FnIntegerBool IntegerOp.gte
  | _ => FnNil
  end.

Definition binaryExprFunc (typ1 typ2 : DataType) (op : Token) : BinaryFn :=
  match typ1 with
  | Float => floatBinaryExprFunc op
  | Integer =>
      match typ2 with
      | Float => floatBinaryExprFunc op
      | _ => integerBinaryExprFunc op
      end
  | _ => FnNil
  end.

(** What a division function returned by the tables does with a zero
    divisor: it returns [float64(0)], which is a number. *)
Definition zero_on_zero_divisor (fn : BinaryFn) : Prop :=
  match fn with
  | FnFloatFloat f =>
      forall lhs rhs, f lhs rhs =
        if (rhs =? 0)%float then float64_zero else (lhs / rhs)%float
  | FnIntegerFloat f =>
      forall lhs rhs, f lhs rhs =
        if rhs =? 0 then float64_zero
        else (float64_of_int64 lhs / float64_of_int64 rhs)%float
  | FnNil => True
  | _ => False
  end.

(* ================================================================== *)
(** ** The statement AST *)

(** The expression nodes the planner switches on: VarRef(Val, Type),
    Call(Name, Args), BinaryExpr(LHS, Op, RHS), ParenExpr and the literal
    variants. *)
Inductive Expr :=
| VarRef (Val : string) (Type_ : DataType)
| Call (Name : string) (Args : list Expr)
| BinaryExpr (Op : Token) (LHS RHS : Expr)
| ParenExpr (inner : Expr)
| NumberLiteral (Val : float64)
| IntegerLiteral (Val : int64)
| StringLiteral (Val : string)
| BooleanLiteral (Val : bool).

(** The type assertion [expr.(Literal)]. *)
Definition isLiteral (e : Expr) : bool :=
  match e with
  | NumberLiteral _ | IntegerLiteral _ | StringLiteral _ | BooleanLiteral _ => true
  | _ => false
  end.

Definition isVarRef (e : Expr) : bool :=
  match e with VarRef _ _ => true | _ => false end.

Definition isBinaryExpr (e : Expr) : bool :=
  match e with BinaryExpr _ _ _ => true | _ => false end.

(** What the verb %T prints for an expression node. *)
Definition typeName (e : Expr) : string :=
  match e with
  | VarRef _ _ => "*influxql.VarRef"
  | Call _ _ => "*influxql.Call"
  | BinaryExpr _ _ _ => "*influxql.BinaryExpr"
  | ParenExpr _ => "*influxql.ParenExpr"
  | NumberLiteral _ => "*influxql.NumberLiteral"
  | IntegerLiteral _ => "*influxql.IntegerLiteral"
  | StringLiteral _ => "*influxql.StringLiteral"
  | BooleanLiteral _ => "*influxql.BooleanLiteral"
  end.

Record Field := { field_Expr : Expr; field_Alias : string }.

Definition Fields := list Field.

(** [&Field{Expr: e}] *)
Definition mkField (e : Expr) : Field := {| field_Expr := e; field_Alias := "" |}.

Record Interval := { Duration : int64; Offset_ : int64 }.

(** [Interval{}] *)
Definition zeroInterval : Interval := {| Duration := 0; Offset_ := 0 |}.

Definition IsZero (i : Interval) : bool := Duration i =? 0.

Inductive FillOption := NullFill | NoFill | NumberFill | PreviousFill | LinearFill.

Definition FillOption_eqb (a b : FillOption) : bool :=
  match a, b with
  | NullFill, NullFill | NoFill, NoFill | NumberFill, NumberFill
  | PreviousFill, PreviousFill | LinearFill, LinearFill => true
  | _, _ => false
  end.

Record IteratorOptions := {
  opt_Expr : option Expr;
  opt_Aux : list string;
  opt_Sources : list string;
  opt_Interval : Interval;
  opt_Dimensions : list string;
  opt_Fill : FillOption;
  opt_FillValue : float64;
  opt_Condition : option Expr;
  opt_StartTime : int64;
  opt_EndTime : int64;
  opt_Ascending : bool;
  opt_Limit : Z;
  opt_Offset : Z;
  opt_SLimit : Z;
  opt_SOffset : Z;
  opt_Dedupe : bool
}.

(** [opt.Expr = expr] on the callee's copy of the options. *)
Definition with_Expr (opt : IteratorOptions) (e : Expr) : IteratorOptions :=
  {| opt_Expr := Some e; opt_Aux := opt_Aux opt; opt_Sources := opt_Sources opt;
     opt_Interval := opt_Interval opt; opt_Dimensions := opt_Dimensions opt;
     opt_Fill := opt_Fill opt; opt_FillValue := opt_FillValue opt;
     opt_Condition := opt_Condition opt; opt_StartTime := opt_StartTime opt;
     opt_EndTime := opt_EndTime opt; opt_Ascending := opt_Ascending opt;
     opt_Limit := opt_Limit opt; opt_Offset := opt_Offset opt;
     opt_SLimit := opt_SLimit opt; opt_SOffset := opt_SOffset opt;
     opt_Dedupe := opt_Dedupe opt |}.

(** [opt.Aux = aux] *)
Definition with_Aux (opt : IteratorOptions) (aux : list string) : IteratorOptions :=
  {| opt_Expr := opt_Expr opt; opt_Aux := aux; opt_Sources := opt_Sources opt;
     opt_Interval := opt_Interval opt; opt_Dimensions := opt_Dimensions opt;
     opt_Fill := opt_Fill opt; opt_FillValue := opt_FillValue opt;
     opt_Condition := opt_Condition opt; opt_StartTime := opt_StartTime opt;
     opt_EndTime := opt_EndTime opt; opt_Ascending := opt_Ascending opt;
     opt_Limit := opt_Limit opt; opt_Offset := opt_Offset opt;
     opt_SLimit := opt_SLimit opt; opt_SOffset := opt_SOffset opt;
     opt_Dedupe := opt_Dedupe opt |}.

(** [opt.Interval = Interval{}; opt.StartTime, opt.EndTime = MinTime, MaxTime] *)
Definition clear_window (opt : IteratorOptions) (minTime maxTime : int64)
  : IteratorOptions :=
  {| opt_Expr := opt_Expr opt; opt_Aux := opt_Aux opt; opt_Sources := opt_Sources opt;
     opt_Interval := zeroInterval; opt_Dimensions := opt_Dimensions opt;
     opt_Fill := opt_Fill opt; opt_FillValue := opt_FillValue opt;
     opt_Condition := opt_Condition opt; opt_StartTime := minTime;
     opt_EndTime := maxTime; opt_Ascending := opt_Ascending opt;
     opt_Limit := opt_Limit opt; opt_Offset := opt_Offset opt;
     opt_SLimit := opt_SLimit opt; opt_SOffset := opt_SOffset opt;
     opt_Dedupe := opt_Dedupe opt |}.

(** The statement, as far as the planner and the construction of the options
    read it. *)
Record SelectStatement := {
  stmt_Fields : Fields;
  stmt_Sources : list string;
  stmt_Dimensions : list string;
  stmt_Interval : Interval;
  stmt_Condition : option Expr;
  stmt_TimeMin : int64;
  stmt_TimeMax : int64;
  stmt_Fill : FillOption;
  stmt_FillValue : float64;
  stmt_Ascending : bool;
  stmt_Limit : Z;
  stmt_Offset : Z;
  stmt_SLimit : Z;
  stmt_SOffset : Z;
  stmt_Dedupe : bool
}.

(** SelectOptions: the outer bounds of a select call, in nanoseconds. *)
Record SelectOptions := { MinTime : int64; MaxTime : int64 }.

(** selectInfo: the calls and the raw references of a projection. The Go maps
    are keyed by node pointer, so every occurrence counts once; the lists
    keep one entry per occurrence. *)
Record selectInfo := {
  calls : list (string * list Expr);
  refs : list (string * DataType)
}.

Definition SeriesList := list (string * list (string * string)).

(* ================================================================== *)
(** ** Errors, panics and outcomes *)

(** The type of an operand shown by %T in the type-mismatch messages. *)
Inductive Operand :=
| OperandIterator (typ : DataType)
| OperandLiteral (lit : Expr).

(** One constructor per error the planner originates, with the values its
    format string receives; [ErrExternal] is an error value handed back by a
    collaborator. *)
Inductive error :=
| ErrMultipleAggregates
| ErrFieldIterator (f : Field) (err : error)
| ErrTopArguments (got : nat)
| ErrBottomArguments (got : nat)
| ErrUnsupportedCall (name : string)
| ErrTwoLiterals (lhs rhs : Expr)
| ErrInvalidExpressionType (e : Expr)
| ErrTypeMismatch (side : string) (shown : Operand) (wanted : string)
| ErrTransform (kind : string) (lhs rhs : Operand)
| ErrExternal (msg : string).       (* an error value made by a collaborator *)

(** The literal text of the message up to its first formatting verb (the
    whole message when there is none). *)
Definition message_head (e : error) : string :=
  match e with
  | ErrMultipleAggregates => "cannot select fields when selecting multiple aggregates"
  | ErrFieldIterator _ _ => "error constructing iterator for field '"
  | ErrTopArguments _ => "top() requires 2 or more arguments, got "
  | ErrBottomArguments _ => "bottom() requires 2 or more arguments, got "
  | ErrUnsupportedCall _ => "unsupported call: "
  | ErrTwoLiterals _ _ => "unable to construct an iterator from two literals: LHS: "
  | ErrInvalidExpressionType _ => "invalid expression type: "
  | ErrTypeMismatch side _ _ => "type mismatch on " ++ side ++ ", unable to use "
  | ErrTransform kind _ _ => "unable to construct " ++ kind ++ " iterator from "
  | ErrExternal msg => msg
  end.

(** The full message of the errors whose verbs only print expression types. *)
Definition two_literals_message (lhs rhs : Expr) : string :=
  "unable to construct an iterator from two literals: LHS: " ++ typeName lhs
  ++ ", RHS: " ++ typeName rhs.

Inductive PanicValue :=
| PanicUnreachable              (* panic("unreachable") *)
| PanicNilDereference           (* a field of a nil pointer is read or written *)
| PanicIndexOutOfRange          (* a slice is indexed past its length *)
| PanicTypeAssertion            (* x.(T) on a value of another type *)
| PanicCollaborator (msg : string).

Inductive Outcome (A : Type) :=
| Ok (a : A)
| Err (e : error)
| Panic (p : PanicValue).

Arguments Ok {A} a.
Arguments Err {A} e.
Arguments Panic {A} p.

Definition isErr {A} (o : Outcome A) : bool :=
  match o with Err _ => true | _ => false end.

(* ================================================================== *)
(** ** Points *)

(** A value of the Aux slice of a point. *)
Inductive AuxValue :=
| AuxFloat (v : float64)
| AuxInteger (v : int64)
| AuxString (v : string)
| AuxBoolean (v : bool)
| AuxNil.

Record Point (T : Type) := {
  Name : string;
  Tags : list (string * string);
  Time : int64;
  Value : T;
  Nil : bool;
  Aux : list AuxValue
}.

Arguments Name {T} p.
Arguments Tags {T} p.
Arguments Time {T} p.
Arguments Value {T} p.
Arguments Nil {T} p.
Arguments Aux {T} p.

Definition FloatPoint := Point float64.
Definition IntegerPoint := Point int64.
Definition BooleanPoint := Point bool.

(** [p.Value = v] *)
Definition set_Value {T} (p : Point T) (v : T) : Point T :=
  {| Name := Name p; Tags := Tags p; Time := Time p; Value := v;
     Nil := Nil p; Aux := Aux p |}.

(** [p.Nil = true] *)
Definition set_Nil {T} (p : Point T) : Point T :=
  {| Name := Name p; Tags := Tags p; Time := Time p; Value := Value p;
     Nil := true; Aux := Aux p |}.

(** [&R{Name: a.Name, Tags: a.Tags, Time: a.Time, Aux: a.Aux}]: Value and Nil
    take the zero value of their type. *)
Definition point_like {T R} (a : Point T) (zero : R) : Point R :=
  {| Name := Name a; Tags := Tags a; Time := Time a; Value := zero;
     Nil := false; Aux := Aux a |}.

(** Two points carry the same metadata: name, tags, time and aux values. *)
Definition same_metadata {T R} (p : Point T) (q : Point R) : Prop :=
  Name p = Name q /\ Tags p = Tags q /\ Time p = Time q /\ Aux p = Aux q.

(* ================================================================== *)
(** ** Iterators *)

(** The iterator constructors that return [(Iterator, error)] and whose code
    is outside these files, with the arguments the planner gives them besides
    the input iterator and the options. *)
Inductive Constructor :=
| NewDistinctIterator
| newDerivativeIterator (interval : Interval) (isNonNegative : bool)
| newCountIterator
| newMedianIterator
| newStddevIterator
| newSpreadIterator
| newTopIterator (n : float64) (tags : list nat)
| newBottomIterator (n : float64) (tags : list nat)
| newPercentileIterator (percentile : float64).

(** The tree of iterators the planner assembles. [StorageIterator] is what
    the storage hands out, numbered in the order of creation; the nodes with
    a [fn] are the transform iterators, with the closure the planner gives
    them. *)
Inductive Iterator :=
| StorageIterator (id : nat) (typ : DataType) (opt : IteratorOptions)
| AuxFieldIterator (name : string) (typ : DataType)
| AuxIterator (input : Iterator) (seriesKeys : SeriesList) (opt : IteratorOptions)
| DedupeIterator (input : Iterator)
| LimitIterator (input : Iterator) (opt : IteratorOptions)
| LimitIteratorOfNil (opt : IteratorOptions)
| IntervalIterator (input : Iterator) (opt : IteratorOptions)
| FillIterator (input : Iterator) (expr : Expr) (opt : IteratorOptions)
| ConstructedIterator (c : Constructor) (input : Iterator)
    (opt : IteratorOptions) (typ : DataType)
| integerFloatCastIterator (input : Iterator)
| bufIterator (input : Iterator)
| floatTransformIterator (input : Iterator)
    (fn : option FloatPoint -> option FloatPoint)
| floatBoolTransformIterator (input : Iterator)
    (fn : option FloatPoint -> option BooleanPoint)
| floatExprIterator (left right : Iterator)
    (fn : option FloatPoint -> option FloatPoint -> Outcome (option FloatPoint))
| integerFloatExprIterator (left right : Iterator)
    (fn : option IntegerPoint -> option IntegerPoint -> Outcome (option FloatPoint))
| integerExprIterator (left right : Iterator)
    (fn : option IntegerPoint -> option IntegerPoint -> Outcome (option IntegerPoint))
| floatBooleanExprIterator (left right : Iterator)
    (fn : option FloatPoint -> option FloatPoint -> Outcome (option BooleanPoint))
| integerBooleanExprIterator (left right : Iterator)
    (fn : option IntegerPoint -> option IntegerPoint -> Outcome (option BooleanPoint)).

(** NewDedupeIterator, NewLimitIterator, NewIntervalIterator, NewFillIterator,
    NewAuxIterator, newBufFloatIterator and newBufIntegerIterator return an
    Iterator and no error: each is recorded as the node it builds.
    [LimitIteratorOfNil opt] records the call NewLimitIterator(nil, opt),
    which buildFieldIterators makes on a slot that is still nil; what
    NewLimitIterator does with a nil input is outside these files. *)
Definition NewDedupeIterator := DedupeIterator.
Definition NewLimitIterator := LimitIterator.
Definition NewIntervalIterator := IntervalIterator.
Definition NewFillIterator := FillIterator.
Definition NewAuxIterator := AuxIterator.
Definition newBufFloatIterator := bufIterator.
Definition newBufIntegerIterator := bufIterator.

(** The type switch of iteratorDataType: which of FloatIterator,
    IntegerIterator, StringIterator, BooleanIterator a node implements. The
    wrappers are typed by their input. *)
Fixpoint iteratorDataType (itr : Iterator) : DataType :=
  match itr with
  | StorageIterator _ typ _ => typ
  | AuxFieldIterator _ typ => typ
  | AuxIterator input _ _ => iteratorDataType input
  | DedupeIterator input => iteratorDataType input
  | LimitIterator input _ => iteratorDataType input
  | LimitIteratorOfNil _ => Unknown
  | IntervalIterator input _ => iteratorDataType input
  | FillIterator input _ _ => iteratorDataType input
  | ConstructedIterator _ _ _ typ => typ
  | integerFloatCastIterator _ => Float
  | bufIterator input => iteratorDataType input
  | floatTransformIterator _ _ => Float
  | floatBoolTransformIterator _ _ => Boolean
  | floatExprIterator _ _ _ => Float
  | integerFloatExprIterator _ _ _ => Float
  | integerExprIterator _ _ _ => Integer
  | floatBooleanExprIterator _ _ _ => Boolean
  | integerBooleanExprIterator _ _ _ => Boolean
  end.

Definition literalDataType (lit : Expr) : DataType :=
  match lit with
  | NumberLiteral _ => Float
  | StringLiteral _ => String
  | BooleanLiteral _ => Boolean
  | _ => Unknown
  end.

(** The storage iterators below a node: what closing the node releases,
    every iterator closing its upstreams. An aux field handle has no upstream
    of its own. *)
Fixpoint upstreams (itr : Iterator) : list nat :=
  match itr with
  | StorageIterator id _ _ => [id]
  | AuxFieldIterator _ _ => []
  | AuxIterator input _ _ => upstreams input
  | DedupeIterator input => upstreams input
  | LimitIterator input _ => upstreams input
  | LimitIteratorOfNil _ => []
  | IntervalIterator input _ => upstreams input
  | FillIterator input _ _ => upstreams input
  | ConstructedIterator _ input _ _ => upstreams input
  | integerFloatCastIterator input => upstreams input
  | bufIterator input => upstreams input
  | floatTransformIterator input _ => upstreams input
  | floatBoolTransformIterator input _ => upstreams input
  | floatExprIterator l r _ => upstreams l ++ upstreams r
  | integerFloatExprIterator l r _ => upstreams l ++ upstreams r
  | integerExprIterator l r _ => upstreams l ++ upstreams r
  | floatBooleanExprIterator l r _ => upstreams l ++ upstreams r
  | integerBooleanExprIterator l r _ => upstreams l ++ upstreams r
  end.

(** The node is a fill iterator / an interval iterator. *)
Definition isFillIterator (itr : Iterator) : bool :=
  match itr with FillIterator _ _ _ => true | _ => false end.

Definition isIntervalIterator (itr : Iterator) : bool :=
  match itr with IntervalIterator _ _ => true | _ => false end.

(** The iterator below the fill wrap, if there is one. *)
Definition under_fill (itr : Iterator) : Iterator :=
  match itr with FillIterator input _ _ => input | _ => itr end.

(** The call's iterator carries an interval wrap: directly, or right below
    the fill wrap that is applied after it. *)
Definition interval_wrapped (itr : Iterator) : bool :=
  isIntervalIterator (under_fill itr).

(* ================================================================== *)
(** ** Collaborators *)

(** An error value that a collaborator creates is known by its message; the
    planner hands it on as [ErrExternal]. It is never one of the error values
    the planner creates itself. *)
Definition ExternalError := string.

(** A collaborator that does not answer: with an error, or with a panic. *)
Inductive Refusal :=
| RefuseError (msg : ExternalError)
| RefusePanic (msg : string).

(** The storage behind an IteratorCreator: for the [n]-th iterator asked
    and the options of the request, an error or the type of the iterator
    handed out; and SeriesKeys. *)
Record Storage := {
  storage_CreateIterator : nat -> IteratorOptions -> ExternalError + DataType;
  storage_SeriesKeys : IteratorOptions -> ExternalError + SeriesList
}.

(** The two implementations of the IteratorCreator interface the planner
    meets: the one its caller supplies, and the aux iterator. *)
Inductive IteratorCreator :=
| StorageCreator (s : Storage)
| AuxCreator (aitr : Iterator).

(** The functions and constants of the package that these files call and do
    not define. *)
Record Helpers := {
  (** Reduce(expr, nil) *)
  Reduce : Expr -> Expr;
  ContainsVarRef : Expr -> bool;
  newSelectInfo : SelectStatement -> selectInfo;
  newIteratorOptionsStmt : SelectStatement -> SelectOptions -> ExternalError + IteratorOptions;
  (** opt.DerivativeInterval() *)
  DerivativeInterval : IteratorOptions -> Interval;
  (** the constants MinTime and MaxTime of the package *)
  minTime : int64;
  maxTime : int64;
  (** a constructor with an error result: the error, or the data type of
      the iterator it returns *)
  construct : Constructor -> Iterator -> IteratorOptions -> ExternalError + DataType;
  (** the data type of the handle aitr.Iterator(name) *)
  auxFieldType : Iterator -> string -> DataType;
  (** CreateIterator of the aux iterator on an expression that is not a
      VarRef *)
  auxCreateOther : Iterator -> IteratorOptions -> Refusal;
  (** SeriesKeys of the aux iterator *)
  auxSeriesKeys : Iterator -> IteratorOptions -> ExternalError + SeriesList
}.

(* ================================================================== *)
(** ** The world: the calls made to the collaborators *)

Inductive Event :=
| EvCreateIterator (id : nat)      (* the storage handed out iterator [id] *)
| EvClose (id : nat)               (* Close reached storage iterator [id] *)
| EvBackground                     (* aitr.Background() *)
| EvStart.                         (* aitr.Start() *)

(** [w_next] storage iterators have been handed out so far; [w_log] holds the
    events, the most recent one first. *)
Record World := { w_next : nat; w_log : list Event }.

Definition world0 : World := {| w_next := 0; w_log := [] |}.

Definition log_events (evs : list Event) (w : World) : World :=
  {| w_next := w_next w; w_log := evs ++ w_log w |}.

(** The storage iterators created so far. *)
Definition created (w : World) : list nat :=
  flat_map (fun e => match e with EvCreateIterator id => [id] | _ => [] end) (w_log w).

(** The storage iterators closed so far. *)
Definition closed (w : World) : list nat :=
  flat_map (fun e => match e with EvClose id => [id] | _ => [] end) (w_log w).

(** A storage iterator that was handed out and never closed. *)
Definition leaked (w : World) (id : nat) : Prop :=
  In id (created w) /\ ~ In id (closed w).

(** Computations: an outcome and the world after it. *)
Definition M (A : Type) : Type := World -> Outcome A * World.

Definition ret {A} (a : A) : M A := fun w => (Ok a, w).
Definition fail {A} (e : error) : M A := fun w => (Err e, w).
Definition panic {A} (p : PanicValue) : M A := fun w => (Panic p, w).

Definition bind {A B} (m : M A) (k : A -> M B) : M B :=
  fun w =>
    match m w with
    | (Ok a, w') => k a w'
    | (Err e, w') => (Err e, w')
    | (Panic p, w') => (Panic p, w')
    end.

Declare Scope go_scope.
Delimit Scope go_scope with go.
Notation "x <- m ;; k" := (bind m (fun x => k))
  (at level 100, m at next level, right associativity) : go_scope.
Notation "m ;;; k" := (bind m (fun _ => k))
  (at level 100, right associativity) : go_scope.

(** Lift an [(T, error)] result of a collaborator. *)
Definition lift {A} (r : ExternalError + A) : M A :=
  match r with inl msg => fail (ErrExternal msg) | inr a => ret a end.

Definition tell (evs : list Event) : M unit := fun w => (Ok tt, log_events evs w).

(** Modelled from the spec: the Close methods of the iterators are not part
    of these files. "Each iterator owns its direct upstreams and closes them
    transitively on Close": closing a node reaches every storage iterator
    below it. *)
Definition Close (itr : Iterator) : M unit :=
  tell (rev (map EvClose (upstreams itr))).

(** [Iterators(itrs).Close()] *)
Fixpoint Iterators_Close (itrs : list Iterator) : M unit :=
  match itrs with
  | [] => ret tt
  | itr :: rest => (Close itr ;;; Iterators_Close rest)%go
  end.

(** [Iterators(itrs).filterNonNil()] *)
Fixpoint filterNonNil (itrs : list (option Iterator)) : list Iterator :=
  match itrs with
  | [] => []
  | Some itr :: rest => itr :: filterNonNil rest
  | None :: rest => filterNonNil rest
  end.

(* ================================================================== *)
(** ** The closures of the transform iterators *)

(** The [fn] of floatTransformIterator in buildRHSTransformIterator and
    buildLHSTransformIterator; [f] is [fn(_, lit.Val)] or [fn(lit.Val, _)]. *)
Definition floatTransformFn (f : float64 -> float64) (p : option FloatPoint)
  : option FloatPoint :=
  match p with
  | None => None
  | Some p => if Nil p then Some p else Some (set_Value p (f (Value p)))
  end.

(** The [fn] of floatBoolTransformIterator. *)
Definition floatBoolTransformFn (f : float64 -> bool) (p : option FloatPoint)
  : option BooleanPoint :=
  match p with
  | None => None
  | Some p =>
      let bp := point_like p false in
      if Nil p then Some (set_Nil bp) else Some (set_Value bp (f (Value p)))
  end.

(** The [fn] of floatExprIterator and of integerExprIterator: the result is
    one of the operand points, updated in place. *)
Definition sameTypeExprFn {T} (zero : T) (fn : T -> T -> T) (a b : option (Point T))
  : Outcome (option (Point T)) :=
  match a, b with
  | Some a, Some b =>
      if negb (Nil a) && negb (Nil b) then Ok (Some (set_Value a (fn (Value a) (Value b))))
      else if Nil a then Ok (Some a)
      else Ok (Some b)
  | Some a, None => Ok (Some (set_Nil (set_Value a zero)))
  | None, Some b => Ok (Some (set_Nil (set_Value b zero)))
  | None, None => Panic PanicNilDereference       (* b.Value = 0 on a nil b *)
  end.

Definition floatExprFn := sameTypeExprFn float64_zero.
Definition integerExprFn := sameTypeExprFn (0 : int64).

(** The [fn] of integerFloatExprIterator, floatBooleanExprIterator and
    integerBooleanExprIterator: a new point is first filled from the fields
    of [a], then [a] and [b] are tested. *)
Definition freshPointExprFn {T R} (zero : R) (fn : T -> T -> R) (a b : option (Point T))
  : Outcome (option (Point R)) :=
  match a with
  | None => Panic PanicNilDereference             (* Name: a.Name on a nil a *)
  | Some a =>
      let p := point_like a zero in
      match b with
      | Some b =>
          if negb (Nil a) && negb (Nil b) then Ok (Some (set_Value p (fn (Value a) (Value b))))
          else Ok (Some (set_Nil p))
      | None => Ok (Some (set_Nil p))
      end
  end.

Definition integerFloatExprFn := @freshPointExprFn int64 float64 float64_zero.
Definition floatBooleanExprFn := @freshPointExprFn float64 bool false.
Definition integerBooleanExprFn := @freshPointExprFn int64 bool false.

(** The closure of a combining iterator, applied to two operand points of
    the iterator's input type; [None] when the node is not a combining
    iterator. The result is packed with its value type. *)
Inductive AnyPoint :=
| AnyFloat (p : FloatPoint)
| AnyInteger (p : IntegerPoint)
| AnyBoolean (p : BooleanPoint).

Definition pack {T} (inj : Point T -> AnyPoint) (o : Outcome (option (Point T)))
  : Outcome (option AnyPoint) :=
  match o with
  | Ok r => Ok (option_map inj r)
  | Err e => Err e
  | Panic p => Panic p
  end.

(** The combining iterators over float operands and over integer operands,
    each applied to operand points of its own input type. *)
Definition apply_float_fn (itr : Iterator) (a b : option FloatPoint)
  : option (Outcome (option AnyPoint)) :=
  match itr with
  | floatExprIterator _ _ fn => Some (pack AnyFloat (fn a b))
  | floatBooleanExprIterator _ _ fn => Some (pack AnyBoolean (fn a b))
  | _ => None
  end.

Definition apply_integer_fn (itr : Iterator) (a b : option IntegerPoint)
  : option (Outcome (option AnyPoint)) :=
  match itr with
  | integerFloatExprIterator _ _ fn => Some (pack AnyFloat (fn a b))
  | integerExprIterator _ _ fn => Some (pack AnyInteger (fn a b))
  | integerBooleanExprIterator _ _ fn => Some (pack AnyBoolean (fn a b))
  | _ => None
  end.

(* ================================================================== *)
(** ** The transform builders *)

(** The switch that turns an operand into a FloatIterator: a FloatIterator
    as it is, an IntegerIterator behind a cast. *)
Definition toFloatIterator (itr : Iterator) : option Iterator :=
  match iteratorDataType itr with
  | Float => Some itr
  | Integer => Some (integerFloatCastIterator itr)
  | _ => None
  end.

(** [itr.(IntegerIterator)] *)
Definition toIntegerIterator (itr : Iterator) : option Iterator :=
  match iteratorDataType itr with
  | Integer => Some itr
  | _ => None
  end.

Definition shownIterator (itr : Iterator) : Operand := OperandIterator (iteratorDataType itr).

Definition buildRHSTransformIterator (lhs : Iterator) (rhs : Expr) (op : Token)
  : Outcome Iterator :=
  match binaryExprFunc (iteratorDataType lhs) (literalDataType rhs) op with
  | FnFloatFloat fn =>
      match toFloatIterator lhs with
      | None => Err (ErrTypeMismatch "LHS" (shownIterator lhs) "FloatIterator")
      | Some input =>
          match rhs with
          | NumberLiteral lit =>
              Ok (floatTransformIterator input (floatTransformFn (fun v => fn v lit)))
          | _ => Err (ErrTypeMismatch "RHS" (shownIterator lhs) "NumberLiteral")
          end
      end
  | FnFloatBool fn =>
      match toFloatIterator lhs with
      | None => Err (ErrTypeMismatch "LHS" (shownIterator lhs) "FloatIterator")
      | Some input =>
          match rhs with
          | NumberLiteral lit =>
              Ok (floatBoolTransformIterator input (floatBoolTransformFn (fun v => fn v lit)))
          | _ => Err (ErrTypeMismatch "RHS" (shownIterator lhs) "NumberLiteral")
          end
      end
  | _ => Err (ErrTransform "rhs transform" (shownIterator lhs) (OperandLiteral rhs))
  end.

Definition buildLHSTransformIterator (lhs : Expr) (rhs : Iterator) (op : Token)
  : Outcome Iterator :=
  match binaryExprFunc (literalDataType lhs) (iteratorDataType rhs) op with
  | FnFloatFloat fn =>
      match toFloatIterator rhs with
      | None => Err (ErrTypeMismatch "RHS" (shownIterator rhs) "FloatIterator")
      | Some input =>
          match lhs with
          | NumberLiteral lit =>
              Ok (floatTransformIterator input (floatTransformFn (fun v => fn lit v)))
          | _ => Err (ErrTypeMismatch "LHS" (OperandLiteral lhs) "NumberLiteral")
          end
      end
  | FnFloatBool fn =>
      match toFloatIterator rhs with
      | None => Err (ErrTypeMismatch "RHS" (shownIterator rhs) "FloatIterator")
      | Some input =>
          match lhs with
          | NumberLiteral lit =>
              Ok (floatBoolTransformIterator input (floatBoolTransformFn (fun v => fn lit v)))
          | _ => Err (ErrTypeMismatch "LHS" (OperandLiteral lhs) "NumberLiteral")
          end
      end
  | _ => Err (ErrTransform "lhs transform" (OperandLiteral lhs) (shownIterator rhs))
  end.

(** The two operands as FloatIterators, LHS first. *)
Definition floatOperands (lhs rhs : Iterator) : Outcome (Iterator * Iterator) :=
  match toFloatIterator lhs with
  | None => Err (ErrTypeMismatch "LHS" (shownIterator lhs) "FloatIterator")
  | Some left_ =>
      match toFloatIterator rhs with
      | None => Err (ErrTypeMismatch "RHS" (shownIterator rhs) "FloatIterator")
      | Some right_ => Ok (left_, right_)
      end
  end.

(** The two operands as IntegerIterators; [side] is the side the message for
    a wrong right_ operand names. *)
Definition integerOperands (side : string) (lhs rhs : Iterator)
  : Outcome (Iterator * Iterator) :=
  match toIntegerIterator lhs with
  | None => Err (ErrTypeMismatch "LHS" (shownIterator lhs) "IntegerIterator")
  | Some left_ =>
      match toIntegerIterator rhs with
      | None => Err (ErrTypeMismatch side (shownIterator rhs) "IntegerIterator")
      | Some right_ => Ok (left_, right_)
      end
  end.

Definition buildTransformIterator (lhs rhs : Iterator) (op : Token) : Outcome Iterator :=
  match binaryExprFunc (iteratorDataType lhs) (iteratorDataType rhs) op with
  | FnFloatFloat fn =>
      match floatOperands lhs rhs with
      | Ok (left_, right_) =>
          Ok (floatExprIterator (newBufFloatIterator left_) (newBufFloatIterator right_)
                (floatExprFn fn))
      | Err e => Err e
      | Panic p => Panic p
      end
  | FnIntegerFloat fn =>
      match integerOperands "RHS" lhs rhs with
      | Ok (left_, right_) =>
          Ok (integerFloatExprIterator (newBufIntegerIterator left_)
                (newBufIntegerIterator right_) (integerFloatExprFn fn))
      | Err e => Err e
      | Panic p => Panic p
      end
  | FnIntegerInteger fn =>
      match integerOperands "RHS" lhs rhs with
      | Ok (left_, right_) =>
          Ok (integerExprIterator (newBufIntegerIterator left_)
                (newBufIntegerIterator right_) (integerExprFn fn))
      | Err e => Err e
      | Panic p => Panic p
      end
  | FnFloatBool fn =>
      match floatOperands lhs rhs with
      | Ok (left_, right_) =>
          Ok (floatBooleanExprIterator (newBufFloatIterator left_)
                (newBufFloatIterator right_) (floatBooleanExprFn fn))
      | Err e => Err e
      | Panic p => Panic p
      end
  | FnIntegerBool fn =>
      match integerOperands "LHS" lhs rhs with
      | Ok (left_, right_) =>
          Ok (integerBooleanExprIterator (newBufIntegerIterator left_)
                (newBufIntegerIterator right_) (integerBooleanExprFn fn))
      | Err e => Err e
      | Panic p => Panic p
      end
  | FnNil => Err (ErrTransform "transform" (shownIterator lhs) (shownIterator rhs))
  end.

(* ================================================================== *)
(** ** Slices *)

(** [l[i] = x] for an index in range. *)
Fixpoint store {A} (i : nat) (x : A) (l : list A) : list A :=
  match l, i with
  | [], _ => []
  | _ :: rest, O => x :: rest
  | y :: rest, S i => y :: store i x rest
  end.

(** [args[1 : len(args)-1]]: the arguments strictly between the first and
    the last. *)
Definition interior (args : list Expr) : list Expr := removelast (tl args).

(** [args[len(args)-1]] *)
Definition lastArg (args : list Expr) : option Expr :=
  nth_error args (List.length args - 1)%nat.

(** The index of the first element of [aux] equal to [name], counting
    from [index]. *)
Fixpoint indexOf (name : string) (aux : list string) (index : nat) : option nat :=
  match aux with
  | [] => None
  | a :: rest => if String.eqb a name then Some index else indexOf name rest (S index)
  end.

(** The loop of the top and bottom cases over the interior arguments: each
    must be a VarRef, and the position of its name in opt.Aux, when it has
    one, is appended to [tags]. *)
Fixpoint tagIndices (args : list Expr) (aux : list string) : Outcome (list nat) :=
  match args with
  | [] => Ok []
  | VarRef name _ :: rest =>
      match tagIndices rest aux with
      | Ok tags =>
          Ok (match indexOf name aux 0 with Some i => i :: tags | None => tags end)
      | other => other
      end
  | _ :: _ => Panic PanicTypeAssertion
  end.

(** [sort.Strings] *)
Fixpoint insert_sorted (s : string) (l : list string) : list string :=
  match l with
  | [] => [s]
  | x :: rest => if String.leb s x then s :: l else x :: insert_sorted s rest
  end.

Definition sort_Strings (l : list string) : list string :=
  fold_right insert_sorted [] l.

(* ================================================================== *)
(** ** The planner *)

Section Planner.

Variable H : Helpers.

(** [aitr.Iterator(name)] *)
Definition aux_Iterator (aitr : Iterator) (name : string) : Iterator :=
  AuxFieldIterator name (auxFieldType H aitr name).

(** [ic.CreateIterator(opt)]. The storage either fails or hands out a new
    iterator, which is logged. Modelled from the spec: CreateIterator of the
    aux iterator is not part of these files; "VarRefs resolve to aux-handle
    iterators", and any other expression is left to [auxCreateOther]. *)
Definition CreateIterator (ic : IteratorCreator) (opt : IteratorOptions) : M Iterator :=
  match ic with
  | StorageCreator s =>
      fun w =>
        match storage_CreateIterator s (w_next w) opt with
        | inl msg => (Err (ErrExternal msg), w)
        | inr typ =>
            (Ok (StorageIterator (w_next w) typ opt),
             {| w_next := S (w_next w);
                w_log := EvCreateIterator (w_next w) :: w_log w |})
        end
  | AuxCreator aitr =>
      match opt_Expr opt with
      | Some (VarRef name _) => ret (aux_Iterator aitr name)
      | _ =>
          match auxCreateOther H aitr opt with
          | RefuseError msg => fail (ErrExternal msg)
          | RefusePanic msg => panic (PanicCollaborator msg)
          end
      end
  end.

(** [ic.SeriesKeys(opt)] *)
Definition SeriesKeys (ic : IteratorCreator) (opt : IteratorOptions) : M SeriesList :=
  match ic with
  | StorageCreator s => lift (storage_SeriesKeys s opt)
  | AuxCreator aitr => lift (auxSeriesKeys H aitr opt)
  end.

(** A call to one of the constructors with an error result. *)
Definition constructed (c : Constructor) (input : Iterator) (opt : IteratorOptions)
  : M Iterator :=
  match construct H c input opt with
  | inl msg => fail (ErrExternal msg)
  | inr typ => ret (ConstructedIterator c input opt typ)
  end.

Definition liftOutcome {A} (o : Outcome A) : M A := fun w => (o, w).

(** The two wraps at the end of the default case of a call. *)
Definition intervalWrap (name : string) (opt : IteratorOptions) (itr : Iterator) : Iterator :=
  if negb (String.eqb name "top") && negb (String.eqb name "bottom")
  then NewIntervalIterator itr opt else itr.

Definition fillWrap (expr : Expr) (opt : IteratorOptions) (itr : Iterator) : Iterator :=
  if negb (IsZero (opt_Interval opt)) && negb (FillOption_eqb (opt_Fill opt) NoFill)
  then NewFillIterator itr expr opt else itr.

(** buildExprIterator creates an iterator for an expression. *)
Fixpoint buildExprIterator (expr : Expr) (ic : IteratorCreator) (opt : IteratorOptions)
  {struct expr} : M Iterator :=
  let opt := with_Expr opt expr in
  match expr with
  | VarRef _ _ => CreateIterator ic opt
  | Call name args =>
      if String.eqb name "distinct" then
        match args with
        | [] => panic PanicIndexOutOfRange
        | VarRef _ _ as arg :: _ =>
            (input <- buildExprIterator arg ic opt ;;
             input <- constructed NewDistinctIterator input opt ;;
             ret (NewIntervalIterator input opt))%go
        | _ :: _ => panic PanicTypeAssertion
        end
      else if (String.eqb name "derivative") || (String.eqb name "non_negative_derivative") then
        match args with
        | [] => panic PanicIndexOutOfRange
        | arg :: _ =>
            (input <- buildExprIterator arg ic opt ;;
             let interval := DerivativeInterval H opt in
             let isNonNegative := String.eqb name "non_negative_derivative" in
             let opt := clear_window opt (minTime H) (maxTime H) in
             constructed (newDerivativeIterator interval isNonNegative) input opt)%go
        end
      else
        let fromVarRef (c : Constructor) : M Iterator :=
          match args with
          | [] => panic PanicIndexOutOfRange
          | VarRef _ _ as arg :: _ =>
              (input <- buildExprIterator arg ic opt ;; constructed c input opt)%go
          | _ :: _ => panic PanicTypeAssertion
          end in
        let selector (tooFew : nat -> error) (c : float64 -> list nat -> Constructor)
          : M Iterator :=
          if (List.length args <? 2)%nat then fail (tooFew (List.length args))
          else
            (tags <- liftOutcome (tagIndices (interior args) (opt_Aux opt)) ;;
             match args with
             | [] => panic PanicIndexOutOfRange
             | VarRef _ _ as arg :: _ =>
                 input <- buildExprIterator arg ic opt ;;
                 match lastArg args with
                 | Some (NumberLiteral n) => constructed (c n tags) input opt
                 | _ => panic PanicTypeAssertion
                 end
             | _ :: _ => panic PanicTypeAssertion
             end)%go in
        (itr <-
           (if String.eqb name "count" then
              match args with
              | [] => panic PanicIndexOutOfRange
              | Call argName _ as arg :: _ =>
                  if String.eqb argName "distinct" then
                    (input <- buildExprIterator arg ic opt ;;
                     constructed newCountIterator input opt)%go
                  else CreateIterator ic opt
              | _ :: _ => CreateIterator ic opt
              end
            else if (String.eqb name "min") || (String.eqb name "max") || (String.eqb name "sum")
                    || (String.eqb name "first") || (String.eqb name "last") || (String.eqb name "mean")
            then CreateIterator ic opt
            else if String.eqb name "median" then fromVarRef newMedianIterator
            else if String.eqb name "stddev" then fromVarRef newStddevIterator
            else if String.eqb name "spread" then fromVarRef newSpreadIterator
            else if String.eqb name "top" then selector ErrTopArguments newTopIterator
            else if String.eqb name "bottom" then selector ErrBottomArguments newBottomIterator
            else if String.eqb name "percentile" then
              match args with
              | [] => panic PanicIndexOutOfRange
              | VarRef _ _ as arg :: rest =>
                  input <- buildExprIterator arg ic opt ;;
                  match rest with
                  | [] => panic PanicIndexOutOfRange
                  | NumberLiteral percentile :: _ =>
                      constructed (newPercentileIterator percentile) input opt
                  | _ :: _ => panic PanicTypeAssertion
                  end
              | _ :: _ => panic PanicTypeAssertion
              end
            else fail (ErrUnsupportedCall name)) ;;
         ret (fillWrap expr opt (intervalWrap name opt itr)))%go
  | BinaryExpr op lhs rhs =>
      if isLiteral rhs then
        if isLiteral lhs then fail (ErrTwoLiterals lhs rhs)
        else
          (lhsItr <- buildExprIterator lhs ic opt ;;
           liftOutcome (buildRHSTransformIterator lhsItr rhs op))%go
      else if isLiteral lhs then
        (rhsItr <- buildExprIterator rhs ic opt ;;
         liftOutcome (buildLHSTransformIterator lhs rhsItr op))%go
      else
        (lhsItr <- buildExprIterator lhs ic opt ;;
         rhsItr <- buildExprIterator rhs ic opt ;;
         liftOutcome (buildTransformIterator lhsItr rhsItr op))%go
  | ParenExpr inner => buildExprIterator inner ic opt
  | _ => fail (ErrInvalidExpressionType expr)
  end.

(** The loop of buildAuxIterators over the fields, from the first one. *)
Fixpoint auxFieldLoop (fields : Fields) (aitr : Iterator) (opt : IteratorOptions)
  : M (list Iterator) :=
  match fields with
  | [] => ret []
  | f :: rest =>
      (itr <-
         match Reduce H (field_Expr f) with
         | VarRef name _ => ret (aux_Iterator aitr name)
         | BinaryExpr _ _ _ as expr =>
             fun w =>
               match buildExprIterator expr (AuxCreator aitr) opt w with
               | (Err err, w') => (Err (ErrFieldIterator f err), w')
               | other => other
               end
         | _ => panic PanicUnreachable
         end ;;
       itrs <- auxFieldLoop rest aitr opt ;;
       ret (itr :: itrs))%go
  end.

(** buildAuxIterators creates a set of iterators from a single combined
    auxilary iterator. *)
Definition buildAuxIterators (fields : Fields) (ic : IteratorCreator)
  (opt : IteratorOptions) : M (list Iterator) :=
  (input <- CreateIterator ic opt ;;
   let input := if opt_Dedupe opt then NewDedupeIterator input else input in
   let input :=
     if (opt_Limit opt >? 0) || (opt_Offset opt >? 0)
     then NewLimitIterator input opt else input in
   fun w =>
     match SeriesKeys ic opt w with
     | (Err err, w') => (Err err, snd (Close input w'))
     | (Panic p, w') => (Panic p, w')
     | (Ok seriesKeys, w') =>
         let aitr := NewAuxIterator input seriesKeys opt in
         (itrs <- auxFieldLoop fields aitr opt ;;
          tell [EvBackground] ;;;
          ret itrs) w'
     end)%go.

(** The variables the closure of buildFieldIterators works on: the slice
    [itrs] with its nil entries, [hasAuxFields] and [input]. *)
Record FieldState := {
  fs_itrs : list (option Iterator);
  fs_hasAuxFields : bool;
  fs_input : option Iterator
}.

(** The first loop of the closure, at field [i]. *)
Fixpoint firstPass (fields : Fields) (i : nat) (ic : IteratorCreator)
  (opt : IteratorOptions) (st : FieldState) (w : World)
  : Outcome unit * FieldState * World :=
  match fields with
  | [] => (Ok tt, st, w)
  | f :: rest =>
      if ContainsVarRef H (field_Expr f) then
        firstPass rest (S i) ic opt
          {| fs_itrs := fs_itrs st; fs_hasAuxFields := true; fs_input := fs_input st |} w
      else
        let expr := Reduce H (field_Expr f) in
        match buildExprIterator expr ic opt w with
        | (Ok itr, w') =>
            firstPass rest (S i) ic opt
              {| fs_itrs := store i (Some itr) (fs_itrs st);
                 fs_hasAuxFields := fs_hasAuxFields st;
                 fs_input := Some itr |} w'
        | (Err err, w') => (Err err, st, w')
        | (Panic p, w') => (Panic p, st, w')
        end
  end.

(** The second loop of the closure, at field [i]. *)
Fixpoint secondPass (fields : Fields) (i : nat) (aitr : Iterator)
  (opt : IteratorOptions) (itrs : list (option Iterator)) (w : World)
  : Outcome unit * list (option Iterator) * World :=
  match fields with
  | [] => (Ok tt, itrs, w)
  | f :: rest =>
      match nth i itrs None with
      | Some _ => secondPass rest (S i) aitr opt (store i (Some aitr) itrs) w
      | None =>
          let expr := Reduce H (field_Expr f) in
          match buildExprIterator expr (AuxCreator aitr) opt w with
          | (Ok itr, w') => secondPass rest (S i) aitr opt (store i (Some itr) itrs) w'
          | (Err err, w') => (Err err, itrs, w')
          | (Panic p, w') => (Panic p, itrs, w')
          end
      end
  end.

(** The closure [func() error] of buildFieldIterators: its result, the
    slice [itrs] as it leaves it, and the world. *)
Definition fieldClosure (fields : Fields) (ic : IteratorCreator) (opt : IteratorOptions)
  (w : World) : Outcome unit * list (option Iterator) * World :=
  let st0 := {| fs_itrs := repeat None (List.length fields);
                fs_hasAuxFields := false; fs_input := None |} in
  match firstPass fields 0 ic opt st0 w with
  | (Ok _, st, w1) =>
      match fs_input st with
      | None => (Ok tt, fs_itrs st, w1)
      | Some input =>
          if negb (fs_hasAuxFields st) then (Ok tt, fs_itrs st, w1)
          else
            match SeriesKeys ic opt w1 with
            | (Ok seriesKeys, w2) =>
                let aitr := NewAuxIterator input seriesKeys opt in
                match secondPass fields 0 aitr opt (fs_itrs st) w2 with
                | (Ok _, itrs, w3) => (Ok tt, itrs, log_events [EvStart] w3)
                | other => other
                end
            | (Err err, w2) => (Err err, fs_itrs st, w2)
            | (Panic p, w2) => (Panic p, fs_itrs st, w2)
            end
      end
  | (Err err, st, w1) => (Err err, fs_itrs st, w1)
  | (Panic p, st, w1) => (Panic p, fs_itrs st, w1)
  end.

(** [NewLimitIterator(itrs[i], opt)] on a slot of the slice, nil or not. *)
Definition limitSlot (opt : IteratorOptions) (slot : option Iterator) : option Iterator :=
  match slot with
  | Some itr => Some (NewLimitIterator itr opt)
  | None => Some (LimitIteratorOfNil opt)
  end.

(** buildFieldIterators creates an iterator for each field expression. An
    entry of the result is [None] where the slice still holds nil; with a
    limit or an offset NewLimitIterator is applied to every slot of the
    slice, the nil ones included. *)
Definition buildFieldIterators (fields : Fields) (ic : IteratorCreator)
  (opt : IteratorOptions) : M (list (option Iterator)) :=
  fun w =>
    match fieldClosure fields ic opt w with
    | (Err err, itrs, w') => (Err err, snd (Iterators_Close (filterNonNil itrs) w'))
    | (Panic p, _, w') => (Panic p, w')
    | (Ok _, itrs, w') =>
        if (opt_Limit opt >? 0) || (opt_Offset opt >? 0)
        then (Ok (map (limitSlot opt) itrs), w')
        else (Ok itrs, w')
    end.

Definition isTopOrBottom (name : string) : bool :=
  String.eqb name "top" || String.eqb name "bottom".

(** The assertion that each interior argument is a VarRef: their names. *)
Fixpoint refNames (args : list Expr) : Outcome (list string) :=
  match args with
  | [] => Ok []
  | VarRef name _ :: rest =>
      match refNames rest with
      | Ok names => Ok (name :: names)
      | other => other
      end
  | _ :: _ => Panic PanicTypeAssertion
  end.

(** The names that top() and bottom() calls add to opt.Aux, the calls taken
    in the order of the list. (Go ranges over a map here: with several such
    calls the order of the names is not fixed by the code.) *)
Fixpoint extraAux (cs : list (string * list Expr)) : Outcome (list string) :=
  match cs with
  | [] => Ok []
  | (name, args) :: rest =>
      if isTopOrBottom name then
        match refNames (interior args) with
        | Ok names =>
            match extraAux rest with
            | Ok more => Ok (names ++ more)%list
            | other => other
            end
        | other => other
        end
      else extraAux rest
  end.

(** The rebuilt list of fields: each field, followed by one field per
    interior argument when it is a top() or bottom() call. *)
Fixpoint withExtraFields (fields : Fields) : Fields :=
  match fields with
  | [] => []
  | f :: rest =>
      match field_Expr f with
      | Call name args =>
          if isTopOrBottom name
          then (f :: map mkField (interior args) ++ withExtraFields rest)%list
          else f :: withExtraFields rest
      | _ => f :: withExtraFields rest
      end
  end.

(** Select executes stmt against ic and returns a list of iterators to
    stream from. *)
Definition Select (stmt : SelectStatement) (ic : IteratorCreator) (sopt : SelectOptions)
  : M (list (option Iterator)) :=
  match newIteratorOptionsStmt H stmt sopt with
  | inl msg => fail (ErrExternal msg)
  | inr opt =>
      let info := newSelectInfo H stmt in
      if (1 <? List.length (calls info))%nat && (0 <? List.length (refs info))%nat
      then fail ErrMultipleAggregates
      else
        let opt := with_Aux opt (sort_Strings (map fst (refs info))) in
        if (List.length (calls info) =? 0)%nat && (0 <? List.length (refs info))%nat
        then (itrs <- buildAuxIterators (stmt_Fields stmt) ic opt ;; ret (map Some itrs))%go
        else
          (extra <- liftOutcome (extraAux (calls info)) ;;
           let opt := with_Aux opt (opt_Aux opt ++ extra)%list in
           let fields :=
             if (0 <? List.length extra)%nat
             then withExtraFields (stmt_Fields stmt) else stmt_Fields stmt in
           buildFieldIterators fields ic opt)%go
  end.

End Planner.

(* ================================================================== *)
(** ** The storage tables (table.gen.go.tmpl)

    The template is instantiated once per value type; [T] is that type. A
    table is followed through [Close] and [Statistics] only: the fields they
    read or write, and the log of the Close calls that reach the cursors. *)

Module Table.

(** cursors.CursorStats and flux.Statistics *)
Record CursorStats := { cs_ScannedValues : Z; cs_ScannedBytes : Z }.

Record flux_Statistics := { ScannedValues : Z; ScannedBytes : Z }.

(** [flux.Statistics{}] *)
Definition zeroStatistics : flux_Statistics := {| ScannedValues := 0; ScannedBytes := 0 |}.

(** A typed array cursor: its identity and what its Stats() answers. *)
Record ArrayCursor := { cur_id : nat; cur_Stats : CursorStats }.

(** A group cursor: its identity. *)
Record GroupCursor := { gc_id : nat }.

(** A call made to a collaborator. *)
Inductive Effect :=
| CursorClose (id : nat)
| GroupCursorClose (id : nat).

Section Tables.

Variable T : Type.

(** {{.name}}Table. [mu] is true while the mutex is held; [calls] logs the
    calls made so far, the most recent one first. *)
Record table := {
  valBuf : list T;
  mu : bool;
  cur : option ArrayCursor;
  calls : list Effect
}.

(** {{.name}}GroupTable *)
Record groupTable := {
  g_valBuf : list T;
  g_mu : bool;
  g_gc : option GroupCursor;
  g_cur : option ArrayCursor;
  g_calls : list Effect
}.

(** [t.mu.Lock()] returns once the mutex is free; in a sequential run a
    caller that finds it held never returns, which is [None]. *)
Definition Lock (t : table) : option table :=
  if mu t then None
  else Some {| valBuf := valBuf t; mu := true; cur := cur t; calls := calls t |}.

Definition Unlock (t : table) : table :=
  {| valBuf := valBuf t; mu := false; cur := cur t; calls := calls t |}.

Definition Close (t : table) : option table :=
  match Lock t with
  | None => None
  | Some t =>
      let t :=
        match cur t with
        | Some c =>
            {| valBuf := valBuf t; mu := mu t; cur := None;
               calls := CursorClose (cur_id c) :: calls t |}
        | None => t
        end in
      Some (Unlock t)
  end.

Definition Statistics (t : table) : option (flux_Statistics * table) :=
  match Lock t with
  | None => None
  | Some t =>
      match cur t with
      | None => Some (zeroStatistics, Unlock t)
      | Some c =>
          let cs := cur_Stats c in
          Some ({| ScannedValues := cs_ScannedValues cs;
                   ScannedBytes := cs_ScannedBytes cs |}, Unlock t)
      end
  end.

Definition g_Lock (t : groupTable) : option groupTable :=
  if g_mu t then None
  else Some {| g_valBuf := g_valBuf t; g_mu := true; g_gc := g_gc t;
               g_cur := g_cur t; g_calls := g_calls t |}.

Definition g_Unlock (t : groupTable) : groupTable :=
  {| g_valBuf := g_valBuf t; g_mu := false; g_gc := g_gc t;
     g_cur := g_cur t; g_calls := g_calls t |}.

Definition GroupClose (t : groupTable) : option groupTable :=
  match g_Lock t with
  | None => None
  | Some t =>
      let t :=
        match g_cur t with
        | Some c =>
            {| g_valBuf := g_valBuf t; g_mu := g_mu t; g_gc := g_gc t; g_cur := None;
               g_calls := CursorClose (cur_id c) :: g_calls t |}
        | None => t
        end in
      let t :=
        match g_gc t with
        | Some gc =>
            {| g_valBuf := g_valBuf t; g_mu := g_mu t; g_gc := None; g_cur := g_cur t;
               g_calls := GroupCursorClose (gc_id gc) :: g_calls t |}
        | None => t
        end in
      Some (g_Unlock t)
  end.

(** Statistics of the group table takes no lock. *)
Definition GroupStatistics (t : groupTable) : flux_Statistics :=
  match g_cur t with
  | None => zeroStatistics
  | Some c =>
      let cs := cur_Stats c in
      {| ScannedValues := cs_ScannedValues cs; ScannedBytes := cs_ScannedBytes cs |}
  end.

End Tables.

Arguments valBuf {T} _.
Arguments mu {T} _.
Arguments cur {T} _.
Arguments calls {T} _.
Arguments g_valBuf {T} _.
Arguments g_mu {T} _.
Arguments g_gc {T} _.
Arguments g_cur {T} _.
Arguments g_calls {T} _.
Arguments Close {T} _.
Arguments Statistics {T} _.
Arguments GroupClose {T} _.
Arguments GroupStatistics {T} _.

(** A float table that is open on cursor 7, and a group table open on
    cursor 7 of group cursor 3. *)
Definition exampleTable : table float64 :=
  {| valBuf := [1%float]; mu := false;
     cur := Some {| cur_id := 7;
                    cur_Stats := {| cs_ScannedValues := 12; cs_ScannedBytes := 96 |} |};
     calls := [] |}.

Definition exampleGroupTable : groupTable float64 :=
  {| g_valBuf := [1%float]; g_mu := false;
     g_gc := Some {| gc_id := 3 |};
     g_cur := Some {| cur_id := 7;
                      cur_Stats := {| cs_ScannedValues := 12; cs_ScannedBytes := 96 |} |};
     g_calls := [] |}.

End Table.

(* ================================================================== *)
(** ** The collaborators, modelled

    The functions below stand for code of the package that is not among the
    files embedded here. They are used to run the planner on concrete
    statements; the general theorems quantify over every [Helpers]. *)

Module Modelled.

(** Modelled from the spec: Reduce is not part of these files. "Helper
    Reduce(expr, valuer) folds constants": an arithmetic operator between two
    number literals is replaced by its value, inside binary and parenthesised
    expressions; every other node is returned as it is. *)
Fixpoint Reduce (e : Expr) : Expr :=
  match e with
  | BinaryExpr op lhs rhs =>
      match Reduce lhs, Reduce rhs with
      | NumberLiteral a, NumberLiteral b =>
          match op with
          | ADD => NumberLiteral (FloatOp.add a b)
          | SUB => NumberLiteral (FloatOp.sub a b)
          | MUL => NumberLiteral (FloatOp.mul a b)
          | DIV => NumberLiteral (FloatOp.div a b)
          | _ => BinaryExpr op (NumberLiteral a) (NumberLiteral b)
          end
      | lhs', rhs' => BinaryExpr op lhs' rhs'
      end
  | ParenExpr inner => ParenExpr (Reduce inner)
  | _ => e
  end.

(** Modelled from the spec: ContainsVarRef is not part of these files. A
    field "contains any VarRef" when a raw reference occurs in it outside the
    arguments of a call (a call with its arguments is built as one
    iterator). *)
Fixpoint ContainsVarRef (e : Expr) : bool :=
  match e with
  | VarRef _ _ => true
  | BinaryExpr _ lhs rhs => ContainsVarRef lhs || ContainsVarRef rhs
  | ParenExpr inner => ContainsVarRef inner
  | _ => false
  end.

(** Modelled from the spec: newSelectInfo is not part of these files. "Walk
    the projection to collect two sets: calls (aggregate/selector function
    references) and refs (raw field references)". *)
Fixpoint exprCalls (e : Expr) : list (string * list Expr) :=
  match e with
  | Call name args => [(name, args)]
  | BinaryExpr _ lhs rhs => exprCalls lhs ++ exprCalls rhs
  | ParenExpr inner => exprCalls inner
  | _ => []
  end.

Fixpoint exprRefs (e : Expr) : list (string * DataType) :=
  match e with
  | VarRef name typ => [(name, typ)]
  | BinaryExpr _ lhs rhs => exprRefs lhs ++ exprRefs rhs
  | ParenExpr inner => exprRefs inner
  | _ => []
  end.

Definition newSelectInfo (stmt : SelectStatement) : selectInfo :=
  {| calls := flat_map (fun f => exprCalls (field_Expr f)) (stmt_Fields stmt);
     refs := flat_map (fun f => exprRefs (field_Expr f)) (stmt_Fields stmt) |}.

(** Modelled from the spec: newIteratorOptionsStmt is not part of these
    files. "Resolve time range by intersecting statement WHERE time
    constraints with SelectOptions bounds; populate Dimensions, Interval,
    Fill, Limit/Offset, Ascending". *)
Definition newIteratorOptionsStmt (stmt : SelectStatement) (sopt : SelectOptions)
  : ExternalError + IteratorOptions :=
  inr {| opt_Expr := None; opt_Aux := []; opt_Sources := stmt_Sources stmt;
         opt_Interval := stmt_Interval stmt; opt_Dimensions := stmt_Dimensions stmt;
         opt_Fill := stmt_Fill stmt; opt_FillValue := stmt_FillValue stmt;
         opt_Condition := stmt_Condition stmt;
         opt_StartTime := Z.max (stmt_TimeMin stmt) (MinTime sopt);
         opt_EndTime := Z.min (stmt_TimeMax stmt) (MaxTime sopt);
         opt_Ascending := stmt_Ascending stmt;
         opt_Limit := stmt_Limit stmt; opt_Offset := stmt_Offset stmt;
         opt_SLimit := stmt_SLimit stmt; opt_SOffset := stmt_SOffset stmt;
         opt_Dedupe := stmt_Dedupe stmt |}.

(** Modelled from the spec: DerivativeInterval is not part of these files.
    The derivative iterator is built "with configured interval": the GROUP BY
    interval when there is one, one second otherwise. *)
Definition DerivativeInterval (opt : IteratorOptions) : Interval :=
  if Duration (opt_Interval opt) >? 0
  then {| Duration := Duration (opt_Interval opt); Offset_ := 0 |}
  else {| Duration := 1000000000; Offset_ := 0 |}.

(** The float64 holds a whole number. *)
Definition isWhole (n : float64) : bool :=
  match Prim2SF n with
  | S754_zero _ => true
  | S754_finite _ m e => (0 <=? e) || (Z.land (Z.pos m) (Z.ones (- e)) =? 0)
  | _ => false
  end.

(** "Last arg is an integer literal N >= 1" *)
Definition validN (n : float64) : bool := isWhole n && (1 <=? n)%float.

(** The validation error of top and bottom. *)
Definition invalidN (name : string) : ExternalError :=
  name ++ "(): the last argument must be an integer literal N >= 1".

(** Modelled from the spec: the constructors with an error result are not
    part of these files. The catalogue of aggregates gives each of them a
    build rule; a count yields integers and every other iterator yields
    values of its input's type. For top and bottom "Last arg is an integer
    literal N >= 1" and "top(x, 0) -> empty stream (if accepted) or
    validation error; specify validation error": newTopIterator and
    newBottomIterator return a validation error unless N is a whole number
    and at least 1. The other constructors accept every input. *)
Definition construct (c : Constructor) (input : Iterator) (opt : IteratorOptions)
  : ExternalError + DataType :=
  match c with
  | newCountIterator => inr Integer
  | newTopIterator n _ => if validN n then inr (iteratorDataType input) else inl (invalidN "top")
  | newBottomIterator n _ =>
      if validN n then inr (iteratorDataType input) else inl (invalidN "bottom")
  | _ => inr (iteratorDataType input)
  end.

(** Modelled from the spec: the aux iterator is not part of these files.
    Each handle has "the upstream's type for that field", given here by the
    schema [fieldType]; on an expression that is not a VarRef its
    CreateIterator stops with a panic; it lists no series of its own. *)
Definition helpers (fieldType : string -> DataType) : Helpers :=
  Build_Helpers
    Reduce ContainsVarRef newSelectInfo newIteratorOptionsStmt DerivativeInterval
    int64_min int64_max
    construct
    (fun _ name => fieldType name)
    (fun _ _ => RefusePanic "invalid expression type for an aux iterator")
    (fun _ _ => inr []).

End Modelled.

(* ================================================================== *)
(** ** Concrete inputs *)

Module Examples.

(** A schema: the field [v] holds floats, [n] and [m] integers, [s]
    strings. *)
Definition fieldType (name : string) : DataType :=
  if String.eqb name "v" then Float
  else if String.eqb name "n" then Integer
  else if String.eqb name "m" then Integer
  else if String.eqb name "s" then String
  else Unknown.

Definition H : Helpers := Modelled.helpers fieldType.

(** A storage that serves every request: a reference is served with the
    type of the schema, a pushed-down call with floats; one series. *)
Definition storage : Storage :=
  {| storage_CreateIterator := fun _ opt =>
       match opt_Expr opt with
       | Some (VarRef name _) => inr (fieldType name)
       | _ => inr Float
       end;
     storage_SeriesKeys := fun _ => inr [("m", [("host", "a")])] |}.

(** A storage that serves the first request and fails on every later one. *)
Definition storageFailingAfterFirst : Storage :=
  {| storage_CreateIterator := fun n opt =>
       match n with
       | O => inr Float
       | S _ => inl "shard unavailable"
       end;
     storage_SeriesKeys := fun _ => inr [("m", [])] |}.

Definition ic : IteratorCreator := StorageCreator storage.

(** Options with a GROUP BY interval of ten nanoseconds and the default
    fill policy, and the same options without interval. *)
Definition optInterval : IteratorOptions :=
  {| opt_Expr := None; opt_Aux := []; opt_Sources := ["m"];
     opt_Interval := {| Duration := 10; Offset_ := 0 |}; opt_Dimensions := [];
     opt_Fill := NullFill; opt_FillValue := 0%float; opt_Condition := None;
     opt_StartTime := 0; opt_EndTime := 19; opt_Ascending := true;
     opt_Limit := 0; opt_Offset := 0; opt_SLimit := 0; opt_SOffset := 0;
     opt_Dedupe := false |}.

Definition optRaw : IteratorOptions :=
  {| opt_Expr := None; opt_Aux := []; opt_Sources := ["m"];
     opt_Interval := zeroInterval; opt_Dimensions := [];
     opt_Fill := NullFill; opt_FillValue := 0%float; opt_Condition := None;
     opt_StartTime := 0; opt_EndTime := 19; opt_Ascending := true;
     opt_Limit := 0; opt_Offset := 0; opt_SLimit := 0; opt_SOffset := 0;
     opt_Dedupe := false |}.

Definition sopt : SelectOptions := {| MinTime := int64_min; MaxTime := int64_max |}.

(** SELECT <fields> FROM m *)
Definition select (fields : list Expr) : SelectStatement :=
  {| stmt_Fields := map mkField fields; stmt_Sources := ["m"];
     stmt_Dimensions := []; stmt_Interval := zeroInterval; stmt_Condition := None;
     stmt_TimeMin := int64_min; stmt_TimeMax := int64_max;
     stmt_Fill := NullFill; stmt_FillValue := 0%float; stmt_Ascending := true;
     stmt_Limit := 0; stmt_Offset := 0; stmt_SLimit := 0; stmt_SOffset := 0;
     stmt_Dedupe := false |}.

Definition v : Expr := VarRef "v" Float.
Definition n : Expr := VarRef "n" Integer.
Definition s : Expr := VarRef "s" String.

(** SELECT v, 5 FROM m *)
Definition select_v_5 : SelectStatement := select [v; NumberLiteral 5%float].

(** SELECT v, s + 1 FROM m: the second field adds a number to a string
    field. *)
Definition select_v_s1 : SelectStatement :=
  select [v; BinaryExpr ADD s (NumberLiteral 1%float)].

(** SELECT sum(v), mean(v), v FROM m *)
Definition select_two_calls_one_ref : SelectStatement :=
  select [Call "sum" [v]; Call "mean" [v]; v].

(** SELECT mean(v), v FROM m *)
Definition select_call_and_ref : SelectStatement := select [Call "mean" [v]; v].

(** SELECT sum(v), mean(v) FROM m *)
Definition select_two_calls : SelectStatement := select [Call "sum" [v]; Call "mean" [v]].

(** Two integer iterators and two float iterators of the storage. *)
Definition integerItr (id : nat) : Iterator := StorageIterator id Integer optRaw.
Definition floatItr (id : nat) : Iterator := StorageIterator id Float optRaw.

Definition floatPoint (value : float64) (isNil : bool) : FloatPoint :=
  {| Name := "m"; Tags := [("host", "a")]; Time := 1; Value := value;
     Nil := isNil; Aux := [] |}.

Definition integerPoint (value : int64) (isNil : bool) : IntegerPoint :=
  {| Name := "m"; Tags := [("host", "a")]; Time := 1; Value := value;
     Nil := isNil; Aux := [] |}.

End Examples.


(* ================================================================== *)
(** ** The names that leave the default case of a call *)

Definition isDistinct (name : string) : bool := String.eqb name "distinct".

Definition isDerivative (name : string) : bool :=
  String.eqb name "derivative" || String.eqb name "non_negative_derivative".

(* ================================================================== *)
(** ** Induction on expressions *)

Section ExprInduction.

Variable P : Expr -> Prop.

Hypothesis P_VarRef : forall name typ, P (VarRef name typ).
Hypothesis P_Call : forall name args, Forall P args -> P (Call name args).
Hypothesis P_BinaryExpr : forall op lhs rhs, P lhs -> P rhs -> P (BinaryExpr op lhs rhs).
Hypothesis P_ParenExpr : forall inner, P inner -> P (ParenExpr inner).
Hypothesis P_NumberLiteral : forall val, P (NumberLiteral val).
Hypothesis P_IntegerLiteral : forall val, P (IntegerLiteral val).
Hypothesis P_StringLiteral : forall val, P (StringLiteral val).
Hypothesis P_BooleanLiteral : forall val, P (BooleanLiteral val).

(** The induction principle that reaches the arguments of a call. *)
Fixpoint Expr_nested_ind (e : Expr) : P e :=
  match e with
  | VarRef name typ => P_VarRef name typ
  | Call name args =>
      P_Call name args
        ((fix all (l : list Expr) : Forall P l :=
            match l with
            | [] => Forall_nil P
            | x :: rest => Forall_cons x (Expr_nested_ind x) (all rest)
            end) args)
  | BinaryExpr op lhs rhs =>
      P_BinaryExpr op lhs rhs (Expr_nested_ind lhs) (Expr_nested_ind rhs)
  | ParenExpr inner => P_ParenExpr inner (Expr_nested_ind inner)
  | NumberLiteral val => P_NumberLiteral val
  | IntegerLiteral val => P_IntegerLiteral val
  | StringLiteral val => P_StringLiteral val
  | BooleanLiteral val => P_BooleanLiteral val
  end.

End ExprInduction.

(** An outcome that is neither the error of Select about several
    aggregates nor the panic of buildAuxIterators. *)
Definition clean {A} (o : Outcome A) : Prop :=
  match o with
  | Err ErrMultipleAggregates => False
  | Panic PanicUnreachable => False
  | _ => True
  end.

Definition Clean {A} (m : M A) : Prop := forall w, clean (fst (m w)).

(* ================================================================== *)
(** ** Vocabulary for the properties of the planner *)

(** The events of [k] storage iterators handed out in a row, the first one
    numbered [first]; the most recent one comes first. *)
Definition creations (first k : nat) : list Event :=
  map EvCreateIterator (rev (seq first k)).

(** The world after [k] more storage iterators were handed out, and nothing
    else happened. *)
Definition after_creations (k : nat) (w : World) : World :=
  {| w_next := w_next w + k; w_log := (creations (w_next w) k ++ w_log w)%list |}.

(** The input of the aux iterator: the iterator of the storage under the
    dedupe and limit wraps that the options ask for. *)
Definition auxInput (opt : IteratorOptions) (input : Iterator) : Iterator :=
  let input := if opt_Dedupe opt then NewDedupeIterator input else input in
  if (opt_Limit opt >? 0) || (opt_Offset opt >? 0)
  then NewLimitIterator input opt else input.

Definition isNumeric (typ : DataType) : bool :=
  match typ with Float | Integer => true | _ => false end.

(** The tokens the operator tables know. *)
Definition isOperator (op : Token) : bool :=
  match op with AND | OR => false | _ => true end.

Definition isComparison (op : Token) : bool :=
  match op with EQ | NEQ | LT | LTE | GT | GTE => true | _ => false end.

Definition isNumberLiteral (e : Expr) : bool :=
  match e with NumberLiteral _ => true | _ => false end.

Definition DataType_eqb (a b : DataType) : bool :=
  match a, b with
  | Unknown, Unknown | Float, Float | Integer, Integer | String, String
  | Boolean, Boolean => true
  | _, _ => false
  end.

(** The data type of a binary expression over two iterators. *)
Definition combinedType (typ1 typ2 : DataType) (op : Token) : DataType :=
  if isComparison op then Boolean
  else if DataType_eqb typ1 Integer && DataType_eqb typ2 Integer
          && negb (match op with DIV => true | _ => false end)
       then Integer
       else Float.

(** The data type of a binary expression over an iterator and a literal. *)
Definition literalCombinedType (op : Token) : DataType :=
  if isComparison op then Boolean else Float.

(** The names buildExprIterator has a case for. *)
Definition supportedCalls : list string :=
  ["distinct"; "derivative"; "non_negative_derivative"; "count"; "min"; "max";
   "sum"; "first"; "last"; "mean"; "median"; "stddev"; "spread"; "top";
   "bottom"; "percentile"].

Definition isSupportedCall (name : string) : bool :=
  existsb (String.eqb name) supportedCalls.


(** The closure of a literal-on-one-side transform iterator applied to a
    point; [None] when the node is not such an iterator. *)
Definition apply_transform_fn (itr : Iterator) (p : option FloatPoint)
  : option (option AnyPoint) :=
  match itr with
  | floatTransformIterator _ fn => Some (option_map AnyFloat (fn p))
  | floatBoolTransformIterator _ fn => Some (option_map AnyBoolean (fn p))
  | _ => None
  end.

(** Name, tags, time, aux values and Nil flag of a point of any type. *)
Definition any_header (p : AnyPoint)
  : string * list (string * string) * int64 * list AuxValue * bool :=
  match p with
  | AnyFloat p => (Name p, Tags p, Time p, Aux p, Nil p)
  | AnyInteger p => (Name p, Tags p, Time p, Aux p, Nil p)
  | AnyBoolean p => (Name p, Tags p, Time p, Aux p, Nil p)
  end.

(** stringSetSlice returns a sorted slice of keys from a string set. The
    set is [None] for a nil map, and else the keys in the order in which the
    range over the map happens to visit them. *)
Definition stringSetSlice (m : option (list string)) : option (list string) :=
  match m with
  | None => None
  | Some keys => Some (sort_Strings (fold_left (fun a k => a ++ [k])%list keys []))
  end.

(** The computations whose only effect is to have storage iterators handed
    out. *)
Definition only_creates (A : Type) (m : M A) : Prop :=
  forall w, exists k, snd (m w) = after_creations k w.

(** The computations that leave the world as it is. *)
Definition silent (A : Type) (m : M A) : Prop := forall w, snd (m w) = w.

(** The order of sort.Strings. *)
Definition string_le (a b : string) : Prop := String.leb a b = true.

(** Further concrete inputs. *)
Module Inputs.

(** A storage that hands out iterators and cannot list its series. *)
Definition storageWithoutSeries : Storage :=
  {| storage_CreateIterator := fun _ _ => inr Float;
     storage_SeriesKeys := fun _ => inl "series unavailable" |}.

(** The fields of SELECT v, n * 2 and of SELECT mean(v), v *)
Definition fields_v_n2 : Fields :=
  map mkField [Examples.v; BinaryExpr MUL Examples.n (NumberLiteral 2%float)].

Definition fields_mean_v : Fields := map mkField [Call "mean" [Examples.v]; Examples.v].

(** The fields of SELECT sum(v), mean(v) *)
Definition fields_sum_mean : Fields :=
  map mkField [Call "sum" [Examples.v]; Call "mean" [Examples.v]].



(** The helpers of the examples, with a newIteratorOptionsStmt that returns
    an error: the case for which Select has its first return. *)
Definition helpersFailingOptions : Helpers :=
  Build_Helpers
    (Reduce Examples.H) (ContainsVarRef Examples.H) (newSelectInfo Examples.H)
    (fun _ _ => inl "invalid time range")
    (DerivativeInterval Examples.H) (minTime Examples.H) (maxTime Examples.H)
    (construct Examples.H) (auxFieldType Examples.H) (auxCreateOther Examples.H)
    (auxSeriesKeys Examples.H).

(** SELECT top(v, host, 2) FROM m *)
Definition select_top_host : SelectStatement :=
  Examples.select [Call "top" [Examples.v; VarRef "host" String; NumberLiteral 2%float]].

End Inputs.

(* ================================================================== *)
(** ** Sequences of calls on a storage table *)

Module TableCalls.

Inductive TableCall := CallClose | CallStatistics.

Definition isClose (c : TableCall) : bool :=
  match c with CallClose => true | CallStatistics => false end.

(** The calls of [cs] made one after the other on a table: the statistics
    that the Statistics calls return, in order, and the table at the end;
    [None] when a call finds the mutex held. *)
Fixpoint run {T} (cs : list TableCall) (t : Table.table T)
  : option (list Table.flux_Statistics * Table.table T) :=
  match cs with
  | [] => Some ([], t)
  | CallClose :: rest =>
      match Table.Close t with
      | None => None
      | Some t' => run rest t'
      end
  | CallStatistics :: rest =>
      match Table.Statistics t with
      | None => None
      | Some (st, t') =>
          match run rest t' with
          | None => None
          | Some (sts, t'') => Some (st :: sts, t'')
          end
      end
  end.

(** The same on a group table. *)
Fixpoint runGroup {T} (cs : list TableCall) (t : Table.groupTable T)
  : option (list Table.flux_Statistics * Table.groupTable T) :=
  match cs with
  | [] => Some ([], t)
  | CallClose :: rest =>
      match Table.GroupClose t with
      | None => None
      | Some t' => runGroup rest t'
      end
  | CallStatistics :: rest =>
      match runGroup rest t with
      | None => None
      | Some (sts, t') => Some (Table.GroupStatistics t :: sts, t')
      end
  end.

(** What Statistics answers on a table whose cursor is [c]. *)
Definition statisticsOf (c : option Table.ArrayCursor) : Table.flux_Statistics :=
  match c with
  | None => Table.zeroStatistics
  | Some c =>
      {| Table.ScannedValues := Table.cs_ScannedValues (Table.cur_Stats c);
         Table.ScannedBytes := Table.cs_ScannedBytes (Table.cur_Stats c) |}
  end.

(** The Close calls that closing a table makes. *)
Definition closeCalls (c : option Table.ArrayCursor) : list Table.Effect :=
  match c with
  | None => []
  | Some c => [Table.CursorClose (Table.cur_id c)]
  end.

Definition groupCloseCalls (gc : option Table.GroupCursor) : list Table.Effect :=
  match gc with
  | None => []
  | Some gc => [Table.GroupCursorClose (Table.gc_id gc)]
  end.

End TableCalls.

(* ================================================================== *)
(** ** Reading a storage table: advance and advanceCursor

    The buffers of a table are Go slices; the model keeps the backing array
    of a slice and its length, so that a buffer that is resliced shows the
    old content beyond what is copied into it. A cursor is what it will
    answer to its successive Next calls. The calls made to collaborators
    (closing a cursor, readTags, appendTags, appendBounds) are logged. *)

Module Reads.

(** A slice: its backing array, whose length is the capacity, and its
    length. *)
Record slice (A : Type) := { backing : list A; len : nat }.

Arguments backing {A} _.
Arguments len {A} _.

Definition cap {A} (s : slice A) : nat := List.length (backing s).

(** The elements of the slice. *)
Definition contents {A} (s : slice A) : list A := firstn (len s) (backing s).

(** [make([]A, n)] *)
Definition make {A} (zero : A) (n : nat) : slice A :=
  {| backing := repeat zero n; len := n |}.

(** [s[:n]], for n within the capacity *)
Definition reslice {A} (s : slice A) (n : nat) : slice A :=
  {| backing := backing s; len := n |}.

(** [copy(dst, src)]: the first min(len(dst), len(src)) elements. *)
Definition copy {A} (dst : slice A) (src : list A) : slice A :=
  let n := Nat.min (len dst) (List.length src) in
  {| backing := (firstn n src ++ skipn n (backing dst))%list; len := len dst |}.

(** The buffer with length n: a new one when the capacity is too small. *)
Definition sized {A} (zero : A) (buf : slice A) (n : nat) : slice A :=
  if (cap buf <? n)%nat then make zero n else reslice buf n.

Inductive Effect :=
| CursorClose (id : nat)
| ReadTags (tags : list (string * string))
| AppendTags
| AppendBounds.

Section Tables.

(** The value type of the instance of the template, its zero value, and
    the name the template prints in the error of advanceCursor. *)
Variable T : Type.
Variable zero : T.
Variable name : string.

(** cursors.<Name>Array; its Len() is the number of timestamps. *)
Record Array := { Timestamps : list int64; Values : list T }.

Definition Len (a : Array) : nat := List.length (Timestamps a).

(** A typed array cursor: its identity, the arrays it answers to its
    successive Next calls, and how many times Next was called. *)
Record Cursor := { cur_id : nat; answers : nat -> Array; asked : nat }.

Definition Next (c : Cursor) : Array * Cursor :=
  (answers c (asked c),
   {| cur_id := cur_id c; answers := answers c; asked := S (asked c) |}).

(** What gc.Cursor() returns at one position of a group cursor: nil, a
    cursor of another type, or a cursor of the type of the table; with the
    tags gc.Tags() returns there. *)
Inductive Found :=
| NilCursor
| OtherCursor (id : nat)
| TypedCursor (c : Cursor).

Record Position := { found : Found; tags : list (string * string) }.

(** The time and value columns that advance rebuilds. *)
Record Columns := { timeCol : list int64; valueCol : list T }.

(** The fields of a table that advance reads and writes. [gc] holds the
    positions the group cursor has not visited yet; a table that is not a
    group table has [gc = None]. *)
Record table := {
  l : nat;
  timeBuf : slice int64;
  valBuf : slice T;
  colBufs : Columns;
  gc : option (list Position);
  cur : option Cursor;
  err : option string;
  effects : list Effect
}.

Definition set_cur (t : table) (c : option Cursor) (n : nat) : table :=
  {| l := n; timeBuf := timeBuf t; valBuf := valBuf t; colBufs := colBufs t;
     gc := gc t; cur := c; err := err t; effects := effects t |}.

Definition set_gc (t : table) (positions : list Position) : table :=
  {| l := l t; timeBuf := timeBuf t; valBuf := valBuf t; colBufs := colBufs t;
     gc := Some positions; cur := cur t; err := err t; effects := effects t |}.

Definition set_err (t : table) (msg : string) : table :=
  {| l := l t; timeBuf := timeBuf t; valBuf := valBuf t; colBufs := colBufs t;
     gc := gc t; cur := cur t; err := Some msg; effects := effects t |}.

Definition tell (t : table) (e : Effect) : table :=
  {| l := l t; timeBuf := timeBuf t; valBuf := valBuf t; colBufs := colBufs t;
     gc := gc t; cur := cur t; err := err t; effects := e :: effects t |}.

(** The second half of advance: the buffers are sized to t.l and filled
    from the array, the two columns are rebuilt from them, then appendTags
    and appendBounds are called. *)
Definition fill (a : Array) (t : table) : table :=
  let tb := copy (sized 0 (timeBuf t) (l t)) (Timestamps a) in
  let vb := copy (sized zero (valBuf t) (l t)) (Values a) in
  {| l := l t; timeBuf := tb; valBuf := vb;
     colBufs := {| timeCol := contents tb; valueCol := contents vb |};
     gc := gc t; cur := cur t; err := err t;
     effects := AppendBounds :: AppendTags :: effects t |}.

(** advance of {{.name}}Table. *)
Definition advance (t : table) : Outcome (bool * table) :=
  match cur t with
  | None => Panic PanicNilDereference
  | Some c =>
      let (a, c) := Next c in
      let t := set_cur t (Some c) (Len a) in
      if (l t =? 0)%nat then Ok (false, t) else Ok (true, fill a t)
  end.

(** The error of advanceCursor on a cursor of another type, up to the
    verb that prints that type. *)
Definition wrongCursorMessage : string := "expected " ++ name ++ " cursor type, got ".

(** The loop [for t.gc.Next()] of advanceCursor over the positions that
    are left. *)
Fixpoint nextCursor (positions : list Position) (t : table) : bool * table :=
  match positions with
  | [] => (false, set_gc t [])
  | p :: rest =>
      match found p with
      | NilCursor => nextCursor rest t
      | OtherCursor id =>
          (false, set_err (tell (set_gc t rest) (CursorClose id)) wrongCursorMessage)
      | TypedCursor c =>
          (true, set_cur (tell (set_gc t rest) (ReadTags (tags p))) (Some c) (l t))
      end
  end.

(** advanceCursor of {{.name}}GroupTable. *)
Definition advanceCursor (t : table) : Outcome (bool * table) :=
  match cur t with
  | None => Panic PanicNilDereference
  | Some c =>
      let t := set_cur (tell t (CursorClose (cur_id c))) None (l t) in
      match gc t with
      | None => Panic PanicNilDereference
      | Some positions => Ok (nextCursor positions t)
      end
  end.

(** advance of {{.name}}GroupTable: the RETRY loop, which goes round at
    most [fuel] times; [None] when that is not enough. *)
Fixpoint advanceRetry (fuel : nat) (t : table) : option (Outcome (bool * table)) :=
  match cur t with
  | None => Some (Panic PanicNilDereference)
  | Some c =>
      let (a, c) := Next c in
      let t := set_cur t (Some c) (Len a) in
      if (l t =? 0)%nat then
        match advanceCursor t with
        | Ok (true, t) =>
            match fuel with
            | O => None
            | S fuel => advanceRetry fuel t
            end
        | Ok (false, t) => Some (Ok (false, t))
        | Err e => Some (Err e)
        | Panic p => Some (Panic p)
        end
      else Some (Ok (true, fill a t))
  end.

(** The positions the group cursor has not visited. *)
Definition unvisited (t : table) : list Position :=
  match gc t with Some positions => positions | None => [] end.

(** Every turn of the loop but the last one takes a position of the group
    cursor: as many turns as there are positions left, and one, suffice. *)
Definition groupAdvance (t : table) : option (Outcome (bool * table)) :=
  advanceRetry (List.length (unvisited t)) t.

(** The cursors a table holds: its current one and those of the positions
    not visited yet. *)
Definition foundId (f : Found) : list nat :=
  match f with
  | NilCursor => []
  | OtherCursor id => [id]
  | TypedCursor c => [cur_id c]
  end.

Definition held (t : table) : list nat :=
  (match cur t with Some c => [cur_id c] | None => [] end
   ++ flat_map (fun p => foundId (found p)) (unvisited t))%list.

(** The cursors closed so far. *)
Definition closedCursors (t : table) : list nat :=
  flat_map (fun e => match e with CursorClose id => [id] | _ => [] end) (effects t).

(** From t to t' no cursor is lost and none appears: t' holds only cursors
    that t held, what was closed stays closed, every cursor t held is still
    held or has been closed, and only cursors t held have been closed. *)
Definition conserved (t t' : table) : Prop :=
  incl (held t') (held t)
  /\ incl (closedCursors t) (closedCursors t')
  /\ (forall id, In id (held t) -> In id (held t') \/ In id (closedCursors t'))
  /\ (forall id, In id (closedCursors t') -> In id (closedCursors t) \/ In id (held t)).

End Tables.

Arguments Timestamps {T} _.
Arguments Values {T} _.
Arguments Len {T} _.
Arguments cur_id {T} _.
Arguments answers {T} _.
Arguments asked {T} _.
Arguments Next {T} _.
Arguments NilCursor {T}.
Arguments OtherCursor {T} id.
Arguments TypedCursor {T} c.
Arguments found {T} _.
Arguments tags {T} _.
Arguments timeCol {T} _.
Arguments valueCol {T} _.
Arguments l {T} _.
Arguments timeBuf {T} _.
Arguments valBuf {T} _.
Arguments colBufs {T} _.
Arguments gc {T} _.
Arguments cur {T} _.
Arguments err {T} _.
Arguments effects {T} _.
Arguments unvisited {T} _.
Arguments held {T} _.
Arguments closedCursors {T} _.
Arguments conserved {T} t t'.
Arguments advance {T} zero t.
Arguments advanceCursor {T} name t.
Arguments advanceRetry {T} zero name fuel t.
Arguments groupAdvance {T} zero name t.
Arguments fill {T} zero a t.

(** A cursor that answers the arrays of [batches] one after the other and
    then empty arrays. *)
Definition cursorOf (id : nat) (batches : list (list int64 * list float64))
  : Cursor float64 :=
  {| cur_id := id;
     answers := fun k =>
       match nth_error batches k with
       | Some (ts, vs) => {| Timestamps := ts; Values := vs |}
       | None => {| Timestamps := []; Values := [] |}
       end;
     asked := 0 |}.

(** A cursor with two arrays, of two points and of one point. *)
Definition exampleCursor : Cursor float64 :=
  cursorOf 7 [([40; 50], [4%float; 5%float]); ([60], [6%float])].

(** A float table whose buffers hold three elements, open on that cursor. *)
Definition exampleTable : table float64 :=
  {| l := 3;
     timeBuf := {| backing := [10; 20; 30]; len := 3 |};
     valBuf := {| backing := [1%float; 2%float; 3%float]; len := 3 |};
     colBufs := {| timeCol := [10; 20; 30]; valueCol := [1%float; 2%float; 3%float] |};
     gc := None;
     cur := Some exampleCursor;
     err := None;
     effects := [] |}.

(** A group table whose cursor 7 is exhausted; the group cursor still has a
    nil cursor, the exhausted cursor 8 and cursor 9, which has one array. *)
Definition exampleGroupTable : table float64 :=
  {| l := 3;
     timeBuf := {| backing := [10; 20; 30]; len := 3 |};
     valBuf := {| backing := [1%float; 2%float; 3%float]; len := 3 |};
     colBufs := {| timeCol := [10; 20; 30]; valueCol := [1%float; 2%float; 3%float] |};
     gc := Some [ {| found := NilCursor; tags := [("host", "a")] |};
                  {| found := TypedCursor (cursorOf 8 []); tags := [("host", "b")] |};
                  {| found := TypedCursor (cursorOf 9 [([70], [7%float])]);
                     tags := [("host", "c")] |} ];
     cur := Some (cursorOf 7 []);
     err := None;
     effects := [] |}.

End Reads.

(** The constructor a selector call is handed to, and the error of a
    selector call with too few arguments, by the name of the call. *)
Definition selectorConstructor (name : string) (n : float64) (tags : list nat)
  : Constructor :=
  if String.eqb name "top" then newTopIterator n tags else newBottomIterator n tags.

Definition tooFewArguments (name : string) (got : nat) : error :=
  if String.eqb name "top" then ErrTopArguments got else ErrBottomArguments got.

(* ================================================================== *)
(** * Theorems *)

(** ** The operator tables *)

Lemma wrap64_in_int64 (z : Z) : in_int64 (wrap64 z).
Proof.
  unfold in_int64, wrap64, int64_min, int64_max.
  pose proof (Z.mod_pos_bound (z + 2 ^ 63) (2 ^ 64) ltac:(lia)). lia.
Qed.

Lemma wrap64_id (z : Z) : in_int64 z -> wrap64 z = z.
Proof.
  unfold in_int64, wrap64, int64_min, int64_max. intros Hz.
  rewrite Z.mod_small by lia. lia.
Qed.

Lemma division_tables_zero (typ1 typ2 : DataType) :
  zero_on_zero_divisor (binaryExprFunc typ1 typ2 DIV).
Proof.
  destruct typ1; simpl; trivial; try (intros; reflexivity).
  destruct typ2; simpl; intros; reflexivity.
Qed.

(** C4. On two Integer operands the tables give, for + - and *, a function
    from two int64 to an int64 (the exact result wrapped to 64 bits), and
    for / a function to float64. Whatever the operand types, the division
    the tables return yields float64(0) when the divisor is zero (for floats:
    +0 or -0), which is not a NaN; there is no error result at all. *)
Theorem C4_integer_operators_and_division_by_zero :
  binaryExprFunc Integer Integer ADD = FnIntegerInteger IntegerOp.add
  /\ binaryExprFunc Integer Integer SUB = FnIntegerInteger IntegerOp.sub
  /\ binaryExprFunc Integer Integer MUL = FnIntegerInteger IntegerOp.mul
  /\ binaryExprFunc Integer Integer DIV = FnIntegerFloat IntegerOp.div
  /\ (forall lhs rhs : int64,
        IntegerOp.add lhs rhs = wrap64 (lhs + rhs) /\ in_int64 (IntegerOp.add lhs rhs)
        /\ IntegerOp.sub lhs rhs = wrap64 (lhs - rhs) /\ in_int64 (IntegerOp.sub lhs rhs)
        /\ IntegerOp.mul lhs rhs = wrap64 (lhs * rhs) /\ in_int64 (IntegerOp.mul lhs rhs))
  /\ (forall typ1 typ2, zero_on_zero_divisor (binaryExprFunc typ1 typ2 DIV))
  /\ (forall lhs : int64, IntegerOp.div lhs 0 = float64_zero)
  /\ (forall lhs : float64,
        FloatOp.div lhs 0%float = float64_zero
        /\ FloatOp.div lhs (-0)%float = float64_zero)
  /\ PrimFloat.is_nan float64_zero = false
  /\ IntegerOp.div 10 3 = (10 / 3)%float.
Proof.
  repeat split; try reflexivity; try apply wrap64_in_int64.
  apply division_tables_zero.
Qed.

(** ** Two literals *)

(** C8. A binary expression whose two operands are literals makes
    buildExprIterator fail with the error "unable to construct an iterator
    from two literals: LHS: ..., RHS: ..."; the world is left as it was: no
    iterator is asked of the iterator creator. *)
Theorem C8_two_literals_rejected (H : Helpers) (op : Token) (lhs rhs : Expr)
  (ic : IteratorCreator) (opt : IteratorOptions) (w : World) :
  isLiteral lhs = true -> isLiteral rhs = true ->
  buildExprIterator H (BinaryExpr op lhs rhs) ic opt w = (Err (ErrTwoLiterals lhs rhs), w)
  /\ message_head (ErrTwoLiterals lhs rhs)
     = "unable to construct an iterator from two literals: LHS: "
  /\ String.prefix "unable to construct an iterator from two literals"
       (two_literals_message lhs rhs) = true.
Proof.
  intros Hl Hr. cbn [buildExprIterator]. rewrite Hl, Hr. repeat split.
Qed.

Lemma C8_two_literals_rejected_witness :
  buildExprIterator Examples.H
    (BinaryExpr ADD (NumberLiteral 1%float) (StringLiteral "a"))
    Examples.ic Examples.optRaw world0
  = (Err (ErrTwoLiterals (NumberLiteral 1%float) (StringLiteral "a")), world0)
  /\ message_head (ErrTwoLiterals (NumberLiteral 1%float) (StringLiteral "a"))
     = "unable to construct an iterator from two literals: LHS: "
  /\ String.prefix "unable to construct an iterator from two literals"
       (two_literals_message (NumberLiteral 1%float) (StringLiteral "a")) = true.
Proof.
  apply (C8_two_literals_rejected Examples.H ADD (NumberLiteral 1%float)
           (StringLiteral "a") Examples.ic Examples.optRaw world0); reflexivity.
Defined.

(** ** The storage tables *)

(** C9. On a table and on a group table whose mutex is free, Close returns;
    a second Close returns too and changes nothing (no cursor is closed
    twice); and Statistics called after Close returns the zero statistics. *)
Theorem C9_close_idempotent_statistics_readable (T : Type)
  (t : Table.table T) (g : Table.groupTable T) :
  Table.mu t = false -> Table.g_mu g = false ->
  exists t' g',
    Table.Close t = Some t'
    /\ Table.Close t' = Some t'
    /\ Table.Statistics t' = Some (Table.zeroStatistics, t')
    /\ Table.GroupClose g = Some g'
    /\ Table.GroupClose g' = Some g'
    /\ Table.GroupStatistics g' = Table.zeroStatistics.
Proof.
  intros Ht Hg. destruct t as [vb m c cs], g as [gvb gm ggc gc gcs].
  simpl in Ht, Hg. subst m gm.
  unfold Table.Close, Table.GroupClose, Table.Statistics, Table.GroupStatistics,
    Table.Lock, Table.g_Lock, Table.Unlock, Table.g_Unlock. simpl.
  destruct c, ggc, gc; simpl; do 2 eexists; repeat split.
Qed.

Lemma C9_close_idempotent_statistics_readable_witness :
  exists t' g',
    Table.Close Table.exampleTable = Some t'
    /\ Table.Close t' = Some t'
    /\ Table.Statistics t' = Some (Table.zeroStatistics, t')
    /\ Table.GroupClose Table.exampleGroupTable = Some g'
    /\ Table.GroupClose g' = Some g'
    /\ Table.GroupStatistics g' = Table.zeroStatistics.
Proof.
  apply (C9_close_idempotent_statistics_readable float64 Table.exampleTable
           Table.exampleGroupTable); reflexivity.
Defined.

(** ** What buildExprIterator cannot return *)

Lemma Clean_ret {A} (a : A) : Clean (ret a).
Proof. intros w. exact I. Qed.

Lemma Clean_fail {A} (e : error) : e <> ErrMultipleAggregates -> Clean (@fail A e).
Proof. intros He w. simpl. destruct e; trivial. congruence. Qed.

Lemma Clean_panic {A} (p : PanicValue) : p <> PanicUnreachable -> Clean (@panic A p).
Proof. intros Hp w. simpl. destruct p; trivial. congruence. Qed.

Lemma Clean_bind {A B} (m : M A) (k : A -> M B) :
  Clean m -> (forall a, Clean (k a)) -> Clean (bind m k).
Proof.
  intros Hm Hk w. unfold bind. specialize (Hm w).
  destruct (m w) as [[a | e | p] w']; simpl in *; trivial. apply Hk.
Qed.

Lemma Clean_liftOutcome {A} (o : Outcome A) : clean o -> Clean (liftOutcome o).
Proof. intros Ho w. exact Ho. Qed.

Lemma Clean_lift {A} (r : ExternalError + A) : Clean (lift r).
Proof. destruct r; intros w; exact I. Qed.

Lemma Clean_CreateIterator H ic opt : Clean (CreateIterator H ic opt).
Proof.
  intros w. destruct ic as [s | aitr]; simpl.
  - destruct (storage_CreateIterator s (w_next w) opt); exact I.
  - destruct (opt_Expr opt) as [[] | ]; simpl; trivial;
      destruct (auxCreateOther H aitr opt); exact I.
Qed.

Lemma Clean_SeriesKeys H ic opt : Clean (SeriesKeys H ic opt).
Proof. destruct ic; apply Clean_lift. Qed.

Lemma Clean_constructed H c input opt : Clean (constructed H c input opt).
Proof. intros w. unfold constructed. destruct (construct H c input opt); exact I. Qed.

Lemma clean_tagIndices args aux : clean (tagIndices args aux).
Proof.
  induction args as [| a rest IH]; simpl; trivial.
  destruct a; simpl; trivial.
  destruct (tagIndices rest aux); simpl in *; trivial.
Qed.

Lemma clean_buildRHSTransformIterator lhs rhs op :
  clean (buildRHSTransformIterator lhs rhs op).
Proof.
  unfold buildRHSTransformIterator.
  destruct (binaryExprFunc _ _ op); simpl; trivial;
    destruct (toFloatIterator lhs); simpl; trivial; destruct rhs; exact I.
Qed.

Lemma clean_buildLHSTransformIterator lhs rhs op :
  clean (buildLHSTransformIterator lhs rhs op).
Proof.
  unfold buildLHSTransformIterator.
  destruct (binaryExprFunc _ _ op); simpl; trivial;
    destruct (toFloatIterator rhs); simpl; trivial; destruct lhs; exact I.
Qed.

Lemma clean_buildTransformIterator lhs rhs op :
  clean (buildTransformIterator lhs rhs op).
Proof.
  unfold buildTransformIterator, floatOperands, integerOperands.
  destruct (binaryExprFunc _ _ op); simpl; trivial;
    repeat match goal with
           | |- context [toFloatIterator ?x] => destruct (toFloatIterator x); simpl
           | |- context [toIntegerIterator ?x] => destruct (toIntegerIterator x); simpl
           end; trivial.
Qed.

(** One step of a proof that a computation is clean. *)
Ltac clean_step :=
  first
    [ assumption
    | apply Clean_ret
    | apply Clean_CreateIterator
    | apply Clean_constructed
    | apply Clean_fail; discriminate
    | apply Clean_panic; discriminate
    | apply Clean_liftOutcome;
      first [ apply clean_tagIndices | apply clean_buildRHSTransformIterator
            | apply clean_buildLHSTransformIterator | apply clean_buildTransformIterator ]
    | apply Clean_bind; [ | intros ? ]
    | match goal with
      | |- Clean (if ?c then _ else _) => destruct c
      | |- Clean (match ?x with _ => _ end) => destruct x
      end ].

Lemma buildExprIterator_clean (H : Helpers) (e : Expr) :
  forall ic opt, Clean (buildExprIterator H e ic opt).
Proof.
  induction e using Expr_nested_ind; intros ic opt.
  - apply Clean_CreateIterator.
  - assert (Hhead : match args with
                    | [] => True
                    | a :: _ => forall ic opt, Clean (buildExprIterator H a ic opt)
                    end).
    { destruct args; trivial. inversion H0; assumption. }
    clear H0. cbn [buildExprIterator].
    destruct args as [| a rest].
    + repeat clean_step.
    + repeat first [ apply Hhead | clean_step ].
  - cbn [buildExprIterator].
    repeat first [ apply IHe1 | apply IHe2 | clean_step ].
  - cbn [buildExprIterator]. apply IHe.
  - apply Clean_fail; discriminate.
  - apply Clean_fail; discriminate.
  - apply Clean_fail; discriminate.
  - apply Clean_fail; discriminate.
Qed.

(** ** What the two pipelines cannot return *)

Opaque buildExprIterator.

Lemma firstPass_clean H fields :
  forall i ic opt st w, clean (fst (fst (firstPass H fields i ic opt st w))).
Proof.
  induction fields as [| f rest IH]; intros i ic opt st w; simpl; trivial.
  destruct (ContainsVarRef H (field_Expr f)); [apply IH |].
  pose proof (buildExprIterator_clean H (Reduce H (field_Expr f)) ic opt w) as Hc.
  destruct (buildExprIterator H (Reduce H (field_Expr f)) ic opt w) as [[itr | e | p] w'];
    simpl in *; trivial; apply IH.
Qed.

Lemma secondPass_clean H fields :
  forall i aitr opt itrs w, clean (fst (fst (secondPass H fields i aitr opt itrs w))).
Proof.
  induction fields as [| f rest IH]; intros i aitr opt itrs w; simpl; trivial.
  destruct (nth i itrs None); [apply IH |].
  pose proof (buildExprIterator_clean H (Reduce H (field_Expr f)) (AuxCreator aitr) opt w)
    as Hc.
  destruct (buildExprIterator H (Reduce H (field_Expr f)) (AuxCreator aitr) opt w)
    as [[itr | e | p] w']; simpl in *; trivial; apply IH.
Qed.

Lemma fieldClosure_clean H fields ic opt w :
  clean (fst (fst (fieldClosure H fields ic opt w))).
Proof.
  unfold fieldClosure.
  match goal with |- context [firstPass H fields 0 ic opt ?st w] =>
    pose proof (firstPass_clean H fields 0 ic opt st w) as H1;
    destruct (firstPass H fields 0 ic opt st w) as [[[u | e | p] st1] w1] end;
    simpl in *; trivial.
  destruct (fs_input st1) as [input |]; simpl; trivial.
  destruct (fs_hasAuxFields st1); simpl; trivial.
  pose proof (Clean_SeriesKeys H ic opt w1) as H2.
  destruct (SeriesKeys H ic opt w1) as [[keys | e | p] w2]; simpl in *; trivial.
  match goal with |- context [secondPass H fields 0 ?a opt ?l w2] =>
    pose proof (secondPass_clean H fields 0 a opt l w2) as H3;
    destruct (secondPass H fields 0 a opt l w2) as [[[u' | e | p] l'] w3] end;
    simpl in *; trivial.
Qed.

Lemma buildFieldIterators_clean H fields ic opt : Clean (buildFieldIterators H fields ic opt).
Proof.
  intros w. unfold buildFieldIterators.
  pose proof (fieldClosure_clean H fields ic opt w) as Hc.
  destruct (fieldClosure H fields ic opt w) as [[[u | e | p] itrs] w']; simpl in *; trivial.
  destruct (_ || _); exact I.
Qed.

(** The loop of buildAuxIterators wraps every error of a field. *)
Lemma auxFieldLoop_not_multiple H fields :
  forall aitr opt w,
    fst (auxFieldLoop H fields aitr opt w) <> Err ErrMultipleAggregates.
Proof.
  induction fields as [| f rest IH]; intros aitr opt w; simpl; [discriminate |].
  unfold bind at 1.
  destruct (Reduce H (field_Expr f)) eqn:Ered; simpl; try discriminate.
  - unfold bind. specialize (IH aitr opt w).
    destruct (auxFieldLoop H rest aitr opt w) as [[itrs | e | p] w']; simpl in *;
      congruence.
  - match goal with |- context [buildExprIterator H ?e ?c opt w] =>
      destruct (buildExprIterator H e c opt w) as [[itr | e' | p] w'] end;
      simpl; try discriminate.
    unfold bind. specialize (IH aitr opt w').
    destruct (auxFieldLoop H rest aitr opt w') as [[itrs | e | p] w'']; simpl in *;
      congruence.
Qed.

Lemma buildAuxIterators_not_multiple H fields ic opt w :
  fst (buildAuxIterators H fields ic opt w) <> Err ErrMultipleAggregates.
Proof.
  unfold buildAuxIterators. unfold bind at 1.
  pose proof (Clean_CreateIterator H ic opt w) as H1.
  destruct (CreateIterator H ic opt w) as [[input | e | p] w1]; simpl in *;
    [ | destruct e; simpl in *; congruence | discriminate ].
  match goal with |- context [SeriesKeys H ic opt w1] =>
    pose proof (Clean_SeriesKeys H ic opt w1) as H2;
    destruct (SeriesKeys H ic opt w1) as [[keys | e | p] w2] end; simpl in *;
    [ | destruct e; simpl in *; congruence | discriminate ].
  unfold bind at 1.
  match goal with |- context [auxFieldLoop H fields ?a opt w2] =>
    pose proof (auxFieldLoop_not_multiple H fields a opt w2) as H3;
    destruct (auxFieldLoop H fields a opt w2) as [[itrs | e | p] w3] end; simpl in *;
    congruence.
Qed.

(** With fields that all reduce to a VarRef or to a BinaryExpr, the loop
    never takes its default case. *)
Lemma auxFieldLoop_not_unreachable H fields :
  Forall (fun f => isVarRef (Reduce H (field_Expr f))
                   || isBinaryExpr (Reduce H (field_Expr f)) = true) fields ->
  forall aitr opt w,
    fst (auxFieldLoop H fields aitr opt w) <> Panic PanicUnreachable.
Proof.
  induction 1 as [| f rest Hf Hrest IH]; intros aitr opt w; simpl; [discriminate |].
  unfold bind at 1.
  destruct (Reduce H (field_Expr f)) eqn:Ered; simpl in Hf; try discriminate; simpl.
  - unfold bind. specialize (IH aitr opt w).
    destruct (auxFieldLoop H rest aitr opt w) as [[itrs | e | p] w']; simpl in *;
      congruence.
  - match goal with |- context [buildExprIterator H ?e ?c opt w] =>
      pose proof (buildExprIterator_clean H e c opt w) as Hc;
      destruct (buildExprIterator H e c opt w) as [[itr | e' | p] w'] end;
      simpl in *; try discriminate.
    + unfold bind. specialize (IH aitr opt w').
      destruct (auxFieldLoop H rest aitr opt w') as [[itrs | e | p] w'']; simpl in *;
        congruence.
    + destruct p; simpl in *; congruence.
Qed.

Lemma buildAuxIterators_not_unreachable H fields ic opt w :
  Forall (fun f => isVarRef (Reduce H (field_Expr f))
                   || isBinaryExpr (Reduce H (field_Expr f)) = true) fields ->
  fst (buildAuxIterators H fields ic opt w) <> Panic PanicUnreachable.
Proof.
  intros Hfields. unfold buildAuxIterators. unfold bind at 1.
  pose proof (Clean_CreateIterator H ic opt w) as H1.
  destruct (CreateIterator H ic opt w) as [[input | e | p] w1]; simpl in *;
    [ | discriminate | destruct p; simpl in *; congruence ].
  match goal with |- context [SeriesKeys H ic opt w1] =>
    pose proof (Clean_SeriesKeys H ic opt w1) as H2;
    destruct (SeriesKeys H ic opt w1) as [[keys | e | p] w2] end; simpl in *;
    [ | discriminate | destruct p; simpl in *; congruence ].
  unfold bind at 1.
  match goal with |- context [auxFieldLoop H fields ?a opt w2] =>
    pose proof (auxFieldLoop_not_unreachable H fields Hfields a opt w2) as H3;
    destruct (auxFieldLoop H fields a opt w2) as [[itrs | e | p] w3] end; simpl in *;
    congruence.
Qed.

Lemma clean_refNames args : clean (refNames args).
Proof.
  induction args as [| a rest IH]; simpl; trivial.
  destruct a; simpl; trivial. destruct (refNames rest); simpl in *; trivial.
Qed.

Lemma clean_extraAux cs : clean (extraAux cs).
Proof.
  induction cs as [| [name args] rest IH]; simpl; trivial.
  destruct (isTopOrBottom name); trivial.
  pose proof (clean_refNames (interior args)) as Hr.
  destruct (refNames (interior args)); simpl in *; trivial.
  destruct (extraAux rest); simpl in *; trivial.
Qed.

(** ** Select and several aggregates *)

(** Once the options of the statement are built, Select returns the error
    of several aggregates exactly when the projection has more than one call
    and at least one raw reference, and then the world is as before. *)
Lemma Select_after_options (H : Helpers) (stmt : SelectStatement)
  (ic : IteratorCreator) (sopt : SelectOptions) (opt : IteratorOptions) (w : World) :
  newIteratorOptionsStmt H stmt sopt = inr opt ->
  let info := newSelectInfo H stmt in
  (fst (Select H stmt ic sopt w) = Err ErrMultipleAggregates
   <-> (1 < List.length (calls info) /\ 0 < List.length (refs info))%nat)
  /\ ((1 < List.length (calls info) /\ 0 < List.length (refs info))%nat ->
      Select H stmt ic sopt w = (Err ErrMultipleAggregates, w))
  /\ message_head ErrMultipleAggregates
     = "cannot select fields when selecting multiple aggregates".
Proof.
  intros Hopt info.
  assert (Hyes : (1 < List.length (calls info) /\ 0 < List.length (refs info))%nat ->
                 Select H stmt ic sopt w = (Err ErrMultipleAggregates, w)).
  { intros [Hc Hr]. unfold Select. rewrite Hopt. fold info.
    apply Nat.ltb_lt in Hc. apply Nat.ltb_lt in Hr. rewrite Hc, Hr. reflexivity. }
  split; [split | split; [exact Hyes | reflexivity]].
  - intros Hres.
    destruct (1 <? List.length (calls info))%nat eqn:Hc;
      destruct (0 <? List.length (refs info))%nat eqn:Hr;
      try (apply Nat.ltb_lt in Hc; apply Nat.ltb_lt in Hr; split; assumption);
      exfalso; revert Hres; unfold Select; rewrite Hopt; fold info; rewrite Hc, Hr;
      simpl;
      (destruct ((List.length (calls info) =? 0)%nat && _);
       [ unfold bind;
         match goal with |- context [buildAuxIterators H ?f ic ?o w] =>
           pose proof (buildAuxIterators_not_multiple H f ic o w) as Hn;
           destruct (buildAuxIterators H f ic o w) as [[itrs | e | p] w'] end;
         simpl in *; congruence
       | unfold bind, liftOutcome;
         pose proof (clean_extraAux (calls info)) as He;
         destruct (extraAux (calls info)) as [extra | e | p]; simpl in *;
         [ match goal with |- context [buildFieldIterators H ?f ic ?o w] =>
             pose proof (buildFieldIterators_clean H f ic o w) as Hn;
             destruct (buildFieldIterators H f ic o w) as [[itrs | e | p] w'] end;
           simpl in *; try congruence; destruct e; simpl in *; congruence
         | destruct e; simpl in *; congruence
         | congruence ] ]).
  - intros Hcond. rewrite (Hyes Hcond). reflexivity.
Qed.

(** C6 (amended). Select builds the options of the statement first: when
    newIteratorOptionsStmt fails, Select returns that error, whatever the
    projection. For every statement whose options can be built, Select
    returns the error "cannot select fields when selecting multiple
    aggregates" exactly when the projection has more than one call and at
    least one raw reference, and then nothing has been asked of the iterator
    creator; with at most one call (or no raw reference) Select goes on to
    build the iterators and whatever it returns is not this error. *)
Theorem C6_multiple_aggregates_with_fields (H : Helpers) (stmt : SelectStatement)
  (ic : IteratorCreator) (sopt : SelectOptions) (w : World) :
  let info := newSelectInfo H stmt in
  (fst (Select H stmt ic sopt w) = Err ErrMultipleAggregates
   <-> (exists opt, newIteratorOptionsStmt H stmt sopt = inr opt)
       /\ (1 < List.length (calls info) /\ 0 < List.length (refs info))%nat)
  /\ (forall opt,
        newIteratorOptionsStmt H stmt sopt = inr opt ->
        (1 < List.length (calls info) /\ 0 < List.length (refs info))%nat ->
        Select H stmt ic sopt w = (Err ErrMultipleAggregates, w))
  /\ (forall msg,
        newIteratorOptionsStmt H stmt sopt = inl msg ->
        Select H stmt ic sopt w = (Err (ErrExternal msg), w))
  /\ message_head ErrMultipleAggregates
     = "cannot select fields when selecting multiple aggregates".
Proof.
  intros info.
  assert (Hfail : forall msg,
             newIteratorOptionsStmt H stmt sopt = inl msg ->
             Select H stmt ic sopt w = (Err (ErrExternal msg), w)).
  { intros msg Hopt. unfold Select. rewrite Hopt. reflexivity. }
  split; [| split; [| split; [exact Hfail | reflexivity]]].
  - destruct (newIteratorOptionsStmt H stmt sopt) as [msg | opt] eqn:Hopt.
    + rewrite (Hfail msg eq_refl). simpl. split.
      * discriminate.
      * intros [[opt Hopt'] _]. discriminate.
    + destruct (Select_after_options H stmt ic sopt opt w Hopt) as (Hiff & _).
      fold info in Hiff. rewrite Hiff. split.
      * intros Hmixed. split; [exists opt; reflexivity | exact Hmixed].
      * intros [_ Hmixed]. exact Hmixed.
  - intros opt Hopt Hmixed.
    exact (proj1 (proj2 (Select_after_options H stmt ic sopt opt w Hopt)) Hmixed).
Qed.

Lemma C6_multiple_aggregates_with_fields_witness :
  Select Examples.H Examples.select_two_calls_one_ref Examples.ic Examples.sopt world0
  = (Err ErrMultipleAggregates, world0)
  /\ fst (Select Examples.H Examples.select_call_and_ref Examples.ic Examples.sopt world0)
     <> Err ErrMultipleAggregates.
Proof.
  split.
  - destruct (C6_multiple_aggregates_with_fields Examples.H
                Examples.select_two_calls_one_ref Examples.ic Examples.sopt world0)
      as (_ & Hyes & _).
    eapply Hyes; [reflexivity |]. vm_compute. split; lia.
  - intros Hres.
    destruct (C6_multiple_aggregates_with_fields Examples.H
                Examples.select_call_and_ref Examples.ic Examples.sopt world0)
      as (Hiff & _).
    apply Hiff in Hres. destruct Hres as (_ & Hcalls & _).
    vm_compute in Hcalls. lia.
Defined.

(** C6, as stated, fails on SELECT sum(v), mean(v), v when the options of
    the statement cannot be built: the projection has two calls and a raw
    reference, and Select returns the error of newIteratorOptionsStmt, not
    the error of several aggregates. *)
Lemma C6_counterexample_failing_options :
  let info := newSelectInfo Inputs.helpersFailingOptions Examples.select_two_calls_one_ref in
  (1 < List.length (calls info) /\ 0 < List.length (refs info))%nat
  /\ Select Inputs.helpersFailingOptions Examples.select_two_calls_one_ref Examples.ic
       Examples.sopt world0
     = (Err (ErrExternal "invalid time range"), world0)
  /\ fst (Select Inputs.helpersFailingOptions Examples.select_two_calls_one_ref Examples.ic
            Examples.sopt world0)
     <> Err ErrMultipleAggregates.
Proof.
  cbv zeta. split; [vm_compute; split; lia |]. split; [reflexivity | discriminate].
Qed.

(** ** The default case of buildAuxIterators *)

(** C10. SELECT v, 5 FROM m has one raw reference, no call, and a field
    that reduces to a literal: Select takes the aux pipeline, which panics
    with "unreachable" at that field instead of returning an error. When
    every field reduces to a VarRef or to a BinaryExpr, buildAuxIterators does
    not end in that panic, whatever the iterator creator and the options. *)
Theorem C10_unreachable_panic_in_aux_pipeline :
  (exists stmt ic sopt,
      let info := newSelectInfo Examples.H stmt in
      (0 < List.length (refs info))%nat
      /\ List.length (calls info) = 0%nat
      /\ (exists f, In f (stmt_Fields stmt)
                    /\ isLiteral (Reduce Examples.H (field_Expr f)) = true)
      /\ fst (Select Examples.H stmt ic sopt world0) = Panic PanicUnreachable)
  /\ (forall H fields ic opt w,
        Forall (fun f => isVarRef (Reduce H (field_Expr f))
                         || isBinaryExpr (Reduce H (field_Expr f)) = true) fields ->
        fst (buildAuxIterators H fields ic opt w) <> Panic PanicUnreachable).
Proof.
  split.
  - exists Examples.select_v_5, Examples.ic, Examples.sopt. cbv zeta.
    split; [vm_compute; reflexivity |].
    split; [reflexivity |].
    split; [| vm_compute; reflexivity].
    exists (mkField (NumberLiteral 5%float)). split; [| reflexivity].
    simpl. right. left. reflexivity.
  - intros H fields ic opt w Hfields.
    apply buildAuxIterators_not_unreachable. exact Hfields.
Qed.

Lemma C10_unreachable_panic_in_aux_pipeline_witness :
  fst (buildAuxIterators Examples.H (stmt_Fields Examples.select_v_s1) Examples.ic
         Examples.optRaw world0) <> Panic PanicUnreachable.
Proof.
  apply (proj2 C10_unreachable_panic_in_aux_pipeline Examples.H
           (stmt_Fields Examples.select_v_s1) Examples.ic Examples.optRaw world0).
  repeat constructor.
Defined.

(** ** Closing what was built *)

Lemma closed_log_events evs w :
  closed (log_events evs w)
  = (flat_map (fun e => match e with EvClose id => [id] | _ => [] end) evs ++ closed w)%list.
Proof. unfold closed, log_events. simpl. apply flat_map_app. Qed.

Lemma closed_Close itr w id :
  In id (closed (snd (Close itr w))) <-> In id (upstreams itr) \/ In id (closed w).
Proof.
  unfold Close, tell. simpl. rewrite closed_log_events, in_app_iff.
  assert (Hids : forall l, flat_map (fun e => match e with EvClose i => [i] | _ => [] end)
                             (rev (map EvClose l)) = rev l).
  { intros l. rewrite <- map_rev. induction (rev l) as [| x r IH]; simpl; congruence. }
  rewrite Hids, <- in_rev. tauto.
Qed.

Lemma closed_Iterators_Close itrs :
  forall w id,
    In id (closed (snd (Iterators_Close itrs w)))
    <-> (exists itr, In itr itrs /\ In id (upstreams itr)) \/ In id (closed w).
Proof.
  induction itrs as [| itr rest IH]; intros w id; simpl.
  - split; [tauto | intros [[x [[] _]] | Hc]; exact Hc].
  - change (In id (closed (snd (Iterators_Close rest (snd (Close itr w)))))
            <-> (exists itr0, (itr = itr0 \/ In itr0 rest) /\ In id (upstreams itr0))
                \/ In id (closed w)).
    rewrite IH, closed_Close.
    split.
    + intros [[x [Hx Hid]] | [Hid | Hid]]; eauto.
    + intros [[x [[Hx | Hx] Hid]] | Hid]; subst; eauto.
Qed.

(** In the field pipeline an error of the closure is returned after every
    iterator the slice holds at that moment has been closed. *)
Lemma buildFieldIterators_closes_slice_on_error H fields ic opt w err w' :
  buildFieldIterators H fields ic opt w = (Err err, w') ->
  exists itrs w1,
    fieldClosure H fields ic opt w = (Err err, itrs, w1)
    /\ forall itr id,
         In itr (filterNonNil itrs) -> In id (upstreams itr) -> In id (closed w').
Proof.
  unfold buildFieldIterators.
  destruct (fieldClosure H fields ic opt w) as [[[u | e | p] itrs] w1] eqn:Ec.
  - destruct (_ || _); discriminate.
  - intros Heq. inversion Heq; subst. exists itrs, w1. split; [reflexivity |].
    intros itr id Hitr Hid. apply closed_Iterators_Close. left. eauto.
  - discriminate.
Qed.

(** C3. SELECT v, s + 1 FROM m, where s is a string field, goes through the
    aux pipeline; building the second field fails, and Select returns the
    error while the storage iterator 0 it had created is still open: nothing
    was closed. The field pipeline, on SELECT sum(v), mean(v) with a storage
    that fails on its second request, returns the error after closing the
    iterator 0 it had built for the first field. *)
Theorem C3_aux_pipeline_returns_error_without_closing :
  let aux := Select Examples.H Examples.select_v_s1 Examples.ic Examples.sopt world0 in
  let field := Select Examples.H Examples.select_two_calls
                 (StorageCreator Examples.storageFailingAfterFirst) Examples.sopt world0 in
  isErr (fst aux) = true
  /\ created (snd aux) = [0%nat] /\ closed (snd aux) = [] /\ leaked (snd aux) 0
  /\ isErr (fst field) = true
  /\ created (snd field) = [0%nat] /\ closed (snd field) = [0%nat]
  /\ ~ leaked (snd field) 0.
Proof.
  cbv zeta.
  assert (Haux : Select Examples.H Examples.select_v_s1 Examples.ic Examples.sopt world0
                 = (Err (ErrFieldIterator
                           (mkField (BinaryExpr ADD Examples.s (NumberLiteral 1%float)))
                           (ErrTransform "rhs transform" (OperandIterator String)
                              (OperandLiteral (NumberLiteral 1%float)))),
                    {| w_next := 1; w_log := [EvCreateIterator 0] |}))
    by (vm_compute; reflexivity).
  assert (Hfield : exists e,
             Select Examples.H Examples.select_two_calls
               (StorageCreator Examples.storageFailingAfterFirst) Examples.sopt world0
             = (Err e, {| w_next := 1; w_log := [EvClose 0; EvCreateIterator 0] |}))
    by (eexists; vm_compute; reflexivity).
  destruct Hfield as [e Hfield]. rewrite Haux, Hfield. simpl.
  unfold leaked, created, closed. simpl.
  repeat split; try reflexivity; tauto.
Qed.

(** ** Null propagation in the combining iterators *)

(** The closure of floatExprIterator and integerExprIterator: with one
    operand absent, the other one comes back with Nil set and Value zeroed;
    with both present and one of them Nil, the result is Nil. *)
Lemma sameTypeExprFn_right_absent {T} (zero : T) fn (a : Point T) :
  exists p, sameTypeExprFn zero fn (Some a) None = Ok (Some p)
            /\ Nil p = true /\ Value p = zero /\ same_metadata p a.
Proof. eexists. repeat split. Qed.

Lemma sameTypeExprFn_left_absent {T} (zero : T) fn (b : Point T) :
  exists p, sameTypeExprFn zero fn None (Some b) = Ok (Some p)
            /\ Nil p = true /\ Value p = zero /\ same_metadata p b.
Proof. eexists. repeat split. Qed.

Lemma sameTypeExprFn_either_nil {T} (zero : T) fn (a b : Point T) :
  Nil a || Nil b = true ->
  exists p, sameTypeExprFn zero fn (Some a) (Some b) = Ok (Some p) /\ Nil p = true.
Proof.
  intros Hnil. unfold sameTypeExprFn.
  destruct (Nil a) eqn:Ha, (Nil b) eqn:Hb; simpl in *; try discriminate;
    eexists; split; try reflexivity; assumption.
Qed.

(** The closure of the three other combining iterators: a new point with
    the metadata of [a]. With [b] absent, or one of the two Nil, it is Nil
    with a zero Value; with [a] absent the closure panics. *)
Lemma freshPointExprFn_right_absent {T R} (zero : R) (fn : T -> T -> R) (a : Point T) :
  exists p, freshPointExprFn zero fn (Some a) None = Ok (Some p)
            /\ Nil p = true /\ Value p = zero /\ same_metadata p a.
Proof. eexists. repeat split. Qed.

Lemma freshPointExprFn_either_nil {T R} (zero : R) (fn : T -> T -> R) (a b : Point T) :
  Nil a || Nil b = true ->
  exists p, freshPointExprFn zero fn (Some a) (Some b) = Ok (Some p)
            /\ Nil p = true /\ same_metadata p a.
Proof.
  intros Hnil. unfold freshPointExprFn.
  destruct (Nil a) eqn:Ha, (Nil b) eqn:Hb; simpl in *; try discriminate;
    eexists; repeat split.
Qed.

Lemma freshPointExprFn_left_absent {T R} (zero : R) (fn : T -> T -> R) (b : option (Point T)) :
  freshPointExprFn zero fn None b = Panic PanicNilDereference.
Proof. reflexivity. Qed.

(** Every iterator that buildTransformIterator returns is one of the five
    combining iterators, with one of the two closures above. *)
Lemma buildTransformIterator_closure (lhs rhs : Iterator) (op : Token) (itr : Iterator) :
  buildTransformIterator lhs rhs op = Ok itr ->
  (exists l r fn, itr = floatExprIterator l r (sameTypeExprFn float64_zero fn))
  \/ (exists l r fn, itr = integerExprIterator l r (sameTypeExprFn 0 fn))
  \/ (exists l r fn, itr = integerFloatExprIterator l r (freshPointExprFn float64_zero fn))
  \/ (exists l r fn, itr = floatBooleanExprIterator l r (freshPointExprFn false fn))
  \/ (exists l r fn, itr = integerBooleanExprIterator l r (freshPointExprFn false fn)).
Proof.
  unfold buildTransformIterator.
  destruct (binaryExprFunc (iteratorDataType lhs) (iteratorDataType rhs) op) as
    [fn | fn | fn | fn | fn |]; try discriminate.
  - destruct (floatOperands lhs rhs) as [[l r] | |]; try discriminate.
    intros Heq; inversion Heq. left. do 3 eexists. reflexivity.
  - destruct (floatOperands lhs rhs) as [[l r] | |]; try discriminate.
    intros Heq; inversion Heq. do 3 right. left. do 3 eexists. reflexivity.
  - destruct (integerOperands "RHS" lhs rhs) as [[l r] | |]; try discriminate.
    intros Heq; inversion Heq. do 2 right. left. do 3 eexists. reflexivity.
  - destruct (integerOperands "RHS" lhs rhs) as [[l r] | |]; try discriminate.
    intros Heq; inversion Heq. right. left. do 3 eexists. reflexivity.
  - destruct (integerOperands "LHS" lhs rhs) as [[l r] | |]; try discriminate.
    intros Heq; inversion Heq. do 4 right. do 3 eexists. reflexivity.
Qed.

(** C1. The combining iterators built for n / m, n = m (integer operands)
    and v = v (float operands) panic on a nil pointer when the left upstream
    is exhausted and the right one still produces a point: no Nil point with
    the metadata of the right operand comes out. The iterators built for
    v + v and n + m do return that point, and all five return a Nil point
    with the metadata of the left operand when the right upstream is the one
    that is exhausted. *)
Theorem C1_left_exhausted_operand_panics :
  let b := Examples.integerPoint 3 false in
  let fb := Examples.floatPoint 3%float false in
  (exists itr,
      buildTransformIterator (Examples.integerItr 0) (Examples.integerItr 1) DIV = Ok itr
      /\ apply_integer_fn itr None (Some b) = Some (Panic PanicNilDereference)
      /\ apply_integer_fn itr (Some b) None
         = Some (Ok (Some (AnyFloat (set_Nil (point_like b float64_zero))))))
  /\ (exists itr,
      buildTransformIterator (Examples.integerItr 0) (Examples.integerItr 1) EQ = Ok itr
      /\ apply_integer_fn itr None (Some b) = Some (Panic PanicNilDereference)
      /\ apply_integer_fn itr (Some b) None
         = Some (Ok (Some (AnyBoolean (set_Nil (point_like b false))))))
  /\ (exists itr,
      buildTransformIterator (Examples.floatItr 0) (Examples.floatItr 1) EQ = Ok itr
      /\ apply_float_fn itr None (Some fb) = Some (Panic PanicNilDereference)
      /\ apply_float_fn itr (Some fb) None
         = Some (Ok (Some (AnyBoolean (set_Nil (point_like fb false))))))
  /\ (exists itr,
      buildTransformIterator (Examples.floatItr 0) (Examples.floatItr 1) ADD = Ok itr
      /\ apply_float_fn itr None (Some fb)
         = Some (Ok (Some (AnyFloat (set_Nil (set_Value fb float64_zero)))))
      /\ apply_float_fn itr (Some fb) None
         = Some (Ok (Some (AnyFloat (set_Nil (set_Value fb float64_zero))))))
  /\ (exists itr,
      buildTransformIterator (Examples.integerItr 0) (Examples.integerItr 1) ADD = Ok itr
      /\ apply_integer_fn itr None (Some b)
         = Some (Ok (Some (AnyInteger (set_Nil (set_Value b 0)))))
      /\ apply_integer_fn itr (Some b) None
         = Some (Ok (Some (AnyInteger (set_Nil (set_Value b 0)))))).
Proof.
  cbv zeta. repeat split; eexists; repeat split.
Qed.

(** ** The wraps of a call *)

Transparent buildExprIterator.

(** Read the equations between computations and their results: split the
    computations that ran before, drop the impossible cases. *)
Ltac run :=
  repeat
    (match goal with
     | Hb : (_, _) = (_, _) |- _ => inversion Hb; clear Hb; subst
     | Hb : context [match ?x with _ => _ end] |- _ =>
         first [ is_var x; destruct x | destruct x eqn:? ]
     | Hb : _ |- _ =>
         progress unfold bind, ret, fail, panic, liftOutcome, constructed in Hb
     end; try discriminate).

Lemma build_distinct H args ic opt w itr w' :
  buildExprIterator H (Call "distinct" args) ic opt w = (Ok itr, w') ->
  exists input o typ,
    itr = IntervalIterator (ConstructedIterator NewDistinctIterator input o typ) o.
Proof.
  intros Hb. cbn [buildExprIterator String.eqb Ascii.eqb Bool.eqb] in Hb.
  run. do 3 eexists. reflexivity.
Qed.

Lemma build_derivative H name args ic opt w itr w' :
  isDistinct name = false -> isDerivative name = true ->
  buildExprIterator H (Call name args) ic opt w = (Ok itr, w') ->
  exists interval input o typ,
    itr = ConstructedIterator
            (newDerivativeIterator interval (String.eqb name "non_negative_derivative"))
            input o typ.
Proof.
  unfold isDistinct, isDerivative. intros Hd Hv Hb.
  cbn [buildExprIterator] in Hb. rewrite Hd, Hv in Hb.
  run. do 4 eexists. reflexivity.
Qed.

(** Outside distinct and the derivatives, the iterator of a call is the one
    the inner switch returns, under the interval wrap and the fill wrap. *)
Lemma build_default H name args ic opt w itr w' :
  isDistinct name = false -> isDerivative name = false ->
  buildExprIterator H (Call name args) ic opt w = (Ok itr, w') ->
  exists core,
    itr = fillWrap (Call name args) (with_Expr opt (Call name args))
            (intervalWrap name (with_Expr opt (Call name args)) core).
Proof.
  unfold isDistinct, isDerivative. intros Hd Hv Hb.
  cbn [buildExprIterator] in Hb. rewrite Hd, Hv in Hb.
  unfold bind at 1 in Hb.
  match type of Hb with
  | (let (_, _) := ?m in _) = _ => destruct m as [[core | e | p] w1]
  end; try discriminate.
  inversion Hb. exists core. reflexivity.
Qed.

Lemma build_selector H name args ic opt w itr w' :
  isTopOrBottom name = true ->
  buildExprIterator H (Call name args) ic opt w = (Ok itr, w') ->
  exists c input typ,
    itr = fillWrap (Call name args) (with_Expr opt (Call name args))
            (ConstructedIterator c input (with_Expr opt (Call name args)) typ)
    /\ (2 <= List.length args)%nat.
Proof.
  unfold isTopOrBottom. intros Hn Hb.
  apply orb_true_iff in Hn. destruct Hn as [Hn | Hn]; apply String.eqb_eq in Hn; subst name;
    cbn [buildExprIterator String.eqb Ascii.eqb Bool.eqb orb] in Hb;
    destruct (List.length args <? 2)%nat eqn:Hlen;
    try (run; discriminate);
    apply Nat.ltb_ge in Hlen;
    run; do 3 eexists; (split; [reflexivity | exact Hlen]).
Qed.

Lemma interval_wrapped_fillWrap expr opt itr :
  isFillIterator itr = false ->
  interval_wrapped (fillWrap expr opt itr) = isIntervalIterator itr.
Proof.
  intros Hitr. unfold fillWrap, interval_wrapped.
  destruct (_ && _); [reflexivity |].
  destruct itr; simpl in *; try reflexivity; discriminate.
Qed.

Lemma intervalWrap_default name opt core :
  isTopOrBottom name = false ->
  intervalWrap name opt core = IntervalIterator core opt.
Proof.
  unfold isTopOrBottom, intervalWrap. intros Hn.
  apply orb_false_iff in Hn. destruct Hn as [Ht Hb]. rewrite Ht, Hb. reflexivity.
Qed.

(** C2 (amended). The iterator that buildExprIterator returns for a call is
    wrapped in NewIntervalIterator (directly, or right below the fill wrap)
    unless the call is top, bottom, derivative or non_negative_derivative;
    for these four names it carries no interval wrap. *)
Theorem C2_interval_wrap_of_calls (H : Helpers) (name : string) (args : list Expr)
  (ic : IteratorCreator) (opt : IteratorOptions) (w w' : World) (itr : Iterator) :
  buildExprIterator H (Call name args) ic opt w = (Ok itr, w') ->
  interval_wrapped itr = negb (isTopOrBottom name || isDerivative name).
Proof.
  intros Hb.
  destruct (isDistinct name) eqn:Hd.
  - apply String.eqb_eq in Hd. subst name.
    destruct (build_distinct _ _ _ _ _ _ _ Hb) as (input & o & typ & ->). reflexivity.
  - destruct (isDerivative name) eqn:Hv.
    + destruct (build_derivative _ _ _ _ _ _ _ _ Hd Hv Hb) as (iv & input & o & typ & ->).
      rewrite orb_true_r. reflexivity.
    + rewrite orb_false_r. destruct (isTopOrBottom name) eqn:Hn.
      * destruct (build_selector _ _ _ _ _ _ _ _ Hn Hb) as (c & input & typ & -> & _).
        rewrite interval_wrapped_fillWrap; reflexivity.
      * destruct (build_default _ _ _ _ _ _ _ _ Hd Hv Hb) as (core & ->).
        rewrite intervalWrap_default by exact Hn.
        rewrite interval_wrapped_fillWrap; reflexivity.
Qed.

Lemma C2_interval_wrap_of_calls_witness :
  exists itr w',
    buildExprIterator Examples.H (Call "mean" [Examples.v]) Examples.ic
      Examples.optInterval world0 = (Ok itr, w')
    /\ interval_wrapped itr = negb (isTopOrBottom "mean" || isDerivative "mean").
Proof.
  do 2 eexists. split; [vm_compute; reflexivity |].
  eapply (C2_interval_wrap_of_calls Examples.H "mean" [Examples.v] Examples.ic
            Examples.optInterval world0).
  vm_compute; reflexivity.
Defined.

(** C2, as stated, fails on derivative(v): the call is neither top nor
    bottom, buildExprIterator returns newDerivativeIterator's iterator and
    puts no interval wrap on it. *)
Lemma C2_counterexample_derivative :
  exists itr w',
    buildExprIterator Examples.H (Call "derivative" [Examples.v]) Examples.ic
      Examples.optInterval world0 = (Ok itr, w')
    /\ isTopOrBottom "derivative" = false
    /\ interval_wrapped itr = false.
Proof.
  do 2 eexists. split; [vm_compute; reflexivity |]. split; reflexivity.
Qed.

(** C7 (amended). The iterator that buildExprIterator returns for a call is
    a fill iterator exactly when the call is not distinct, derivative or
    non_negative_derivative, opt.Interval is non-zero and opt.Fill is not
    NoFill. In particular a zero interval means no fill wrap, whatever the
    fill policy. *)
Theorem C7_fill_wrap_of_calls (H : Helpers) (name : string) (args : list Expr)
  (ic : IteratorCreator) (opt : IteratorOptions) (w w' : World) (itr : Iterator) :
  buildExprIterator H (Call name args) ic opt w = (Ok itr, w') ->
  isFillIterator itr
  = negb (isDistinct name || isDerivative name)
    && (negb (IsZero (opt_Interval opt)) && negb (FillOption_eqb (opt_Fill opt) NoFill))
  /\ (IsZero (opt_Interval opt) = true -> isFillIterator itr = false).
Proof.
  intros Hb.
  assert (Hmain : isFillIterator itr
    = negb (isDistinct name || isDerivative name)
      && (negb (IsZero (opt_Interval opt)) && negb (FillOption_eqb (opt_Fill opt) NoFill))).
  { destruct (isDistinct name) eqn:Hd.
    - apply String.eqb_eq in Hd. subst name.
      destruct (build_distinct _ _ _ _ _ _ _ Hb) as (input & o & typ & ->). reflexivity.
    - destruct (isDerivative name) eqn:Hv.
      + destruct (build_derivative _ _ _ _ _ _ _ _ Hd Hv Hb) as (iv & input & o & typ & ->).
        reflexivity.
      + destruct (isTopOrBottom name) eqn:Hn.
        * destruct (build_selector _ _ _ _ _ _ _ _ Hn Hb) as (c & input & typ & -> & _).
          unfold fillWrap. simpl. destruct (_ && _); reflexivity.
        * destruct (build_default _ _ _ _ _ _ _ _ Hd Hv Hb) as (core & ->).
          rewrite intervalWrap_default by exact Hn.
          unfold fillWrap. simpl. destruct (_ && _); reflexivity. }
  split; [exact Hmain |].
  intros Hz. rewrite Hmain, Hz. simpl. apply andb_false_r.
Qed.

Lemma C7_fill_wrap_of_calls_witness :
  exists itr w',
    buildExprIterator Examples.H (Call "mean" [Examples.v]) Examples.ic
      Examples.optInterval world0 = (Ok itr, w')
    /\ isFillIterator itr
       = negb (isDistinct "mean" || isDerivative "mean")
         && (negb (IsZero (opt_Interval Examples.optInterval))
             && negb (FillOption_eqb (opt_Fill Examples.optInterval) NoFill))
    /\ (IsZero (opt_Interval Examples.optInterval) = true -> isFillIterator itr = false).
Proof.
  do 2 eexists. split; [vm_compute; reflexivity |].
  eapply (C7_fill_wrap_of_calls Examples.H "mean" [Examples.v] Examples.ic
            Examples.optInterval world0).
  vm_compute; reflexivity.
Defined.

(** C7, as stated, fails on distinct(v): with an interval of 10ns and the
    null fill policy the iterator returned is the interval iterator, without
    a fill wrap. *)
Lemma C7_counterexample_distinct :
  exists itr w',
    buildExprIterator Examples.H (Call "distinct" [Examples.v]) Examples.ic
      Examples.optInterval world0 = (Ok itr, w')
    /\ negb (IsZero (opt_Interval Examples.optInterval))
       && negb (FillOption_eqb (opt_Fill Examples.optInterval) NoFill) = true
    /\ isFillIterator itr = false.
Proof.
  do 2 eexists. split; [vm_compute; reflexivity |]. split; reflexivity.
Qed.

(** ** The arguments of top and bottom *)

(** What buildExprIterator does with a top or bottom call of two or more
    arguments, whatever the helpers. *)
Lemma selector_equation H name args ic opt w :
  isTopOrBottom name = true ->
  (2 <= List.length args)%nat ->
  buildExprIterator H (Call name args) ic opt w
  = (tags <- liftOutcome (tagIndices (interior args)
                            (opt_Aux (with_Expr opt (Call name args)))) ;;
     match args with
     | VarRef x t :: _ =>
         input <- CreateIterator H ic
                    (with_Expr (with_Expr opt (Call name args)) (VarRef x t)) ;;
         match lastArg args with
         | Some (NumberLiteral n) =>
             itr <- constructed H (selectorConstructor name n tags) input
                      (with_Expr opt (Call name args)) ;;
             ret (fillWrap (Call name args) (with_Expr opt (Call name args)) itr)
         | _ => panic PanicTypeAssertion
         end
     | _ => panic PanicTypeAssertion
     end)%go w.
Proof.
  unfold isTopOrBottom. intros Hn Hlen.
  apply orb_true_iff in Hn. apply Nat.ltb_ge in Hlen.
  destruct Hn as [Hn | Hn]; apply String.eqb_eq in Hn; subst name;
    cbn [buildExprIterator String.eqb Ascii.eqb Bool.eqb orb]; rewrite Hlen;
    unfold bind, liftOutcome; cbn [opt_Aux with_Expr];
    (destruct (tagIndices (interior args) (opt_Aux opt)) as [tags | e | p];
     [| reflexivity | reflexivity]);
    (destruct args as [| [x t | | | | | | |] rest];
     [simpl in Hlen; discriminate | | reflexivity ..]);
    cbn [buildExprIterator];
    (match goal with
     | |- context [CreateIterator ?H0 ?c ?o ?w0] =>
         destruct (CreateIterator H0 c o w0) as [[input | e | p] w1]
     end; try reflexivity);
    (destruct (lastArg (VarRef x t :: rest)) as [[| | | | n | | |] |]; try reflexivity);
    unfold constructed, selectorConstructor; simpl;
    match goal with
    | |- context [construct ?H0 ?c ?i ?o] => destruct (construct H0 c i o)
    end; reflexivity.
Qed.

(** C5. For top and for bottom. With fewer than 2 arguments construction
    fails, before anything is built, with the error "top() requires 2 or
    more arguments, got N" (resp. bottom()). With 2 or more arguments the
    planner itself makes no test on N: it looks up the interior arguments,
    which must be VarRefs, builds the input from the first argument, which
    must be a VarRef, asserts that the last argument is a number literal
    and hands its value to newTopIterator (resp. newBottomIterator), whose
    answer it returns; an assertion that fails is a panic. With the
    constructors modelled from the spec, a call that is built has a last
    argument that is a number literal holding a whole number N >= 1, and
    top(x, 0) is not built: once the input is there it is rejected with the
    validation error. *)
Theorem C5_selector_arguments (name : string) :
  isTopOrBottom name = true ->
  (forall H args ic opt w,
     (List.length args < 2)%nat ->
     buildExprIterator H (Call name args) ic opt w
     = (Err (tooFewArguments name (List.length args)), w)
     /\ message_head (tooFewArguments name (List.length args))
        = name ++ "() requires 2 or more arguments, got ")
  /\ (forall H args ic opt w,
        (2 <= List.length args)%nat ->
        buildExprIterator H (Call name args) ic opt w
        = (tags <- liftOutcome (tagIndices (interior args)
                                  (opt_Aux (with_Expr opt (Call name args)))) ;;
           match args with
           | VarRef x t :: _ =>
               input <- CreateIterator H ic
                          (with_Expr (with_Expr opt (Call name args)) (VarRef x t)) ;;
               match lastArg args with
               | Some (NumberLiteral n) =>
                   itr <- constructed H (selectorConstructor name n tags) input
                            (with_Expr opt (Call name args)) ;;
                   ret (fillWrap (Call name args) (with_Expr opt (Call name args)) itr)
               | _ => panic PanicTypeAssertion
               end
           | _ => panic PanicTypeAssertion
           end)%go w)
  /\ (forall H args ic opt w itr w',
        buildExprIterator H (Call name args) ic opt w = (Ok itr, w') ->
        (2 <= List.length args)%nat
        /\ exists n tags input typ,
             lastArg args = Some (NumberLiteral n)
             /\ tagIndices (interior args) (opt_Aux opt) = Ok tags
             /\ construct H (selectorConstructor name n tags) input
                  (with_Expr opt (Call name args)) = inr typ
             /\ itr = fillWrap (Call name args) (with_Expr opt (Call name args))
                        (ConstructedIterator (selectorConstructor name n tags) input
                           (with_Expr opt (Call name args)) typ))
  /\ (forall fieldType args ic opt w itr w',
        buildExprIterator (Modelled.helpers fieldType) (Call name args) ic opt w
        = (Ok itr, w') ->
        exists n,
          lastArg args = Some (NumberLiteral n)
          /\ Modelled.isWhole n = true /\ (1 <=? n)%float = true)
  /\ (forall fieldType x t n ic opt w,
        Modelled.validN n = false ->
        let expr := Call name [VarRef x t; NumberLiteral n] in
        buildExprIterator (Modelled.helpers fieldType) expr ic opt w
        = (input <- CreateIterator (Modelled.helpers fieldType) ic
                      (with_Expr (with_Expr opt expr) (VarRef x t)) ;;
           fail (ErrExternal (Modelled.invalidN name)))%go w)
  /\ Modelled.validN 0%float = false.
Proof.
  intros Hn.
  assert (Hbuilt : forall H args ic opt w itr w',
             buildExprIterator H (Call name args) ic opt w = (Ok itr, w') ->
             (2 <= List.length args)%nat
             /\ exists n tags input typ,
                  lastArg args = Some (NumberLiteral n)
                  /\ tagIndices (interior args) (opt_Aux opt) = Ok tags
                  /\ construct H (selectorConstructor name n tags) input
                       (with_Expr opt (Call name args)) = inr typ
                  /\ itr = fillWrap (Call name args) (with_Expr opt (Call name args))
                             (ConstructedIterator (selectorConstructor name n tags) input
                                (with_Expr opt (Call name args)) typ)).
  { intros H args ic opt w itr w' Hb.
    destruct (build_selector _ _ _ _ _ _ _ _ Hn Hb) as (_ & _ & _ & _ & Hlen).
    split; [exact Hlen |].
    rewrite (selector_equation H name args ic opt w Hn Hlen) in Hb.
    unfold bind, liftOutcome in Hb. cbn [opt_Aux with_Expr] in Hb.
    destruct (tagIndices (interior args) (opt_Aux opt)) as [tags | e | p];
      try discriminate.
    destruct args as [| [x t | | | | | | |] rest]; try discriminate.
    match type of Hb with
    | context [CreateIterator ?H0 ?c ?o ?w0] =>
        destruct (CreateIterator H0 c o w0) as [[input | e | p] w1]
    end; try discriminate.
    destruct (lastArg (VarRef x t :: rest)) as [[| | | | n | | |] |]; try discriminate.
    unfold constructed in Hb.
    destruct (construct H (selectorConstructor name n tags) input
                (with_Expr opt (Call name (VarRef x t :: rest)))) as [msg | typ] eqn:Hc;
      try discriminate.
    inversion Hb; subst. exists n, tags, input, typ. repeat split; trivial. }
  split; [| split; [| split; [exact Hbuilt | split; [| split; [| reflexivity]]]]].
  - intros H args ic opt w Hlen. apply Nat.ltb_lt in Hlen.
    unfold isTopOrBottom in Hn. apply orb_true_iff in Hn.
    destruct Hn as [Hn | Hn]; apply String.eqb_eq in Hn; subst name;
      cbn [buildExprIterator String.eqb Ascii.eqb Bool.eqb orb]; rewrite Hlen;
      split; reflexivity.
  - intros H args ic opt w Hlen. apply selector_equation; assumption.
  - intros fieldType args ic opt w itr w' Hb.
    destruct (Hbuilt _ _ _ _ _ _ _ Hb) as (_ & n & tags & input & typ & Hlast & _ & Hc & _).
    exists n. split; [exact Hlast |].
    unfold isTopOrBottom in Hn. apply orb_true_iff in Hn.
    destruct Hn as [Hn | Hn]; apply String.eqb_eq in Hn; subst name;
      simpl in Hc; unfold Modelled.validN in Hc;
      destruct (Modelled.isWhole n); destruct (1 <=? n)%float; try discriminate;
      split; reflexivity.
  - intros fieldType x t n ic opt w Hv expr. unfold expr.
    rewrite (selector_equation (Modelled.helpers fieldType) name
               [VarRef x t; NumberLiteral n] ic opt w Hn (le_n 2)).
    unfold isTopOrBottom in Hn. apply orb_true_iff in Hn.
    destruct Hn as [Hn | Hn]; apply String.eqb_eq in Hn; subst name;
      unfold bind, liftOutcome; simpl;
      match goal with
      | |- context [CreateIterator ?H0 ?c ?o ?w0] =>
          destruct (CreateIterator H0 c o w0) as [[input | e | p] w1]
      end; try reflexivity;
      unfold constructed; simpl; rewrite Hv; reflexivity.
Qed.

Lemma C5_selector_arguments_witness :
  (forall args,
     (List.length args < 2)%nat ->
     buildExprIterator Examples.H (Call "top" args) Examples.ic Examples.optRaw world0
     = (Err (ErrTopArguments (List.length args)), world0))
  /\ buildExprIterator Examples.H (Call "top" [Examples.v; NumberLiteral 0%float])
       Examples.ic Examples.optRaw world0
     = (Err (ErrExternal "top(): the last argument must be an integer literal N >= 1"),
        {| w_next := 1; w_log := [EvCreateIterator 0] |})
  /\ exists itr w',
       buildExprIterator Examples.H (Call "top" [Examples.v; NumberLiteral 3%float])
         Examples.ic Examples.optRaw world0 = (Ok itr, w')
       /\ exists n,
            lastArg [Examples.v; NumberLiteral 3%float] = Some (NumberLiteral n)
            /\ Modelled.isWhole n = true /\ (1 <=? n)%float = true.
Proof.
  destruct (C5_selector_arguments "top" eq_refl) as (Hfew & _ & _ & Hmodel & Hinvalid & Hzero).
  split; [| split].
  - intros args Hlen. exact (proj1 (Hfew Examples.H args Examples.ic Examples.optRaw world0 Hlen)).
  - etransitivity;
      [exact (Hinvalid Examples.fieldType "v" Float 0%float Examples.ic Examples.optRaw
                world0 Hzero) |].
    vm_compute. reflexivity.
  - destruct (buildExprIterator Examples.H (Call "top" [Examples.v; NumberLiteral 3%float])
                Examples.ic Examples.optRaw world0) as [[itr | e | p] w'] eqn:Hb;
      try (vm_compute in Hb; discriminate).
    exists itr, w'. split; [reflexivity |].
    exact (Hmodel Examples.fieldType _ Examples.ic Examples.optRaw world0 itr w' Hb).
Defined.

(* ================================================================== *)
(** * Further properties of the planner *)

(** ** A property of computations that buildExprIterator preserves *)

Section BuildInvariant.

Variable H : Helpers.
Variable ic : IteratorCreator.
Variable P : forall A : Type, M A -> Prop.

Hypothesis P_ret : forall A (a : A), P A (ret a).
Hypothesis P_fail : forall A (e : error), P A (fail e).
Hypothesis P_panic : forall A (p : PanicValue), P A (panic p).
Hypothesis P_bind : forall A B (m : M A) (k : A -> M B),
  P A m -> (forall a, P B (k a)) -> P B (bind m k).
Hypothesis P_CreateIterator : forall opt, P Iterator (CreateIterator H ic opt).

Lemma P_liftOutcome A (o : Outcome A) : P A (liftOutcome o).
Proof.
  destruct o as [a | e | p].
  - exact (P_ret A a).
  - exact (P_fail A e).
  - exact (P_panic A p).
Qed.

Lemma P_constructed c input opt : P Iterator (constructed H c input opt).
Proof.
  unfold constructed. destruct (construct H c input opt).
  - apply P_fail.
  - apply P_ret.
Qed.

Ltac invariant_step :=
  first
    [ assumption
    | apply P_ret
    | apply P_CreateIterator
    | apply P_constructed
    | apply P_fail
    | apply P_panic
    | apply P_liftOutcome
    | apply P_bind; [ | intros ? ]
    | match goal with
      | |- P _ (if ?c then _ else _) => destruct c
      | |- P _ (match ?x with _ => _ end) => destruct x
      end ].

(** Whatever holds of ret, fail, panic and of the requests to the iterator
    creator, and passes through sequencing, holds of buildExprIterator. *)
Lemma buildExprIterator_invariant (e : Expr) :
  forall opt, P Iterator (buildExprIterator H e ic opt).
Proof.
  induction e using Expr_nested_ind; intros opt.
  - apply P_CreateIterator.
  - assert (Hhead : match args with
                    | [] => True
                    | a :: _ => forall opt, P Iterator (buildExprIterator H a ic opt)
                    end).
    { destruct args; trivial. inversion H0; assumption. }
    clear H0. cbn [buildExprIterator].
    destruct args as [| a rest].
    + repeat invariant_step.
    + repeat first [ apply Hhead | invariant_step ].
  - cbn [buildExprIterator].
    repeat first [ apply IHe1 | apply IHe2 | invariant_step ].
  - cbn [buildExprIterator]. apply IHe.
  - apply P_fail.
  - apply P_fail.
  - apply P_fail.
  - apply P_fail.
Qed.

End BuildInvariant.

(** ** buildExprIterator only creates storage iterators *)

Lemma after_creations_0 (w : World) : after_creations 0 w = w.
Proof.
  destruct w as [n l]. unfold after_creations, creations. simpl.
  rewrite Nat.add_0_r. reflexivity.
Qed.

Lemma after_creations_add (k1 k2 : nat) (w : World) :
  after_creations k2 (after_creations k1 w) = after_creations (k1 + k2) w.
Proof.
  unfold after_creations, creations. simpl. f_equal; [lia |].
  rewrite seq_app, rev_app_distr, map_app, app_assoc. reflexivity.
Qed.

Lemma closed_after_creations (k : nat) (w : World) :
  closed (after_creations k w) = closed w.
Proof.
  unfold closed, after_creations, creations. simpl. rewrite flat_map_app.
  induction (rev (seq (w_next w) k)) as [| x l IH]; simpl; trivial.
Qed.

Lemma created_after_creations (k : nat) (w : World) :
  created (after_creations k w) = (rev (seq (w_next w) k) ++ created w)%list.
Proof.
  unfold created, after_creations, creations. simpl. rewrite flat_map_app. f_equal.
  induction (rev (seq (w_next w) k)) as [| x l IH]; simpl; congruence.
Qed.

Lemma only_creates_bind A B (m : M A) (k : A -> M B) :
  only_creates A m -> (forall a, only_creates B (k a)) -> only_creates B (bind m k).
Proof.
  intros Hm Hk w. unfold bind. destruct (Hm w) as [k1 H1].
  destruct (m w) as [[a | e | p] w1]; simpl in H1; subst w1.
  - destruct (Hk a (after_creations k1 w)) as [k2 H2].
    exists (k1 + k2)%nat. rewrite H2. apply after_creations_add.
  - exists k1. reflexivity.
  - exists k1. reflexivity.
Qed.

Lemma only_creates_CreateIterator H ic opt : only_creates Iterator (CreateIterator H ic opt).
Proof.
  intros w. destruct ic as [s | aitr]; simpl.
  - destruct (storage_CreateIterator s (w_next w) opt).
    + exists 0%nat. simpl. symmetry. apply after_creations_0.
    + exists 1%nat. simpl. unfold after_creations, creations. simpl.
      rewrite Nat.add_1_r. reflexivity.
  - exists 0%nat. rewrite after_creations_0.
    destruct (opt_Expr opt) as [[] |]; simpl; trivial;
      destruct (auxCreateOther H aitr opt); reflexivity.
Qed.

(** X1. Whatever the expression and whatever the outcome (iterator, error
    or panic), buildExprIterator changes the world in one way only: some
    number k of storage iterators are handed out, numbered consecutively.
    It starts nothing and closes nothing, so after an error or a panic every
    iterator it had created is still open. *)
Theorem buildExprIterator_only_creates (H : Helpers) (e : Expr) (ic : IteratorCreator)
  (opt : IteratorOptions) (w : World) :
  exists k,
    snd (buildExprIterator H e ic opt w) = after_creations k w
    /\ closed (snd (buildExprIterator H e ic opt w)) = closed w
    /\ created (snd (buildExprIterator H e ic opt w))
       = (rev (seq (w_next w) k) ++ created w)%list.
Proof.
  assert (Hinv : only_creates Iterator (buildExprIterator H e ic opt)).
  { apply (buildExprIterator_invariant H ic only_creates).
    - intros A a w0. exists 0%nat. symmetry. apply after_creations_0.
    - intros A e0 w0. exists 0%nat. symmetry. apply after_creations_0.
    - intros A p w0. exists 0%nat. symmetry. apply after_creations_0.
    - apply only_creates_bind.
    - apply only_creates_CreateIterator. }
  destruct (Hinv w) as [k Hk]. exists k. rewrite Hk.
  split; [reflexivity |]. split.
  - apply closed_after_creations.
  - apply created_after_creations.
Qed.

(** ** The aux iterator as iterator creator *)

Lemma silent_bind A B (m : M A) (k : A -> M B) :
  silent A m -> (forall a, silent B (k a)) -> silent B (bind m k).
Proof.
  intros Hm Hk w. unfold bind. specialize (Hm w).
  destruct (m w) as [[a | e | p] w1]; simpl in Hm; subst w1; trivial. apply Hk.
Qed.

Lemma silent_CreateIterator_aux H aitr opt :
  silent Iterator (CreateIterator H (AuxCreator aitr) opt).
Proof.
  intros w. simpl. destruct (opt_Expr opt) as [[] |]; simpl; trivial;
    destruct (auxCreateOther H aitr opt); reflexivity.
Qed.

Lemma silent_buildExprIterator_aux H e aitr opt :
  silent Iterator (buildExprIterator H e (AuxCreator aitr) opt).
Proof.
  apply (buildExprIterator_invariant H (AuxCreator aitr) silent).
  - intros A a w0. reflexivity.
  - intros A e0 w0. reflexivity.
  - intros A p w0. reflexivity.
  - apply silent_bind.
  - apply silent_CreateIterator_aux.
Qed.

(** X2. Built against the aux iterator, an expression asks nothing of the
    storage: whatever the expression and the outcome, the world is the same
    after buildExprIterator as before. *)
Theorem buildExprIterator_on_aux_is_silent (H : Helpers) (e : Expr) (aitr : Iterator)
  (opt : IteratorOptions) (w : World) :
  snd (buildExprIterator H e (AuxCreator aitr) opt w) = w.
Proof.
  revert w. change (silent Iterator (buildExprIterator H e (AuxCreator aitr) opt)).
  apply (buildExprIterator_invariant H (AuxCreator aitr) silent).
  - intros A a w0. reflexivity.
  - intros A e0 w0. reflexivity.
  - intros A p w0. reflexivity.
  - intros A B m k Hm Hk w0. unfold bind. specialize (Hm w0).
    destruct (m w0) as [[a | e0 | p] w1]; simpl in Hm; subst w1; trivial. apply Hk.
  - intros opt0 w0. simpl. destruct (opt_Expr opt0) as [[] |]; simpl; trivial;
      destruct (auxCreateOther H aitr opt0); reflexivity.
Qed.

Opaque buildExprIterator.

Lemma auxFieldLoop_silent H fields :
  forall aitr opt w,
    snd (auxFieldLoop H fields aitr opt w) = w
    /\ forall itrs, fst (auxFieldLoop H fields aitr opt w) = Ok itrs ->
                    List.length itrs = List.length fields.
Proof.
  induction fields as [| f rest IH]; intros aitr opt w; simpl.
  - split; [reflexivity |]. intros itrs Heq. inversion Heq. reflexivity.
  - unfold bind at 1.
    assert (Hstep : forall (r : Outcome Iterator * World), snd r = w ->
              snd (let (o, w') := r in
                   match o with
                   | Ok a => (itrs <- auxFieldLoop H rest aitr opt;; ret (a :: itrs))%go w'
                   | Err e => (Err e, w')
                   | Panic p => (Panic p, w')
                   end) = w
              /\ forall itrs,
                   fst (let (o, w') := r in
                        match o with
                        | Ok a => (itrs <- auxFieldLoop H rest aitr opt;; ret (a :: itrs))%go w'
                        | Err e => (Err e, w')
                        | Panic p => (Panic p, w')
                        end) = Ok itrs ->
                   List.length itrs = S (List.length rest)).
    { intros r Hr. destruct r as [[a | e | p] w1]; simpl in Hr; subst w1;
        simpl; try (split; [reflexivity | discriminate]).
      unfold bind. destruct (IH aitr opt w) as [Hw Hlen].
      destruct (auxFieldLoop H rest aitr opt w) as [[itrs | e | p] w1];
        simpl in *; subst w1; (split; [reflexivity |]); try discriminate.
      intros itrs' Heq. inversion Heq. simpl. f_equal. apply Hlen. reflexivity. }
    destruct (Reduce H (field_Expr f)) eqn:Ered; try (apply Hstep; reflexivity).
    apply Hstep.
    match goal with |- context [buildExprIterator H ?e ?c opt w] =>
      pose proof (silent_buildExprIterator_aux H e aitr opt w) as Hs;
      destruct (buildExprIterator H e c opt w) as [[itr | e' | p] w'] end;
      simpl in *; exact Hs.
Qed.

(** buildAuxIterators against a storage, case by case. *)
Lemma buildAuxIterators_cases (H : Helpers) (fields : Fields) (s : Storage)
  (opt : IteratorOptions) (w : World) :
  buildAuxIterators H fields (StorageCreator s) opt w
  = match storage_CreateIterator s (w_next w) opt with
    | inl msg => (Err (ErrExternal msg), w)
    | inr typ =>
        let input := auxInput opt (StorageIterator (w_next w) typ opt) in
        let w1 := {| w_next := S (w_next w);
                     w_log := EvCreateIterator (w_next w) :: w_log w |} in
        match storage_SeriesKeys s opt with
        | inl msg => (Err (ErrExternal msg), snd (Close input w1))
        | inr keys =>
            match auxFieldLoop H fields (NewAuxIterator input keys opt) opt w1 with
            | (Ok itrs, w2) => (Ok itrs, log_events [EvBackground] w2)
            | (Err e, w2) => (Err e, w2)
            | (Panic p, w2) => (Panic p, w2)
            end
        end
    end.
Proof.
  unfold buildAuxIterators, auxInput, bind, CreateIterator, SeriesKeys, lift, tell, ret.
  destruct (storage_CreateIterator s (w_next w) opt) as [msg | typ]; [reflexivity |].
  cbv zeta. destruct (storage_SeriesKeys s opt) as [msg | keys]; [reflexivity |].
  simpl.
  match goal with |- context [auxFieldLoop H fields ?a opt ?w0] =>
    destruct (auxFieldLoop H fields a opt w0) as [[itrs | e | p] w2] end; reflexivity.
Qed.

(** X3. The aux pipeline reads the storage through one iterator: run
    against a storage, buildAuxIterators asks it for at most one iterator,
    whatever the fields are. When it succeeds it returns one iterator per
    field, and all that happened is that one storage iterator was created
    and the aux iterator was sent to the background. *)
Theorem buildAuxIterators_single_request (H : Helpers) (fields : Fields) (s : Storage)
  (opt : IteratorOptions) (w : World) :
  let r := buildAuxIterators H fields (StorageCreator s) opt w in
  (w_next (snd r) <= S (w_next w))%nat
  /\ forall itrs,
       fst r = Ok itrs ->
       List.length itrs = List.length fields
       /\ snd r = {| w_next := S (w_next w);
                     w_log := EvBackground :: EvCreateIterator (w_next w) :: w_log w |}.
Proof.
  cbv zeta. rewrite buildAuxIterators_cases.
  destruct (storage_CreateIterator s (w_next w) opt) as [msg | typ]; simpl.
  - split; [lia | discriminate].
  - destruct (storage_SeriesKeys s opt) as [msg | keys]; simpl.
    + split; [lia | discriminate].
    + match goal with |- context [auxFieldLoop H fields ?a opt ?w0] =>
        destruct (auxFieldLoop_silent H fields a opt w0) as [Hw Hlen];
        destruct (auxFieldLoop H fields a opt w0) as [[itrs | e | p] w1] end;
        simpl in *; subst w1; simpl; (split; [lia |]); try discriminate.
      intros itrs' Heq. inversion Heq; subst itrs'.
      split; [apply Hlen; reflexivity | reflexivity].
Qed.

Lemma buildAuxIterators_single_request_witness :
  exists itrs,
    fst (buildAuxIterators Examples.H Inputs.fields_v_n2 (StorageCreator Examples.storage)
           Examples.optRaw world0) = Ok itrs
    /\ List.length itrs = List.length Inputs.fields_v_n2
    /\ snd (buildAuxIterators Examples.H Inputs.fields_v_n2 (StorageCreator Examples.storage)
              Examples.optRaw world0)
       = {| w_next := S (w_next world0);
            w_log := EvBackground :: EvCreateIterator (w_next world0) :: w_log world0 |}.
Proof.
  eexists. split; [vm_compute; reflexivity |].
  apply (proj2 (buildAuxIterators_single_request Examples.H Inputs.fields_v_n2
                  Examples.storage Examples.optRaw world0)).
  vm_compute; reflexivity.
Defined.

(** X4. When SeriesKeys fails after the storage has handed out the input
    iterator, buildAuxIterators returns that error and the iterator it had
    created is closed: nothing is left open, and no field is built. *)
Theorem buildAuxIterators_closes_input_when_SeriesKeys_fails (H : Helpers)
  (fields : Fields) (s : Storage) (opt : IteratorOptions) (w : World)
  (typ : DataType) (msg : ExternalError) :
  storage_CreateIterator s (w_next w) opt = inr typ ->
  storage_SeriesKeys s opt = inl msg ->
  let r := buildAuxIterators H fields (StorageCreator s) opt w in
  fst r = Err (ErrExternal msg)
  /\ created (snd r) = w_next w :: created w
  /\ closed (snd r) = w_next w :: closed w.
Proof.
  intros Hc Hk. cbv zeta. rewrite buildAuxIterators_cases, Hc, Hk. cbv zeta.
  split; [reflexivity |].
  assert (Hup : upstreams (auxInput opt (StorageIterator (w_next w) typ opt)) = [w_next w]).
  { unfold auxInput. destruct (opt_Dedupe opt), (_ || _); reflexivity. }
  unfold Close, tell. simpl. rewrite Hup. split; reflexivity.
Qed.

Lemma buildAuxIterators_closes_input_when_SeriesKeys_fails_witness :
  let r := buildAuxIterators Examples.H Inputs.fields_v_n2
             (StorageCreator Inputs.storageWithoutSeries) Examples.optRaw world0 in
  fst r = Err (ErrExternal "series unavailable")
  /\ created (snd r) = w_next world0 :: created world0
  /\ closed (snd r) = w_next world0 :: closed world0.
Proof.
  apply (buildAuxIterators_closes_input_when_SeriesKeys_fails Examples.H
           Inputs.fields_v_n2 Inputs.storageWithoutSeries Examples.optRaw world0
           Float "series unavailable"); reflexivity.
Defined.

(** ** The field pipeline *)

(** X5. When the field pipeline fails, every iterator that its slice holds
    at that moment is closed before the error is returned: each storage
    iterator below such an iterator is among the closed ones. *)
Theorem buildFieldIterators_error_closes_slice (H : Helpers) (fields : Fields)
  (ic : IteratorCreator) (opt : IteratorOptions) (w w' : World) (err : error) :
  buildFieldIterators H fields ic opt w = (Err err, w') ->
  exists itrs w1,
    fieldClosure H fields ic opt w = (Err err, itrs, w1)
    /\ (forall itr id,
          In itr (filterNonNil itrs) -> In id (upstreams itr) -> In id (closed w'))
    /\ (forall id, In id (closed w') ->
          In id (closed w1)
          \/ exists itr, In itr (filterNonNil itrs) /\ In id (upstreams itr)).
Proof.
  unfold buildFieldIterators.
  destruct (fieldClosure H fields ic opt w) as [[[u | e | p] itrs] w1] eqn:Ec.
  - destruct (_ || _); discriminate.
  - intros Heq. inversion Heq; subst. exists itrs, w1. split; [reflexivity |]. split.
    + intros itr id Hitr Hid. apply closed_Iterators_Close. left. eauto.
    + intros id Hid. apply closed_Iterators_Close in Hid. tauto.
  - discriminate.
Qed.

Lemma buildFieldIterators_error_closes_slice_witness :
  exists itrs w1,
    fieldClosure Examples.H Inputs.fields_sum_mean
      (StorageCreator Examples.storageFailingAfterFirst) Examples.optRaw world0
    = (Err (ErrExternal "shard unavailable"), itrs, w1)
    /\ (forall itr id,
          In itr (filterNonNil itrs) -> In id (upstreams itr) ->
          In id (closed {| w_next := 1; w_log := [EvClose 0; EvCreateIterator 0] |}))
    /\ (forall id,
          In id (closed {| w_next := 1; w_log := [EvClose 0; EvCreateIterator 0] |}) ->
          In id (closed w1)
          \/ exists itr, In itr (filterNonNil itrs) /\ In id (upstreams itr)).
Proof.
  apply (buildFieldIterators_error_closes_slice Examples.H Inputs.fields_sum_mean
           (StorageCreator Examples.storageFailingAfterFirst) Examples.optRaw world0).
  vm_compute; reflexivity.
Defined.

Lemma store_length {A} (i : nat) (x : A) (l : list A) :
  List.length (store i x l) = List.length l.
Proof.
  revert i. induction l as [| y l IH]; intros i; destruct i; simpl; congruence.
Qed.

Lemma firstPass_length H fields :
  forall i ic opt st w,
    List.length (fs_itrs (snd (fst (firstPass H fields i ic opt st w))))
    = List.length (fs_itrs st).
Proof.
  induction fields as [| f rest IH]; intros i ic opt st w; simpl; trivial.
  destruct (ContainsVarRef H (field_Expr f)); [rewrite IH; reflexivity |].
  destruct (buildExprIterator H (Reduce H (field_Expr f)) ic opt w) as [[itr | e | p] w'];
    simpl; trivial.
  rewrite IH. simpl. apply store_length.
Qed.

Lemma secondPass_length H fields :
  forall i aitr opt itrs w,
    List.length (snd (fst (secondPass H fields i aitr opt itrs w))) = List.length itrs.
Proof.
  induction fields as [| f rest IH]; intros i aitr opt itrs w; simpl; trivial.
  destruct (nth i itrs None).
  - rewrite IH. apply store_length.
  - destruct (buildExprIterator H (Reduce H (field_Expr f)) (AuxCreator aitr) opt w)
      as [[itr | e | p] w']; simpl; trivial.
    rewrite IH. apply store_length.
Qed.

Lemma fieldClosure_length H fields ic opt w :
  List.length (snd (fst (fieldClosure H fields ic opt w))) = List.length fields.
Proof.
  unfold fieldClosure.
  match goal with |- context [firstPass H fields 0 ic opt ?st w] =>
    pose proof (firstPass_length H fields 0 ic opt st w) as H1;
    destruct (firstPass H fields 0 ic opt st w) as [[[u | e | p] st1] w1] end;
    simpl in H1; rewrite repeat_length in H1; simpl; trivial.
  destruct (fs_input st1) as [input |]; simpl; trivial.
  destruct (fs_hasAuxFields st1); simpl; trivial.
  destruct (SeriesKeys H ic opt w1) as [[keys | e | p] w2]; simpl; trivial.
  match goal with |- context [secondPass H fields 0 ?a opt ?l w2] =>
    pose proof (secondPass_length H fields 0 a opt l w2) as H2;
    destruct (secondPass H fields 0 a opt l w2) as [[[u' | e | p] l'] w3] end;
    simpl in *; congruence.
Qed.



(** ** Calls and parentheses *)

Transparent buildExprIterator.

(** X7. A call whose name is none of the sixteen the planner knows makes
    buildExprIterator fail with "unsupported call: <name>", whatever its
    arguments, and nothing is asked of the iterator creator. *)
Theorem buildExprIterator_unsupported_call (H : Helpers) (name : string)
  (args : list Expr) (ic : IteratorCreator) (opt : IteratorOptions) (w : World) :
  isSupportedCall name = false ->
  buildExprIterator H (Call name args) ic opt w = (Err (ErrUnsupportedCall name), w)
  /\ message_head (ErrUnsupportedCall name) = "unsupported call: ".
Proof.
  unfold isSupportedCall, supportedCalls. cbn [existsb]. intros Hn.
  repeat (apply orb_false_iff in Hn; destruct Hn as [? Hn]).
  split; [| reflexivity].
  cbn [buildExprIterator].
  repeat match goal with Hq : String.eqb name _ = false |- _ => rewrite Hq; clear Hq end.
  reflexivity.
Qed.

Lemma buildExprIterator_unsupported_call_witness :
  buildExprIterator Examples.H (Call "moving_average" [Examples.v]) Examples.ic
    Examples.optRaw world0
  = (Err (ErrUnsupportedCall "moving_average"), world0)
  /\ message_head (ErrUnsupportedCall "moving_average") = "unsupported call: ".
Proof.
  apply (buildExprIterator_unsupported_call Examples.H "moving_average" [Examples.v]
           Examples.ic Examples.optRaw world0).
  reflexivity.
Defined.

(** X8. buildExprIterator never reads the Expr of the options it is given:
    it overwrites it with the expression it builds. Hence parentheses around
    an expression change neither the iterator that is built, nor the
    outcome, nor the requests made. *)
Theorem buildExprIterator_ignores_incoming_Expr (H : Helpers) (e : Expr)
  (ic : IteratorCreator) (opt : IteratorOptions) (w : World) :
  (forall e0, buildExprIterator H e ic (with_Expr opt e0) w = buildExprIterator H e ic opt w)
  /\ buildExprIterator H (ParenExpr e) ic opt w = buildExprIterator H e ic opt w.
Proof.
  assert (Hany : forall e0,
             buildExprIterator H e ic (with_Expr opt e0) w = buildExprIterator H e ic opt w).
  { intros e0. destruct e; reflexivity. }
  split; [exact Hany |].
  cbn [buildExprIterator]. apply Hany.
Qed.

(** ** The types of the transform iterators *)

(** X9. buildTransformIterator returns an iterator exactly when both
    operands are Float or Integer iterators and the operator is one of the
    ten of the tables; it never panics. The iterator it returns is Boolean
    for a comparison, Integer for + - * on two Integer operands, and Float
    in every other case (a division, or a Float operand on either side). *)
Theorem buildTransformIterator_types (lhs rhs : Iterator) (op : Token) :
  match buildTransformIterator lhs rhs op with
  | Ok itr =>
      isNumeric (iteratorDataType lhs) && isNumeric (iteratorDataType rhs)
      && isOperator op = true
      /\ iteratorDataType itr
         = combinedType (iteratorDataType lhs) (iteratorDataType rhs) op
  | Err _ =>
      isNumeric (iteratorDataType lhs) && isNumeric (iteratorDataType rhs)
      && isOperator op = false
  | Panic _ => False
  end.
Proof.
  unfold buildTransformIterator, floatOperands, integerOperands, toFloatIterator,
    toIntegerIterator.
  destruct (iteratorDataType lhs), (iteratorDataType rhs), op; simpl; auto.
Qed.

(** X10. buildRHSTransformIterator and buildLHSTransformIterator return an
    iterator exactly when the iterator operand is Float or Integer, the
    literal is a number literal and the operator is one of the ten. The
    result is Boolean for a comparison and Float otherwise, also on an
    Integer operand. Its closure maps nil to nil and returns, for a point, a
    point with the same name, tags, time, aux values and Nil flag. *)
Theorem literal_transform_iterators (itr0 : Iterator) (lit : Expr) (op : Token) :
  let accepted := isNumeric (iteratorDataType itr0) && isNumberLiteral lit && isOperator op in
  let good (o : Outcome Iterator) :=
    match o with
    | Ok itr =>
        accepted = true
        /\ iteratorDataType itr = literalCombinedType op
        /\ apply_transform_fn itr None = Some None
        /\ forall p : FloatPoint,
             exists q, apply_transform_fn itr (Some p) = Some (Some q)
                       /\ any_header q = (Name p, Tags p, Time p, Aux p, Nil p)
    | Err _ => accepted = false
    | Panic _ => False
    end in
  good (buildRHSTransformIterator itr0 lit op)
  /\ good (buildLHSTransformIterator lit itr0 op).
Proof.
  cbv zeta.
  unfold buildRHSTransformIterator, buildLHSTransformIterator, toFloatIterator.
  split; destruct (iteratorDataType itr0) eqn:Ht, lit, op; simpl; auto;
    repeat split; try rewrite Ht; auto;
    intros p; destruct (Nil p) eqn:Hn; eexists;
    (split; [reflexivity | simpl; rewrite ?Hn; reflexivity]).
Qed.

(** ** The tag positions of top and bottom *)

Lemma indexOf_spec (name : string) (aux : list string) :
  forall k,
    match indexOf name aux k with
    | Some i => (k <= i)%nat /\ nth_error aux (i - k) = Some name
                /\ forall j, (j < i - k)%nat -> nth_error aux j <> Some name
    | None => ~ In name aux
    end.
Proof.
  induction aux as [| a rest IH]; intros k; simpl; [tauto |].
  destruct (String.eqb_spec a name) as [-> | Hne].
  - rewrite Nat.sub_diag. simpl. repeat split; trivial. intros j Hj. lia.
  - specialize (IH (S k)). destruct (indexOf name rest (S k)) as [i |].
    + destruct IH as (Hle & Hnth & Hfirst).
      replace (i - k)%nat with (S (i - S k)) by lia. simpl.
      repeat split; [lia | exact Hnth |].
      intros [| j] Hj; simpl; [congruence | apply Hfirst; lia].
    + intros [Heq | Hin]; [congruence | tauto].
Qed.

(** X11. The loop that looks up the interior arguments of top and bottom in
    opt.Aux panics on the type assertion exactly when an argument is not a
    VarRef. Otherwise each index it returns is the first position of the name
    of one of the arguments in opt.Aux; a name that is not in opt.Aux is
    skipped without an error, so there are at most as many indices as
    arguments, and exactly as many when every name is in opt.Aux. *)
Theorem tagIndices_lookup (args : list Expr) (aux : list string) :
  match tagIndices args aux with
  | Ok tags =>
      Forall (fun a => isVarRef a = true) args
      /\ Forall (fun i => exists name typ,
                   In (VarRef name typ) args
                   /\ nth_error aux i = Some name
                   /\ forall j, (j < i)%nat -> nth_error aux j <> Some name) tags
      /\ (List.length tags <= List.length args)%nat
      /\ ((forall name typ, In (VarRef name typ) args -> In name aux) ->
          List.length tags = List.length args)
  | Panic p => p = PanicTypeAssertion /\ exists a, In a args /\ isVarRef a = false
  | Err _ => False
  end.
Proof.
  induction args as [| a rest IH]; simpl.
  - repeat split; auto.
  - destruct a; simpl;
      try (split; [reflexivity | eexists; split; [left; reflexivity | reflexivity]]).
    destruct (tagIndices rest aux) as [tags | e | p]; [| exact IH |].
    + destruct IH as (Hall & Htags & Hlen & Hfull).
      assert (Htags' : Forall (fun i => exists name typ,
                          (VarRef Val Type_ = VarRef name typ \/ In (VarRef name typ) rest)
                          /\ nth_error aux i = Some name
                          /\ forall j, (j < i)%nat -> nth_error aux j <> Some name) tags).
      { eapply Forall_impl; [| exact Htags]. intros i (nm & ty & Hin & Hrest).
        exists nm, ty. tauto. }
      pose proof (indexOf_spec Val aux 0) as Hidx.
      destruct (indexOf Val aux 0) as [i |].
      * destruct Hidx as (_ & Hnth & Hfirst). rewrite Nat.sub_0_r in *.
        repeat split.
        -- constructor; [reflexivity | exact Hall].
        -- constructor; [| exact Htags'].
           exists Val, Type_. repeat split; auto.
        -- simpl. lia.
        -- intros Hin. simpl. f_equal. apply Hfull. intros nm ty Hr.
           apply (Hin nm ty). right. exact Hr.
      * repeat split.
        -- constructor; [reflexivity | exact Hall].
        -- exact Htags'.
        -- lia.
        -- intros Hin. exfalso. apply Hidx. apply (Hin Val Type_). left. reflexivity.
    + destruct IH as (Hp & x & Hin & Hx). split; [exact Hp |].
      exists x. split; [right; exact Hin | exact Hx].
Qed.

(** ** stringSetSlice *)

Lemma string_le_trans (a b c : string) : string_le a b -> string_le b c -> string_le a c.
Proof.
  unfold string_le, String.leb. revert b c.
  induction a as [| x a IH]; intros [| y b] [| z c]; simpl; try congruence.
  unfold Ascii.compare.
  destruct (N.compare_spec (N_of_ascii x) (N_of_ascii y)) as [Hxy | Hxy | Hxy];
    destruct (N.compare_spec (N_of_ascii y) (N_of_ascii z)) as [Hyz | Hyz | Hyz];
    destruct (N.compare_spec (N_of_ascii x) (N_of_ascii z)) as [Hxz | Hxz | Hxz];
    try congruence; try lia.
  apply IH.
Qed.

Lemma string_le_total (a b : string) : string_le a b \/ string_le b a.
Proof. apply String.leb_total. Qed.

Lemma insert_sorted_perm (s : string) (l : list string) :
  Permutation (s :: l) (insert_sorted s l).
Proof.
  induction l as [| x l IH]; simpl; [reflexivity |].
  destruct (String.leb s x); [reflexivity |].
  rewrite perm_swap. constructor. exact IH.
Qed.

Lemma insert_sorted_sorted (s : string) (l : list string) :
  StronglySorted string_le l -> StronglySorted string_le (insert_sorted s l).
Proof.
  induction 1 as [| x l Hl IH Hx]; simpl.
  - constructor; constructor.
  - destruct (String.leb s x) eqn:Hsx.
    + constructor; [constructor; assumption |].
      constructor; [exact Hsx |].
      eapply Forall_impl; [| exact Hx]. intros y Hy.
      eapply string_le_trans; [exact Hsx | exact Hy].
    + constructor; [exact IH |].
      assert (Hxs : string_le x s).
      { destruct (string_le_total s x) as [Hc | Hc]; [unfold string_le in Hc; congruence | exact Hc]. }
      eapply Permutation_Forall; [apply insert_sorted_perm |].
      constructor; assumption.
Qed.

Lemma sort_Strings_perm (l : list string) : Permutation l (sort_Strings l).
Proof.
  induction l as [| s l IH]; simpl; [reflexivity |].
  rewrite <- insert_sorted_perm. constructor. exact IH.
Qed.

Lemma sort_Strings_sorted (l : list string) : StronglySorted string_le (sort_Strings l).
Proof.
  induction l as [| s l IH]; simpl; [constructor |].
  apply insert_sorted_sorted. exact IH.
Qed.

Lemma sorted_perm_unique (l1 : list string) :
  forall l2, StronglySorted string_le l1 -> StronglySorted string_le l2 ->
             Permutation l1 l2 -> l1 = l2.
Proof.
  induction l1 as [| a l1 IH]; intros l2 H1 H2 Hp.
  - apply Permutation_nil in Hp. congruence.
  - destruct l2 as [| b l2].
    + apply Permutation_sym, Permutation_nil in Hp. discriminate.
    + inversion H1 as [| ? ? Hs1 Ha]; inversion H2 as [| ? ? Hs2 Hb]; subst.
      assert (Hab : a = b).
      { assert (Hina : In a (b :: l2)) by (eapply Permutation_in; [exact Hp | left; reflexivity]).
        assert (Hinb : In b (a :: l1))
          by (eapply Permutation_in; [apply Permutation_sym; exact Hp | left; reflexivity]).
        destruct Hina as [-> | Hina]; trivial.
        destruct Hinb as [-> | Hinb]; trivial.
        apply String.leb_antisym.
        - rewrite Forall_forall in Ha. apply Ha. exact Hinb.
        - rewrite Forall_forall in Hb. apply Hb. exact Hina. }
      subst b. f_equal. apply IH; trivial.
      eapply Permutation_cons_inv. exact Hp.
Qed.

Lemma collect_keys (keys acc : list string) :
  fold_left (fun a k => a ++ [k])%list keys acc = (acc ++ keys)%list.
Proof.
  revert acc. induction keys as [| k keys IH]; intros acc; simpl.
  - rewrite app_nil_r. reflexivity.
  - rewrite IH, <- app_assoc. reflexivity.
Qed.

(** X12. stringSetSlice returns nil for a nil set. For a set it returns its
    keys, each once per key, in ascending order; the slice does not depend
    on the order in which the range over the map visits the keys. *)
Theorem stringSetSlice_sorted_keys :
  stringSetSlice None = None
  /\ forall keys,
       exists l,
         stringSetSlice (Some keys) = Some l
         /\ Permutation keys l
         /\ StronglySorted string_le l
         /\ forall keys', Permutation keys keys' -> stringSetSlice (Some keys') = Some l.
Proof.
  split; [reflexivity |]. intros keys. unfold stringSetSlice.
  rewrite collect_keys. simpl. eexists. split; [reflexivity |].
  split; [apply sort_Strings_perm |]. split; [apply sort_Strings_sorted |].
  intros keys' Hp. rewrite collect_keys. simpl. f_equal.
  apply sorted_perm_unique; try apply sort_Strings_sorted.
  rewrite <- (sort_Strings_perm keys'), <- (sort_Strings_perm keys).
  apply Permutation_sym. exact Hp.
Qed.

Lemma stringSetSlice_sorted_keys_witness :
  stringSetSlice (Some ["host"; "dc"; "az"]) = Some ["az"; "dc"; "host"]
  /\ stringSetSlice (Some ["dc"; "az"; "host"]) = Some ["az"; "dc"; "host"].
Proof.
  destruct (proj2 stringSetSlice_sorted_keys ["host"; "dc"; "az"]) as (l & Hl & _ & _ & Hany).
  assert (Hl' : l = ["az"; "dc"; "host"]) by (vm_compute in Hl; congruence).
  subst l. split; [exact Hl |].
  apply Hany.
  apply (perm_trans (l' := ["dc"; "host"; "az"])).
  - apply perm_swap.
  - apply perm_skip. apply perm_swap.
Defined.

Lemma tagIndices_lookup_witness :
  exists tags,
    tagIndices [VarRef "host" String; VarRef "dc" String] ["dc"; "host"; "v"] = Ok tags
    /\ List.length tags = 2%nat.
Proof.
  pose proof (tagIndices_lookup [VarRef "host" String; VarRef "dc" String]
                ["dc"; "host"; "v"]) as Hw.
  cbn in Hw. destruct Hw as (_ & _ & _ & Hfull).
  eexists. split; [reflexivity |]. apply Hfull.
  intros name typ [Heq | [Heq | []]]; inversion Heq; simpl; auto.
Defined.

(* ================================================================== *)
(** * Further properties of the storage tables *)

Lemma run_without_Close {T} (cs : list TableCalls.TableCall) (t : Table.table T) :
  Table.mu t = false ->
  existsb TableCalls.isClose cs = false ->
  TableCalls.run cs t
  = Some (repeat (TableCalls.statisticsOf (Table.cur t)) (List.length cs), t).
Proof.
  intros Hmu. destruct t as [vb m c ef]. simpl in Hmu. subst m.
  induction cs as [| [|] rest IH]; simpl; intros Hcs; try discriminate; trivial.
  specialize (IH Hcs).
  unfold Table.Statistics, Table.Lock, Table.Unlock. simpl.
  destruct c as [c |]; simpl in *; rewrite IH; reflexivity.
Qed.

Lemma run_after_Close {T} (cs : list TableCalls.TableCall) (t : Table.table T) :
  Table.mu t = false -> Table.cur t = None ->
  TableCalls.run cs t
  = Some (repeat Table.zeroStatistics
            (List.length (filter (fun c => negb (TableCalls.isClose c)) cs)), t).
Proof.
  intros Hmu Hcur. destruct t as [vb m c ef]. simpl in Hmu, Hcur. subst m c.
  induction cs as [| [|] rest IH]; simpl; trivial.
  unfold Table.Statistics, Table.Lock, Table.Unlock. simpl.
  simpl in IH. rewrite IH. reflexivity.
Qed.

(** X13. On a table whose mutex is free, any sequence of Close and
    Statistics calls returns. As long as Close has not been called, every
    Statistics returns the counters of the cursor and the table does not
    change. From the first Close on, every Statistics returns the zero
    statistics; over the whole sequence the cursor of the table is closed
    once, by the first Close, and nothing else of the table changes. *)
Theorem table_calls_in_any_order (T : Type) (before after : list TableCalls.TableCall)
  (t : Table.table T) :
  Table.mu t = false ->
  existsb TableCalls.isClose before = false ->
  exists t',
    TableCalls.run (before ++ TableCalls.CallClose :: after)%list t
    = Some ((repeat (TableCalls.statisticsOf (Table.cur t)) (List.length before)
             ++ repeat Table.zeroStatistics
                  (List.length (filter (fun c => negb (TableCalls.isClose c)) after)))%list,
            t')
    /\ TableCalls.run before t
       = Some (repeat (TableCalls.statisticsOf (Table.cur t)) (List.length before), t)
    /\ Table.cur t' = None
    /\ Table.mu t' = false
    /\ Table.valBuf t' = Table.valBuf t
    /\ Table.calls t' = (TableCalls.closeCalls (Table.cur t) ++ Table.calls t)%list.
Proof.
  intros Hmu Hbefore.
  destruct (Table.Close t) as [t1 |] eqn:Hclose.
  2:{ unfold Table.Close, Table.Lock in Hclose. rewrite Hmu in Hclose.
      destruct (Table.cur t); discriminate. }
  assert (Ht1 : Table.cur t1 = None /\ Table.mu t1 = false
                /\ Table.valBuf t1 = Table.valBuf t
                /\ Table.calls t1 = (TableCalls.closeCalls (Table.cur t) ++ Table.calls t)%list).
  { unfold Table.Close, Table.Lock, Table.Unlock in Hclose. rewrite Hmu in Hclose.
    destruct t as [vb m c ef]; simpl in *. destruct c; inversion Hclose; simpl; auto. }
  destruct Ht1 as (Hcur & Hmu1 & Hvb & Hcalls).
  exists t1. split; [| split; [apply run_without_Close; assumption | auto]].
  clear Hcalls Hvb.
  revert Hbefore. destruct t as [vb m c ef]. simpl in Hmu. subst m.
  induction before as [| [|] rest IH];
    cbn [TableCalls.run app existsb TableCalls.isClose orb List.length repeat];
    intros Hb; try discriminate.
  - rewrite Hclose. apply run_after_Close; assumption.
  - specialize (IH Hb).
    unfold Table.Statistics, Table.Lock, Table.Unlock.
    cbn [Table.mu Table.cur Table.valBuf Table.calls].
    destruct c as [c |]; cbn [Table.mu Table.cur Table.valBuf Table.calls] in *;
      rewrite IH; reflexivity.
Qed.

Lemma table_calls_in_any_order_witness :
  exists t',
    TableCalls.run
      ([TableCalls.CallStatistics]
       ++ TableCalls.CallClose
          :: [TableCalls.CallStatistics; TableCalls.CallClose; TableCalls.CallStatistics])%list
      Table.exampleTable
    = Some ((repeat (TableCalls.statisticsOf (Table.cur Table.exampleTable)) 1
             ++ repeat Table.zeroStatistics 2)%list, t')
    /\ TableCalls.run [TableCalls.CallStatistics] Table.exampleTable
       = Some (repeat (TableCalls.statisticsOf (Table.cur Table.exampleTable)) 1,
               Table.exampleTable)
    /\ Table.cur t' = None
    /\ Table.mu t' = false
    /\ Table.valBuf t' = Table.valBuf Table.exampleTable
    /\ Table.calls t' = [Table.CursorClose 7].
Proof.
  apply (table_calls_in_any_order float64 [TableCalls.CallStatistics]
           [TableCalls.CallStatistics; TableCalls.CallClose; TableCalls.CallStatistics]
           Table.exampleTable); reflexivity.
Defined.

Lemma runGroup_after_Close {T} (cs : list TableCalls.TableCall) (t : Table.groupTable T) :
  Table.g_mu t = false -> Table.g_cur t = None -> Table.g_gc t = None ->
  TableCalls.runGroup cs t
  = Some (repeat Table.zeroStatistics
            (List.length (filter (fun c => negb (TableCalls.isClose c)) cs)), t).
Proof.
  intros Hmu Hcur Hgc. destruct t as [vb m gc c ef]. simpl in Hmu, Hcur, Hgc. subst m c gc.
  induction cs as [| [|] rest IH]; simpl; trivial.
  simpl in IH. rewrite IH. reflexivity.
Qed.

(** X14. On a group table whose mutex is free, Close followed by any
    sequence of Close and Statistics calls returns; every Statistics after
    the Close returns the zero statistics; the cursor is closed first, then
    the group cursor, each once, and no later call closes anything. *)
Theorem group_table_calls_after_Close (T : Type) (after : list TableCalls.TableCall)
  (t : Table.groupTable T) :
  Table.g_mu t = false ->
  exists t',
    TableCalls.runGroup (TableCalls.CallClose :: after) t
    = Some (repeat Table.zeroStatistics
              (List.length (filter (fun c => negb (TableCalls.isClose c)) after)), t')
    /\ Table.g_cur t' = None /\ Table.g_gc t' = None /\ Table.g_mu t' = false
    /\ Table.g_valBuf t' = Table.g_valBuf t
    /\ Table.g_calls t'
       = (TableCalls.groupCloseCalls (Table.g_gc t)
          ++ TableCalls.closeCalls (Table.g_cur t) ++ Table.g_calls t)%list.
Proof.
  intros Hmu. destruct t as [vb m gc c ef]. simpl in Hmu. subst m.
  simpl. unfold Table.GroupClose, Table.g_Lock, Table.g_Unlock. simpl.
  eexists. split; [apply runGroup_after_Close; destruct c, gc; reflexivity |].
  destruct c, gc; simpl; auto.
Qed.

Lemma group_table_calls_after_Close_witness :
  exists t',
    TableCalls.runGroup
      [TableCalls.CallClose; TableCalls.CallStatistics; TableCalls.CallClose]
      Table.exampleGroupTable
    = Some (repeat Table.zeroStatistics 1, t')
    /\ Table.g_cur t' = None /\ Table.g_gc t' = None /\ Table.g_mu t' = false
    /\ Table.g_valBuf t' = Table.g_valBuf Table.exampleGroupTable
    /\ Table.g_calls t' = [Table.GroupCursorClose 3; Table.CursorClose 7].
Proof.
  apply (group_table_calls_after_Close float64
           [TableCalls.CallStatistics; TableCalls.CallClose] Table.exampleGroupTable).
  reflexivity.
Defined.

(** ** advance *)

Lemma sized_len {A} (z : A) (buf : Reads.slice A) (n : nat) :
  Reads.len (Reads.sized z buf n) = n /\ (n <= Reads.cap (Reads.sized z buf n))%nat
  /\ (Reads.cap buf <= Reads.cap (Reads.sized z buf n))%nat
  /\ ((n <= Reads.cap buf)%nat ->
      Reads.backing (Reads.sized z buf n) = Reads.backing buf).
Proof.
  unfold Reads.sized, Reads.cap. destruct (Nat.ltb_spec (List.length (Reads.backing buf)) n);
    simpl; rewrite ?repeat_length; repeat split; try lia; trivial.
Qed.

Lemma copy_contents {A} (dst : Reads.slice A) (src : list A) :
  (Reads.len dst <= Reads.cap dst)%nat ->
  Reads.len (Reads.copy dst src) = Reads.len dst
  /\ Reads.cap (Reads.copy dst src) = Reads.cap dst
  /\ List.length (Reads.contents (Reads.copy dst src)) = Reads.len dst
  /\ (List.length src = Reads.len dst -> Reads.contents (Reads.copy dst src) = src)
  /\ firstn (List.length src) (Reads.contents (Reads.copy dst src))
     = firstn (Reads.len dst) src.
Proof.
  unfold Reads.cap, Reads.copy, Reads.contents. simpl. intros Hle.
  set (n := Nat.min (Reads.len dst) (List.length src)).
  assert (Hn : List.length (firstn n src) = n) by (apply firstn_length_le; lia).
  assert (Hcap : List.length (firstn n src ++ skipn n (Reads.backing dst))
                 = List.length (Reads.backing dst)).
  { rewrite length_app, Hn, length_skipn. lia. }
  repeat split; trivial.
  - rewrite length_firstn, Hcap. lia.
  - intros Hlen. unfold n. rewrite <- Hlen, Nat.min_id, firstn_all.
    rewrite firstn_app, firstn_all, Nat.sub_diag. simpl. apply app_nil_r.
  - rewrite firstn_firstn.
    replace (Nat.min (List.length src) (Reads.len dst)) with n by (unfold n; lia).
    rewrite firstn_app, Hn, Nat.sub_diag. simpl. rewrite app_nil_r.
    rewrite firstn_firstn, Nat.min_id.
    destruct (Nat.le_ge_cases (Reads.len dst) (List.length src)) as [Hc | Hc].
    + replace n with (Reads.len dst) by (unfold n; lia). reflexivity.
    + replace n with (List.length src) by (unfold n; lia).
      rewrite firstn_all. symmetry. apply firstn_all2. exact Hc.
Qed.

(** The buffers after [fill]. *)
Lemma fill_buffers {T} (zero : T) (a : Reads.Array T) (t : Reads.table T) :
  let t' := Reads.fill zero a t in
  Reads.l t' = Reads.l t
  /\ Reads.cur t' = Reads.cur t /\ Reads.gc t' = Reads.gc t /\ Reads.err t' = Reads.err t
  /\ Reads.effects t' = Reads.AppendBounds :: Reads.AppendTags :: Reads.effects t
  /\ Reads.len (Reads.timeBuf t') = Reads.l t
  /\ Reads.len (Reads.valBuf t') = Reads.l t
  /\ Reads.timeCol (Reads.colBufs t') = Reads.contents (Reads.timeBuf t')
  /\ Reads.valueCol (Reads.colBufs t') = Reads.contents (Reads.valBuf t')
  /\ List.length (Reads.contents (Reads.valBuf t')) = Reads.l t
  /\ (Reads.cap (Reads.timeBuf t) <= Reads.cap (Reads.timeBuf t'))%nat
  /\ (Reads.cap (Reads.valBuf t) <= Reads.cap (Reads.valBuf t'))%nat
  /\ (Reads.Len a = Reads.l t -> Reads.contents (Reads.timeBuf t') = Reads.Timestamps a)
  /\ (List.length (Reads.Values a) = Reads.l t ->
      Reads.contents (Reads.valBuf t') = Reads.Values a).
Proof.
  cbv zeta. unfold Reads.fill.
  cbn [Reads.l Reads.cur Reads.gc Reads.err Reads.effects Reads.timeBuf Reads.valBuf
       Reads.colBufs Reads.timeCol Reads.valueCol].
  destruct (sized_len 0 (Reads.timeBuf t) (Reads.l t)) as (Ht1 & Ht2 & Ht3 & _).
  destruct (sized_len zero (Reads.valBuf t) (Reads.l t)) as (Hv1 & Hv2 & Hv3 & _).
  destruct (copy_contents (Reads.sized 0 (Reads.timeBuf t) (Reads.l t))
              (Reads.Timestamps a)) as (Hc1 & Hc2 & Hc3 & Hc4 & _); [lia |].
  destruct (copy_contents (Reads.sized zero (Reads.valBuf t) (Reads.l t))
              (Reads.Values a)) as (Hd1 & Hd2 & Hd3 & Hd4 & _); [lia |].
  repeat split; trivial; try congruence; try lia.
  - eapply Nat.le_trans; [exact Ht3 |]. apply Nat.eq_le_incl. symmetry. exact Hc2.
  - intros Hlen. apply Hc4. unfold Reads.Len in Hlen.
    etransitivity; [exact Hlen | symmetry; exact Ht1].
  - intros Hlen. apply Hd4. etransitivity; [exact Hlen | symmetry; exact Hv1].
Qed.

(** X15. advance of a table that is open on a cursor asks the cursor for
    its next array and returns whether it has points. On an empty array it
    returns false, t.l is 0, and the buffers, the columns and the log of
    calls are as before. On an array of n > 0 points it returns true: t.l and
    the lengths of both buffers are n, the time buffer and the time column
    hold the timestamps of the array, the value buffer and the value column
    hold its values when it has n of them, the capacity of a buffer never
    shrinks and a buffer that is large enough is reused. *)
Theorem advance_reads_next_array (T : Type) (zero : T) (t : Reads.table T)
  (c : Reads.Cursor T) :
  Reads.cur t = Some c ->
  let a := Reads.answers c (Reads.asked c) in
  exists t',
    Reads.advance zero t = Ok (negb (Reads.Len a =? 0)%nat, t')
    /\ Reads.l t' = Reads.Len a
    /\ Reads.cur t' = Some (snd (Reads.Next c))
    /\ (Reads.Len a = 0%nat ->
        Reads.timeBuf t' = Reads.timeBuf t /\ Reads.valBuf t' = Reads.valBuf t
        /\ Reads.colBufs t' = Reads.colBufs t /\ Reads.effects t' = Reads.effects t)
    /\ ((0 < Reads.Len a)%nat ->
        Reads.len (Reads.timeBuf t') = Reads.Len a
        /\ Reads.len (Reads.valBuf t') = Reads.Len a
        /\ Reads.contents (Reads.timeBuf t') = Reads.Timestamps a
        /\ Reads.timeCol (Reads.colBufs t') = Reads.Timestamps a
        /\ List.length (Reads.valueCol (Reads.colBufs t')) = Reads.Len a
        /\ (List.length (Reads.Values a) = Reads.Len a ->
            Reads.contents (Reads.valBuf t') = Reads.Values a
            /\ Reads.valueCol (Reads.colBufs t') = Reads.Values a)
        /\ (Reads.cap (Reads.timeBuf t) <= Reads.cap (Reads.timeBuf t'))%nat
        /\ (Reads.cap (Reads.valBuf t) <= Reads.cap (Reads.valBuf t'))%nat
        /\ ((Reads.Len a <= Reads.cap (Reads.timeBuf t))%nat ->
            Reads.cap (Reads.timeBuf t') = Reads.cap (Reads.timeBuf t))
        /\ Reads.effects t' = Reads.AppendBounds :: Reads.AppendTags :: Reads.effects t).
Proof.
  intros Hcur a. unfold Reads.advance. rewrite Hcur. unfold Reads.Next. fold a.
  set (t0 := Reads.set_cur T t
               (Some {| Reads.cur_id := Reads.cur_id c; Reads.answers := Reads.answers c;
                        Reads.asked := S (Reads.asked c) |}) (Reads.Len a)).
  change (Reads.l t0) with (Reads.Len a).
  destruct (Nat.eqb_spec (Reads.Len a) 0) as [Hz | Hnz].
  - exists t0. split; [reflexivity |]. repeat split; trivial; lia.
  - exists (Reads.fill zero a t0). split; [reflexivity |].
    pose proof (fill_buffers zero a t0) as Hf. cbv zeta in Hf.
    change (Reads.l t0) with (Reads.Len a) in Hf.
    change (Reads.timeBuf t0) with (Reads.timeBuf t) in Hf.
    change (Reads.valBuf t0) with (Reads.valBuf t) in Hf.
    change (Reads.effects t0) with (Reads.effects t) in Hf.
    destruct Hf as (Hl & Hc & _ & _ & Hef & Htl & Hvl & Htc & Hvc & Hvlen & Hcap1 & Hcap2
                    & Htime & Hval).
    split; [exact Hl |]. split; [exact Hc |]. split; [intros Hz; contradiction |].
    intros _. repeat split; trivial;
      try solve [ apply Htime; reflexivity
                | rewrite Htc; apply Htime; reflexivity
                | rewrite Hvc; exact Hvlen ].
    + apply Hval. assumption.
    + rewrite Hvc. apply Hval. assumption.
    + intros Hle.
      destruct (sized_len 0 (Reads.timeBuf t) (Reads.Len a)) as (Hs1 & Hs2 & _ & Hs4).
      destruct (copy_contents (Reads.sized 0 (Reads.timeBuf t) (Reads.Len a))
                  (Reads.Timestamps a)) as (_ & Hc2 & _); [lia |].
      etransitivity; [exact Hc2 |]. unfold Reads.cap. f_equal. apply Hs4. exact Hle.
Qed.

Lemma advance_reads_next_array_witness :
  exists t',
    Reads.advance 0%float Reads.exampleTable = Ok (true, t')
    /\ Reads.l t' = 2%nat
    /\ Reads.contents (Reads.timeBuf t') = [40; 50]
    /\ Reads.contents (Reads.valBuf t') = [4%float; 5%float]
    /\ Reads.cap (Reads.timeBuf t') = 3%nat.
Proof.
  destruct (advance_reads_next_array float64 0%float Reads.exampleTable
              Reads.exampleCursor eq_refl)
    as (t' & Hadv & Hl & _ & _ & Hfill).
  assert (Hpos : (0 < Reads.Len (Reads.answers Reads.exampleCursor
                                   (Reads.asked Reads.exampleCursor)))%nat)
    by (vm_compute; lia).
  destruct (Hfill Hpos) as (_ & _ & Htime & _ & _ & Hval & _ & _ & Hcap & _).
  exists t'. split; [exact Hadv |]. split; [exact Hl |]. split; [exact Htime |].
  split; [apply Hval; reflexivity |]. apply Hcap. vm_compute. lia.
Defined.

(** One turn of the RETRY loop of the group table. *)
Lemma advanceRetry_unfold {T} (zero : T) (name : string) (fuel : nat) (t : Reads.table T) :
  Reads.advanceRetry zero name fuel t
  = match Reads.cur t with
    | None => Some (Panic PanicNilDereference)
    | Some c =>
        let (a, c) := Reads.Next c in
        let t := Reads.set_cur T t (Some c) (Reads.Len a) in
        if (Reads.l t =? 0)%nat then
          match Reads.advanceCursor name t with
          | Ok (true, t) =>
              match fuel with
              | O => None
              | S fuel => Reads.advanceRetry zero name fuel t
              end
          | Ok (false, t) => Some (Ok (false, t))
          | Err e => Some (Err e)
          | Panic p => Some (Panic p)
          end
        else Some (Ok (true, Reads.fill zero a t))
    end.
Proof. destruct fuel; reflexivity. Qed.

(** The loop of advanceCursor over the positions that are left, for a table
    whose current cursor has been closed and set to nil. *)
Lemma nextCursor_spec {T} (name : string) (ps : list (Reads.Position T)) :
  forall (t : Reads.table T) b t',
    Reads.cur t = None ->
    Reads.nextCursor T name ps t = (b, t') ->
    Reads.l t' = Reads.l t /\ Reads.timeBuf t' = Reads.timeBuf t
    /\ Reads.valBuf t' = Reads.valBuf t /\ Reads.colBufs t' = Reads.colBufs t
    /\ (exists rest, Reads.gc t' = Some rest
                     /\ (List.length rest <= List.length ps)%nat
                     /\ (b = true -> (List.length rest < List.length ps)%nat))
    /\ (if b then (exists c', Reads.cur t' = Some c') /\ Reads.err t' = Reads.err t
        else Reads.cur t' = None
             /\ ((Reads.err t' = Reads.err t /\ Reads.gc t' = Some [])
                 \/ Reads.err t' = Some (Reads.wrongCursorMessage name)))
    /\ incl (Reads.held t') (flat_map (fun p => Reads.foundId T (Reads.found p)) ps)
    /\ incl (Reads.closedCursors t) (Reads.closedCursors t')
    /\ (forall id, In id (flat_map (fun p => Reads.foundId T (Reads.found p)) ps) ->
                   In id (Reads.held t') \/ In id (Reads.closedCursors t'))
    /\ (forall id, In id (Reads.closedCursors t') ->
                   In id (Reads.closedCursors t)
                   \/ In id (flat_map (fun p => Reads.foundId T (Reads.found p)) ps)).
Proof.
  induction ps as [| p rest IH]; intros t b t' Hcur Hnext; simpl in Hnext.
  - injection Hnext as <- <-.
    unfold Reads.held, Reads.closedCursors, Reads.unvisited. simpl. rewrite Hcur. simpl.
    repeat split; trivial; try (intros ? []); try apply incl_refl.
    + exists []. repeat split; trivial. discriminate.
    + left. split; reflexivity.
    + intros id Hin. left. exact Hin.
  - simpl flat_map. destruct (Reads.found p) as [| id | c] eqn:Hp.
    + destruct (IH t b t' Hcur Hnext)
        as (Hl & Htb & Hvb & Hcb & (r & Hgc & Hle & Hlt) & Hb & H1 & H2 & H3 & H4).
      simpl. repeat split; trivial.
      exists r. repeat split; trivial; [lia |]. intros Hbt. specialize (Hlt Hbt). lia.
    + injection Hnext as <- <-.
      unfold Reads.held, Reads.closedCursors, Reads.unvisited. simpl. rewrite Hcur. simpl.
      repeat split; trivial.
      * exists rest. repeat split; trivial; [lia | discriminate].
      * right. reflexivity.
      * apply incl_tl, incl_refl.
      * apply incl_tl, incl_refl.
      * intros i [<- | Hin]; [right; left; reflexivity | left; exact Hin].
      * intros i [<- | Hin]; [right; left; reflexivity | left; exact Hin].
    + injection Hnext as <- <-.
      unfold Reads.held, Reads.closedCursors, Reads.unvisited. simpl.
      repeat split; trivial; try apply incl_refl.
      * exists rest. repeat split; trivial; lia.
      * exists c. reflexivity.
      * intros i Hin. left. exact Hin.
      * intros i Hin. left. exact Hin.
Qed.

Lemma conserved_trans {T} (t1 t2 t3 : Reads.table T) :
  Reads.conserved t1 t2 -> Reads.conserved t2 t3 -> Reads.conserved t1 t3.
Proof.
  intros (A1 & A2 & A3 & A4) (B1 & B2 & B3 & B4). repeat split.
  - eapply incl_tran; eassumption.
  - eapply incl_tran; eassumption.
  - intros id Hin. destruct (A3 id Hin) as [Hh | Hc].
    + apply B3, Hh.
    + right. apply B2, Hc.
  - intros id Hin. destruct (B4 id Hin) as [Hc | Hh].
    + apply A4, Hc.
    + right. apply A1, Hh.
Qed.

(** X16. advance of a group table that is open on a cursor, with a group
    cursor that has finitely many positions left, returns: the RETRY loop
    goes round at most once per position left, and it never dereferences a
    nil cursor. No cursor is lost on the way: every cursor the table held
    is still held or has been closed, and nothing else was closed. When it
    returns true the table is open on a cursor whose last answer had points,
    t.l is their number and the time buffer and the time column hold their
    timestamps. When it returns false the current cursor is nil, t.l is 0,
    the buffers and the columns are as before, and either the group cursor
    is exhausted with t.err as before or t.err is the error about a cursor
    of another type. *)
Theorem group_advance_ends (T : Type) (zero : T) (name : string) (fuel : nat)
  (t : Reads.table T) (c : Reads.Cursor T) (ps : list (Reads.Position T)) :
  Reads.cur t = Some c ->
  Reads.gc t = Some ps ->
  (List.length ps <= fuel)%nat ->
  exists b t',
    Reads.advanceRetry zero name fuel t = Some (Ok (b, t'))
    /\ Reads.conserved t t'
    /\ (b = true ->
        exists c', Reads.cur t' = Some c' /\ Reads.gc t' <> None
          /\ (0 < Reads.asked c')%nat
          /\ (0 < Reads.l t')%nat
          /\ Reads.l t' = Reads.Len (Reads.answers c' (Nat.pred (Reads.asked c')))
          /\ Reads.contents (Reads.timeBuf t')
             = Reads.Timestamps (Reads.answers c' (Nat.pred (Reads.asked c')))
          /\ Reads.timeCol (Reads.colBufs t')
             = Reads.Timestamps (Reads.answers c' (Nat.pred (Reads.asked c'))))
    /\ (b = false ->
        Reads.cur t' = None /\ Reads.l t' = 0%nat
        /\ Reads.timeBuf t' = Reads.timeBuf t /\ Reads.valBuf t' = Reads.valBuf t
        /\ Reads.colBufs t' = Reads.colBufs t
        /\ ((Reads.err t' = Reads.err t /\ Reads.gc t' = Some [])
            \/ Reads.err t' = Some (Reads.wrongCursorMessage name))).
Proof.
  remember (List.length ps) as n eqn:Hn.
  revert fuel t c ps Hn.
  induction n as [n IH] using lt_wf_ind.
  intros fuel t c ps Hn Hcur Hgc Hfuel.
  rewrite advanceRetry_unfold, Hcur. unfold Reads.Next.
  set (a := Reads.answers c (Reads.asked c)).
  set (c1 := {| Reads.cur_id := Reads.cur_id c; Reads.answers := Reads.answers c;
                Reads.asked := S (Reads.asked c) |}).
  set (t0 := Reads.set_cur T t (Some c1) (Reads.Len a)).
  change (Reads.l t0) with (Reads.Len a).
  assert (Hheld0 : Reads.held t0 = Reads.held t).
  { unfold Reads.held, Reads.unvisited. simpl. rewrite Hcur. reflexivity. }
  destruct (Nat.eqb_spec (Reads.Len a) 0) as [Hz | Hnz].
  - unfold Reads.advanceCursor. change (Reads.cur t0) with (Some c1). cbv beta iota zeta.
    set (t1 := Reads.set_cur T (Reads.tell T t0 (Reads.CursorClose (Reads.cur_id c1)))
                 None (Reads.l t0)).
    change (Reads.gc t1) with (Reads.gc t). rewrite Hgc.
    destruct (Reads.nextCursor T name ps t1) as [b t2] eqn:Hnext.
    destruct (nextCursor_spec name ps t1 b t2 eq_refl Hnext)
      as (Hl & Htb & Hvb & Hcb & (rest & Hgc2 & Hle & Hlt) & Hb & H1 & H2 & H3 & H4).
    assert (Hcons : Reads.conserved t t2).
    { unfold Reads.conserved.
      assert (Hheld : Reads.held t
                      = Reads.cur_id c
                        :: flat_map (fun p => Reads.foundId T (Reads.found p)) ps).
      { unfold Reads.held, Reads.unvisited. rewrite Hcur, Hgc. reflexivity. }
      assert (Hclosed : Reads.closedCursors t1 = Reads.cur_id c :: Reads.closedCursors t)
        by reflexivity.
      rewrite Hheld. rewrite Hclosed in H2, H4. repeat split.
      - apply incl_tl. exact H1.
      - intros i Hi. apply H2. right. exact Hi.
      - intros i [<- | Hi]; [right; apply H2; left; reflexivity | apply H3; exact Hi].
      - intros i Hi. destruct (H4 i Hi) as [[<- | Hc] | Hp].
        + right. left. reflexivity.
        + left. exact Hc.
        + right. right. exact Hp. }
    destruct b.
    + destruct Hb as ((c2 & Hcur2) & Herr2). specialize (Hlt eq_refl).
      destruct fuel as [| fuel]; [lia |].
      destruct (IH (List.length rest) ltac:(lia) fuel t2 c2 rest eq_refl Hcur2 Hgc2
                  ltac:(lia))
        as (b & t' & Hrun & Hcons' & Htrue & Hfalse).
      exists b, t'. split; [exact Hrun |]. split; [eapply conserved_trans; eassumption |].
      split; [exact Htrue |].
      intros Hbf. destruct (Hfalse Hbf) as (F1 & F2 & F3 & F4 & F5 & F6).
      repeat split; trivial.
      * rewrite F3. exact Htb.
      * rewrite F4. exact Hvb.
      * rewrite F5. exact Hcb.
      * destruct F6 as [(Fe & Fg) | Fe]; [left; split; trivial | right; exact Fe].
        rewrite Fe. exact Herr2.
    + exists false, t2. split; [reflexivity |]. split; [exact Hcons |].
      split; [discriminate |]. intros _. destruct Hb as (Hcur2 & Herr).
      repeat split; trivial.
      rewrite Hl. exact Hz.
  - exists true, (Reads.fill zero a t0). split; [reflexivity |].
    pose proof (fill_buffers zero a t0) as Hf. cbv zeta in Hf.
    change (Reads.l t0) with (Reads.Len a) in Hf.
    destruct Hf as (Hl & Hc & Hg & _ & Hef & _ & _ & Htc & _ & _ & _ & _ & Htime & _).
    split.
    { unfold Reads.conserved, Reads.held, Reads.unvisited, Reads.closedCursors.
      rewrite Hc, Hg, Hef. simpl. rewrite Hcur. simpl.
      repeat split; try apply incl_refl; intros i Hi; left; exact Hi. }
    split; [| discriminate]. intros _.
    exists c1. split; [exact Hc |]. split; [rewrite Hg; simpl; rewrite Hgc; discriminate |].
    simpl. fold a. repeat split; trivial; try lia; apply Htime; reflexivity.
Qed.

Lemma group_advance_ends_witness :
  exists t',
    Reads.groupAdvance 0%float "float" Reads.exampleGroupTable = Some (Ok (true, t'))
    /\ Reads.conserved Reads.exampleGroupTable t'
    /\ Reads.closedCursors t' = [8%nat; 7%nat]
    /\ Reads.timeCol (Reads.colBufs t') = [70].
Proof.
  destruct (group_advance_ends float64 0%float "float" 3 Reads.exampleGroupTable
              _ _ eq_refl eq_refl (le_n 3))
    as (b & t' & Hrun & Hcons & _).
  exists t'.
  assert (Hb : b = true /\ Reads.closedCursors t' = [8%nat; 7%nat]
               /\ Reads.timeCol (Reads.colBufs t') = [70]).
  { vm_compute in Hrun. injection Hrun as <- <-. vm_compute. repeat split. }
  destruct Hb as (-> & Hclosed & Htime).
  split; [exact Hrun |]. split; [exact Hcons |]. split; assumption.
Defined.

(** ** The number of iterators Select returns *)

Lemma buildAuxIterators_length H fields ic opt w itrs w' :
  buildAuxIterators H fields ic opt w = (Ok itrs, w') ->
  List.length itrs = List.length fields.
Proof.
  unfold buildAuxIterators, bind.
  destruct (CreateIterator H ic opt w) as [[input | e | p] w1]; try discriminate.
  cbv zeta. destruct (SeriesKeys H ic opt w1) as [[keys | e | p] w2]; try discriminate.
  match goal with |- context [auxFieldLoop H fields ?a opt w2] =>
    destruct (auxFieldLoop_silent H fields a opt w2) as [_ Hlen];
    destruct (auxFieldLoop H fields a opt w2) as [[l | e | p] w3] end;
    simpl; try discriminate.
  intros Heq. inversion Heq; subst. apply Hlen. reflexivity.
Qed.

Lemma buildFieldIterators_length H fields ic opt w itrs w' :
  buildFieldIterators H fields ic opt w = (Ok itrs, w') ->
  List.length itrs = List.length fields.
Proof.
  unfold buildFieldIterators.
  pose proof (fieldClosure_length H fields ic opt w) as Hlen.
  destruct (fieldClosure H fields ic opt w) as [[[u | e | p] slice] w1]; simpl in Hlen;
    try discriminate.
  destruct ((opt_Limit opt >? 0) || (opt_Offset opt >? 0));
    intros Heq; inversion Heq; subst; rewrite ?length_map; exact Hlen.
Qed.

Lemma withExtraFields_length (fields : Fields) :
  List.length (withExtraFields fields)
  = (List.length fields
     + list_sum (map (fun f => match field_Expr f with
                               | Call name args =>
                                   if isTopOrBottom name
                                   then List.length (interior args) else 0%nat
                               | _ => 0%nat
                               end) fields))%nat.
Proof.
  induction fields as [| f rest IH]; simpl; trivial.
  destruct (field_Expr f); simpl; try (rewrite IH; lia).
  destruct (isTopOrBottom _); simpl; [| rewrite IH; lia].
  rewrite length_app, length_map, IH. lia.
Qed.

(** X17. When Select succeeds, the number of iterators it returns is read
    off the statement. Through the aux pipeline (no call, some reference)
    it is the number of fields. Through the field pipeline it is the number
    of fields when top() and bottom() calls add no name to opt.Aux;
    otherwise each field that is itself a top() or bottom() call counts for
    one more per interior argument. *)
Theorem Select_number_of_iterators (H : Helpers) (stmt : SelectStatement)
  (ic : IteratorCreator) (sopt : SelectOptions) (w w' : World)
  (itrs : list (option Iterator)) :
  Select H stmt ic sopt w = (Ok itrs, w') ->
  let info := newSelectInfo H stmt in
  let implicit :=
    list_sum (map (fun f => match field_Expr f with
                            | Call name args =>
                                if isTopOrBottom name
                                then List.length (interior args) else 0%nat
                            | _ => 0%nat
                            end) (stmt_Fields stmt)) in
  if (List.length (calls info) =? 0)%nat && (0 <? List.length (refs info))%nat
  then List.length itrs = List.length (stmt_Fields stmt)
  else exists extra,
         extraAux (calls info) = Ok extra
         /\ List.length itrs
            = (List.length (stmt_Fields stmt)
               + if (0 <? List.length extra)%nat then implicit else 0)%nat.
Proof.
  unfold Select. cbv zeta.
  destruct (newIteratorOptionsStmt H stmt sopt) as [msg | opt]; [discriminate |].
  destruct ((1 <? List.length (calls (newSelectInfo H stmt)))%nat
            && (0 <? List.length (refs (newSelectInfo H stmt)))%nat); [discriminate |].
  destruct ((List.length (calls (newSelectInfo H stmt)) =? 0)%nat
            && (0 <? List.length (refs (newSelectInfo H stmt)))%nat).
  - unfold bind, ret.
    match goal with |- context [buildAuxIterators H ?f ic ?o w] =>
      pose proof (buildAuxIterators_length H f ic o w) as Hlen;
      destruct (buildAuxIterators H f ic o w) as [[l | e | p] w1] end;
      try discriminate.
    intros Heq. inversion Heq; subst. rewrite length_map. eapply Hlen. reflexivity.
  - unfold bind, liftOutcome.
    destruct (extraAux (calls (newSelectInfo H stmt))) as [extra | e | p];
      try discriminate.
    intros Hbuild. exists extra. split; [reflexivity |].
    apply buildFieldIterators_length in Hbuild.
    rewrite Hbuild. destruct (0 <? List.length extra)%nat.
    + apply withExtraFields_length.
    + lia.
Qed.

Lemma Select_number_of_iterators_witness :
  exists itrs w',
    Select Examples.H Inputs.select_top_host Examples.ic Examples.sopt world0 = (Ok itrs, w')
    /\ List.length itrs = 2%nat.
Proof.
  destruct (Select Examples.H Inputs.select_top_host Examples.ic Examples.sopt world0)
    as [[itrs | e | p] w'] eqn:Hsel; try (vm_compute in Hsel; discriminate).
  exists itrs, w'. split; [reflexivity |].
  pose proof (Select_number_of_iterators Examples.H Inputs.select_top_host Examples.ic
                Examples.sopt world0 w' itrs Hsel) as Hn.
  vm_compute in Hn. destruct Hn as (extra & Hextra & Hlen).
  injection Hextra as <-. exact Hlen.
Defined.
